(** * singcraft: the parsers and the config builder, embedded in Rocq

    The development follows the TypeScript sources of the repository:
    - [lib/parsers/vless.ts]    ([Vless], [VlessBatch]): the VLESS link
      parser and its batch parser;
    - [lib/parsers/amnezia.ts]  ([Amnezia]): the XRay / AmneziaVPN JSON converter;
    - [lib/parsers/awg.ts]      ([Awg]):     the AmneziaWG [.conf] parser;
    - [lib/parsers/index.ts]    ([Parsers]): protocol detection and batch parsing;
    - [lib/builder.ts]          ([Builder]): the sing-box config builder.

    Module [JS] models the part of the ECMAScript / WHATWG run time that the
    sources call. *)

From Stdlib Require Import ZArith NArith String Ascii List Lia Bool.
From stdpp Require Import base list gmap pretty.

Local Open Scope N_scope.

(** ** The run time *)

Module JS.

(** A JavaScript string is a sequence of UTF-16 code units. *)
Definition jsstring := list N.

(** Literals of the sources are ASCII; [js] turns a Rocq literal into
    code units. *)
Definition js (s : string) : jsstring :=
  map N_of_ascii (list_ascii_of_string s).

(** The code unit of an ASCII character. *)
Definition ch (a : ascii) : N := N_of_ascii a.

(** The double quote and the line feed, as one-character strings. *)
Definition dquote : jsstring := [34].
Definition LF : jsstring := [10].

(** Lines joined by line feeds: how the examples write a text. *)
Fixpoint unlines (ls : list jsstring) : jsstring :=
  match ls with
  | [] => []
  | [l] => l
  | l :: rest => l ++ LF ++ unlines rest
  end.

Definition jsstring_eqb (a b : jsstring) : bool := bool_decide (a = b).

(** Truthiness of a string: [!s] holds of the empty string only. *)
Definition truthy (s : jsstring) : bool :=
  match s with [] => false | _ => true end.

(** Truthiness of [string | null | undefined]. *)
Definition truthyOpt (s : option jsstring) : bool :=
  match s with Some (_ :: _) => true | _ => false end.

(** [a || b] on an optional string and a string default. *)
Definition orElse (s : option jsstring) (d : jsstring) : jsstring :=
  match s with Some (c :: r) => c :: r | _ => d end.

(** [a || b] on two optional strings. *)
Definition orOpt (s t : option jsstring) : option jsstring :=
  if truthyOpt s then s else t.

(** WhiteSpace and LineTerminator code units (ECMA-262, 12.2 and 12.3):
    what [trim] and [parseInt] strip. *)
Definition isWhiteSpace (c : N) : bool :=
  ((9 <=? c) && (c <=? 13)) || (c =? 32) || (c =? 160) || (c =? 5760)
  || ((8192 <=? c) && (c <=? 8202)) || (c =? 8232) || (c =? 8233)
  || (c =? 8239) || (c =? 8287) || (c =? 12288) || (c =? 65279).

Fixpoint dropWhile {A} (p : A -> bool) (l : list A) : list A :=
  match l with
  | [] => []
  | x :: l' => if p x then dropWhile p l' else l
  end.

Fixpoint takeWhile {A} (p : A -> bool) (l : list A) : list A :=
  match l with
  | x :: l' => if p x then x :: takeWhile p l' else []
  | [] => []
  end.

Definition trimStart (s : jsstring) : jsstring := dropWhile isWhiteSpace s.
Definition trimEnd (s : jsstring) : jsstring :=
  rev (dropWhile isWhiteSpace (rev s)).

(** [s.trim()] *)
Definition trim (s : jsstring) : jsstring := trimEnd (trimStart s).

(** [s.startsWith(p)] *)
Fixpoint startsWith (p s : jsstring) : bool :=
  match p, s with
  | [], _ => true
  | _ :: _, [] => false
  | a :: p', b :: s' => (a =? b) && startsWith p' s'
  end.

(** [s.slice(n)] and [s.slice(a, b)] for indices that are not negative. *)
Definition sliceFrom (n : nat) (s : jsstring) : jsstring := drop n s.
Definition slice (a b : nat) (s : jsstring) : jsstring := drop a (take b s).

(** The sources search for one-character strings only; the searched
    character is given as a code unit.  [None] stands for [-1]. *)
Fixpoint indexOf_from (c : N) (s : jsstring) (i : nat) : option nat :=
  match s with
  | [] => None
  | x :: s' => if x =? c then Some i else indexOf_from c s' (S i)
  end.

(** [s.indexOf(c)] *)
Definition indexOf (c : N) (s : jsstring) : option nat := indexOf_from c s 0.

Fixpoint lastIndexOf_from (c : N) (s : jsstring) (i : nat) (acc : option nat)
  : option nat :=
  match s with
  | [] => acc
  | x :: s' => lastIndexOf_from c s' (S i) (if x =? c then Some i else acc)
  end.

(** [s.lastIndexOf(c)] *)
Definition lastIndexOf (c : N) (s : jsstring) : option nat :=
  lastIndexOf_from c s 0 None.

(** [s.includes(c)] *)
Definition includes (c : N) (s : jsstring) : bool := existsb (N.eqb c) s.

(** [s.split(c)]: the pieces between the occurrences of [c]; never empty. *)
Fixpoint split (c : N) (s : jsstring) : list jsstring :=
  match s with
  | [] => [[]]
  | x :: s' =>
      if x =? c then [] :: split c s'
      else match split c s' with
           | h :: t => (x :: h) :: t
           | [] => [[x]]
           end
  end.

(** [const [a, b] = xs]: the first element and, when there is one, the second. *)
Definition destructure2 (xs : list jsstring) : jsstring * option jsstring :=
  match xs with
  | [] => ([], None)
  | [a] => (a, None)
  | a :: b :: _ => (a, Some b)
  end.

(** [s.toLowerCase()], one code unit at a time.  The table covers ASCII and
    Latin-1 and the code units outside Latin-1 whose lower case lies (or
    starts) inside it; every other code unit is kept.  The sources compare
    lower-cased text with ASCII constants only, and on those comparisons
    the table agrees with the Unicode mapping. *)
Definition lowerUnit (c : N) : list N :=
  if (65 <=? c) && (c <=? 90) then [c + 32]
  else if (192 <=? c) && (c <=? 222) && negb (c =? 215) then [c + 32]
  else if c =? 304 then [105; 775]
  else if c =? 376 then [255]
  else if c =? 7838 then [223]
  else if c =? 8490 then [107]
  else if c =? 8491 then [229]
  else [c].

Definition toLowerCase (s : jsstring) : jsstring := flat_map lowerUnit s.

(** Template-literal conversion of a natural number, in decimal. *)
Definition ofNat (n : nat) : jsstring := js (pretty n).

(** *** [parseInt(s, 10)]

    Numbers are integers of [Z]; [None] stands for [NaN].  (The run time
    rounds integers beyond [2^53] to the nearest double; the order
    comparisons of the sources are not affected.) *)
Definition isDigit (c : N) : bool := (48 <=? c) && (c <=? 57).

Fixpoint digitsValue (acc : option Z) (s : jsstring) : option Z :=
  match s with
  | [] => acc
  | c :: s' =>
      if isDigit c
      then digitsValue (Some (10 * default 0%Z acc + Z.of_N (c - 48))%Z) s'
      else acc
  end.

Definition parseInt (s : jsstring) : option Z :=
  match trimStart s with
  | c :: r =>
      if c =? ch "-" then Z.opp <$> digitsValue None r
      else if c =? ch "+" then digitsValue None r
      else digitsValue None (c :: r)
  | [] => None
  end.

(** *** UTF-8 and UTF-16

    Both percent-decoders of the run time read escaped octets as UTF-8.
    One decoding step is shared: [utf8Lead] reads the first octet of a
    sequence, [utf8Cont] a continuation octet, with the bounds of the
    well-formed sequences (no overlong form, no surrogate, nothing above
    U+10FFFF). *)
Record utf8st := { cp : N; needed : nat; lower : N; upper : N }.

Inductive Utf8Step := Emit (c : N) | More (st : utf8st) | Bad.

Definition utf8Lead (b : N) : Utf8Step :=
  if b <=? 127 then Emit b
  else if (194 <=? b) && (b <=? 223)
  then More {| cp := N.land b 31; needed := 1; lower := 128; upper := 191 |}
  else if (224 <=? b) && (b <=? 239)
  then More {| cp := N.land b 15; needed := 2;
               lower := if b =? 224 then 160 else 128;
               upper := if b =? 237 then 159 else 191 |}
  else if (240 <=? b) && (b <=? 244)
  then More {| cp := N.land b 7; needed := 3;
               lower := if b =? 240 then 144 else 128;
               upper := if b =? 244 then 143 else 191 |}
  else Bad.

Definition utf8Cont (st : utf8st) (b : N) : Utf8Step :=
  if (lower st <=? b) && (b <=? upper st)
  then
    let c := N.lor (N.shiftl (cp st) 6) (N.land b 63) in
    match needed st with
    | O => Bad
    | S O => Emit c
    | S n => More {| cp := c; needed := n; lower := 128; upper := 191 |}
    end
  else Bad.

(** UTF16EncodeCodePoint *)
Definition utf16Encode (c : N) : list N :=
  if c <? 65536 then [c]
  else [55296 + (c - 65536) / 1024; 56320 + (c - 65536) mod 1024].

Definition isHighSurrogate (c : N) : bool := (55296 <=? c) && (c <=? 56319).
Definition isLowSurrogate (c : N) : bool := (56320 <=? c) && (c <=? 57343).

(** Code units to scalar values; a lone surrogate becomes U+FFFD. *)
Fixpoint toScalarValues (s : jsstring) : list N :=
  match s with
  | [] => []
  | h :: s' =>
      if isHighSurrogate h then
        match s' with
        | l :: s'' =>
            if isLowSurrogate l
            then (65536 + (h - 55296) * 1024 + (l - 56320)) :: toScalarValues s''
            else 65533 :: toScalarValues s'
        | [] => [65533]
        end
      else if isLowSurrogate h then 65533 :: toScalarValues s'
      else h :: toScalarValues s'
  end.

Definition utf8EncodeOne (c : N) : list N :=
  if c <? 128 then [c]
  else if c <? 2048 then [192 + c / 64; 128 + c mod 64]
  else if c <? 65536
  then [224 + c / 4096; 128 + (c / 64) mod 64; 128 + c mod 64]
  else [240 + c / 262144; 128 + (c / 4096) mod 64;
        128 + (c / 64) mod 64; 128 + c mod 64].

Definition utf8Encode (s : jsstring) : list N :=
  flat_map utf8EncodeOne (toScalarValues s).

(** The WHATWG UTF-8 decoder (no BOM handling): an ill-formed sequence
    yields U+FFFD and the offending octet is read again as a first octet. *)
Fixpoint utf8DecodeLossy (st : option utf8st) (bs : list N) : list N :=
  match bs with
  | [] => match st with Some _ => [65533] | None => [] end
  | b :: bs' =>
      let fromLead :=
        match utf8Lead b with
        | Emit c => c :: utf8DecodeLossy None bs'
        | More st' => utf8DecodeLossy (Some st') bs'
        | Bad => 65533 :: utf8DecodeLossy None bs'
        end in
      match st with
      | None => fromLead
      | Some s =>
          match utf8Cont s b with
          | Emit c => c :: utf8DecodeLossy None bs'
          | More st' => utf8DecodeLossy (Some st') bs'
          | Bad => 65533 :: fromLead
          end
      end
  end.

Definition utf8Decode (bs : list N) : jsstring :=
  flat_map utf16Encode (utf8DecodeLossy None bs).

Definition hexVal (c : N) : option N :=
  if (48 <=? c) && (c <=? 57) then Some (c - 48)
  else if (65 <=? c) && (c <=? 70) then Some (c - 55)
  else if (97 <=? c) && (c <=? 102) then Some (c - 87)
  else None.

(** *** [decodeURIComponent]

    [None] stands for the [URIError] that the run time throws.  The text is
    first cut into literal code units ([inl]) and escaped octets ([inr]); a
    [%] that two hexadecimal digits do not follow throws. *)
Fixpoint uriTokens (s : jsstring) : option (list (N + N)) :=
  match s with
  | [] => Some []
  | c :: s' =>
      if c =? ch "%" then
        match s' with
        | h1 :: h2 :: s'' =>
            match hexVal h1, hexVal h2 with
            | Some a, Some b => cons (inr (16 * a + b)) <$> uriTokens s''
            | _, _ => None
            end
        | _ => None
        end
      else cons (inl c) <$> uriTokens s'
  end.

(** An escaped octet below 128 is the character itself; a longer sequence
    must be well-formed UTF-8 made of escapes only. *)
Fixpoint uriDecode (st : option utf8st) (ts : list (N + N)) : option jsstring :=
  match ts with
  | [] => match st with None => Some [] | Some _ => None end
  | t :: ts' =>
      match st, t with
      | None, inl c => cons c <$> uriDecode None ts'
      | None, inr b =>
          match utf8Lead b with
          | Emit c => cons c <$> uriDecode None ts'
          | More st' => uriDecode (Some st') ts'
          | Bad => None
          end
      | Some s, inr b =>
          match utf8Cont s b with
          | Emit c => app (utf16Encode c) <$> uriDecode None ts'
          | More st' => uriDecode (Some st') ts'
          | Bad => None
          end
      | Some _, inl _ => None
      end
  end.

Definition decodeURIComponent (s : jsstring) : option jsstring :=
  uriTokens s ≫= uriDecode None.

(** The message of the [URIError] (the text of V8). *)
Definition URIError_message : jsstring := js "URI malformed".

(** *** [URLSearchParams]

    The application/x-www-form-urlencoded parser of the URL standard: the
    text is UTF-8 encoded and cut at [&]; each non-empty piece is cut at its
    first [=]; in name and value [+] becomes a space, escapes are decoded
    (a malformed escape is kept as it is) and the octets are read as
    UTF-8. *)
Fixpoint percentDecode (bs : list N) : list N :=
  match bs with
  | [] => []
  | b :: bs' =>
      if b =? ch "%" then
        match bs' with
        | h1 :: h2 :: bs'' =>
            match hexVal h1, hexVal h2 with
            | Some a, Some c => (16 * a + c) :: percentDecode bs''
            | _, _ => b :: percentDecode bs'
            end
        | _ => b :: percentDecode bs'
        end
      else b :: percentDecode bs'
  end.

Definition plusToSpace (bs : list N) : list N :=
  map (fun b => if b =? ch "+" then ch " " else b) bs.

Definition formDecode (bs : list N) : jsstring :=
  utf8Decode (percentDecode (plusToSpace bs)).

(** The name and the value of one piece: cut at the first [=]. *)
Fixpoint cutAtEq (bs : list N) : list N * list N :=
  match bs with
  | [] => ([], [])
  | b :: bs' =>
      if b =? ch "=" then ([], bs')
      else let '(n, v) := cutAtEq bs' in (b :: n, v)
  end.

Definition URLSearchParams (init : jsstring) : list (jsstring * jsstring) :=
  let init := if startsWith (js "?") init then sliceFrom 1 init else init in
  map (fun piece => let '(n, v) := cutAtEq piece in (formDecode n, formDecode v))
      (filter (fun piece => piece <> []) (split (ch "&") (utf8Encode init))).

(** [params.get(name)]: the value of the first pair of that name. *)
Fixpoint get (params : list (jsstring * jsstring)) (name : jsstring)
  : option jsstring :=
  match params with
  | [] => None
  | (n, v) :: rest => if jsstring_eqb n name then Some v else get rest name
  end.

End JS.

Import JS.

(** ** [lib/parsers/types.ts] *)

Module Types.

Record UtlsConfig := {
  utls_enabled : bool;
  fingerprint : jsstring
}.

Record RealityConfig := {
  reality_enabled : bool;
  public_key : jsstring;
  short_id : option jsstring
}.

(** An optional field of an interface is an [option]: [None] when the key
    is not set. *)
Record TlsConfig := {
  enabled : bool;
  server_name : option jsstring;
  insecure : option bool;
  alpn : option (list jsstring);
  utls : option UtlsConfig;
  reality : option RealityConfig
}.

(** [max_early_data] holds what [parseInt] returned, [NaN] included. *)
Record WsTransport := {
  ws_path : option jsstring;
  ws_headers : option (list (jsstring * jsstring));
  max_early_data : option (option Z);
  early_data_header_name : option jsstring
}.

Record GrpcTransport := { service_name : option jsstring }.

Record HttpTransport := {
  http_host : option (list jsstring);
  http_path : option jsstring
}.

(** The union [Transport], tagged by its [type] field. *)
Inductive Transport :=
| TcpT
| WsT (t : WsTransport)
| GrpcT (t : GrpcTransport)
| HttpT (t : HttpTransport)
| QuicT.

Record VlessOutbound := {
  type : jsstring;
  tag : jsstring;
  server : jsstring;
  server_port : Z;
  uuid : jsstring;
  flow : option jsstring;
  tls : option TlsConfig;
  transport : option Transport
}.

Record ParseResult := {
  success : bool;
  outbound : option VlessOutbound;
  error : option jsstring;
  originalLink : jsstring;
  lineNumber : nat
}.

Record ParseError := {
  pe_lineNumber : nat;
  pe_link : jsstring;
  pe_error : jsstring
}.

Record BatchParseResult := {
  outbounds : list VlessOutbound;
  errors : list ParseError;
  totalLinks : nat;
  successCount : nat;
  errorCount : nat
}.

(** Assignments to a field of an object that was built before. *)
Definition setTag (o : VlessOutbound) (t : jsstring) : VlessOutbound :=
  {| type := type o; tag := t; server := server o;
     server_port := server_port o; uuid := uuid o; flow := flow o;
     tls := tls o; transport := transport o |}.

Definition setFlow (o : VlessOutbound) (f : jsstring) : VlessOutbound :=
  {| type := type o; tag := tag o; server := server o;
     server_port := server_port o; uuid := uuid o; flow := Some f;
     tls := tls o; transport := transport o |}.

Definition setTls (o : VlessOutbound) (t : TlsConfig) : VlessOutbound :=
  {| type := type o; tag := tag o; server := server o;
     server_port := server_port o; uuid := uuid o; flow := flow o;
     tls := Some t; transport := transport o |}.

Definition setTransport (o : VlessOutbound) (t : Transport) : VlessOutbound :=
  {| type := type o; tag := tag o; server := server o;
     server_port := server_port o; uuid := uuid o; flow := flow o;
     tls := tls o; transport := Some t |}.

Definition setServerName (t : TlsConfig) (n : jsstring) : TlsConfig :=
  {| enabled := enabled t; server_name := Some n; insecure := insecure t;
     alpn := alpn t; utls := utls t; reality := reality t |}.

Definition setInsecure (t : TlsConfig) (b : bool) : TlsConfig :=
  {| enabled := enabled t; server_name := server_name t; insecure := Some b;
     alpn := alpn t; utls := utls t; reality := reality t |}.

Definition setAlpn (t : TlsConfig) (a : list jsstring) : TlsConfig :=
  {| enabled := enabled t; server_name := server_name t;
     insecure := insecure t; alpn := Some a; utls := utls t;
     reality := reality t |}.

Definition setUtls (t : TlsConfig) (u : UtlsConfig) : TlsConfig :=
  {| enabled := enabled t; server_name := server_name t;
     insecure := insecure t; alpn := alpn t; utls := Some u;
     reality := reality t |}.

Definition setReality (t : TlsConfig) (r : RealityConfig) : TlsConfig :=
  {| enabled := enabled t; server_name := server_name t;
     insecure := insecure t; alpn := alpn t; utls := utls t;
     reality := Some r |}.

End Types.

Import Types.

(** [xs.includes(x)] on an array of strings *)
Definition arrayIncludes (xs : list jsstring) (x : jsstring) : bool :=
  existsb (jsstring_eqb x) xs.

(** ** [lib/parsers/vless.ts] *)

Module Vless.

Definition VALID_TRANSPORTS : list jsstring :=
  [js "tcp"; js "ws"; js "grpc"; js "http"; js "quic"].
Definition VALID_SECURITY : list jsstring := [js "none"; js "tls"; js "reality"].
Definition VALID_FINGERPRINTS : list jsstring :=
  [js "chrome"; js "firefox"; js "edge"; js "safari"; js "360"; js "qq";
   js "ios"; js "android"; js "random"; js "randomized"].

(** [buildTransport(type, params)].  The outer [option] is [None] when
    [decodeURIComponent] throws; the inner one is the [undefined] of the
    [default] case. *)
Definition buildTransport (type : jsstring) (params : list (jsstring * jsstring))
  : option (option Transport) :=
  if jsstring_eqb type (js "ws") then
    path ← (match get params (js "path") with
            | Some (c :: r) => Some <$> decodeURIComponent (c :: r)
            | _ => Some None
            end);
    let headers :=
      match get params (js "host") with
      | Some (c :: r) => Some [(js "Host", c :: r)]
      | _ => None
      end in
    let ed := get params (js "ed") in
    Some (Some (WsT {|
      ws_path := path;
      ws_headers := headers;
      max_early_data :=
        if truthyOpt ed then Some (parseInt (default [] ed)) else None;
      early_data_header_name :=
        if truthyOpt ed then Some (js "Sec-WebSocket-Protocol") else None |}))
  else if jsstring_eqb type (js "grpc") then
    let serviceName := orOpt (get params (js "serviceName")) (get params (js "service")) in
    Some (Some (GrpcT {|
      service_name := if truthyOpt serviceName then serviceName else None |}))
  else if jsstring_eqb type (js "http") then
    path ← (match get params (js "path") with
            | Some (c :: r) => Some <$> decodeURIComponent (c :: r)
            | _ => Some None
            end);
    let host := get params (js "host") in
    Some (Some (HttpT {|
      http_host :=
        if truthyOpt host then Some (split (ch ",") (default [] host)) else None;
      http_path := path |}))
  else if jsstring_eqb type (js "quic") then Some (Some QuicT)
  else Some None.

(** A result that carries an error ([return { success: false, ... }]). *)
Definition failure (link : jsstring) (lineNumber : nat) (msg : jsstring)
  : ParseResult :=
  {| success := false; outbound := None; error := Some msg;
     originalLink := link; lineNumber := lineNumber |}.

(** Lines 104-142: the server and the port of [hostPort]; [inl] is the
    message of an early [return]. *)
Definition hostAndPort (hostPort : jsstring) : jsstring + (jsstring * option Z) :=
  if startsWith (js "[") hostPort then
    match indexOf (ch "]") hostPort with
    | None => inl (js "Invalid IPv6 address format")
    | Some bracketEnd =>
        let server := slice 1 bracketEnd hostPort in
        let portPart := sliceFrom (bracketEnd + 1) hostPort in
        if negb (startsWith (js ":") portPart)
        then inl (js "Missing port after IPv6 address")
        else inr (server, parseInt (sliceFrom 1 portPart))
    end
  else
    match lastIndexOf (ch ":") hostPort with
    | None => inl (js "Missing port")
    | Some colonIndex =>
        inr (slice 0 colonIndex hostPort,
             parseInt (sliceFrom (colonIndex + 1) hostPort))
    end.

(** Lines 192-259: the TLS block, entered when [security] is ["tls"] or
    ["reality"]; [inl] is the message of the early [return]. *)
Definition tlsFromParams (security server : jsstring)
    (params : list (jsstring * jsstring)) : jsstring + TlsConfig :=
  let tlsConfig :=
    {| enabled := true; server_name := None; insecure := None;
       alpn := None; utls := None; reality := None |} in
  let sni := orOpt (get params (js "sni")) (get params (js "serverName")) in
  let tlsConfig :=
    if truthyOpt sni then setServerName tlsConfig (default [] sni)
    else if jsstring_eqb security (js "tls") then setServerName tlsConfig server
    else tlsConfig in
  let fp := orOpt (get params (js "fp")) (get params (js "fingerprint")) in
  let tlsConfig :=
    if truthyOpt fp && arrayIncludes VALID_FINGERPRINTS (default [] fp)
    then setUtls tlsConfig
           {| utls_enabled := true; fingerprint := default [] fp |}
    else tlsConfig in
  let alpn := get params (js "alpn") in
  let tlsConfig :=
    if truthyOpt alpn then setAlpn tlsConfig (split (ch ",") (default [] alpn))
    else tlsConfig in
  let afterReality :=
    if jsstring_eqb security (js "reality") then
      let pbk := get params (js "pbk") in
      let sid := orElse (get params (js "sid")) [] in
      if negb (truthyOpt pbk) then inl (js "Reality requires public key (pbk)")
      else
        let tlsConfig :=
          setReality tlsConfig
            {| reality_enabled := true; public_key := default [] pbk;
               short_id := Some sid |} in
        inr (if negb (truthyOpt (server_name tlsConfig)) then
               let spx := get params (js "spx") in
               if truthyOpt spx then setServerName tlsConfig (default [] spx)
               else tlsConfig
             else tlsConfig)
    else inr tlsConfig in
  match afterReality with
  | inl msg => inl msg
  | inr tlsConfig =>
      let allowInsecure := get params (js "allowInsecure") in
      inr (if bool_decide (allowInsecure = Some (js "1"))
              || bool_decide (allowInsecure = Some (js "true"))
           then setInsecure tlsConfig true
           else tlsConfig)
  end.

(** [parseVlessLink(link, lineNumber, defaultTag?)] *)
Definition parseVlessLink (link : jsstring) (lineNumber : nat)
    (defaultTag : option jsstring) : ParseResult :=
  let fail := failure link lineNumber in
  let trimmedLink := trim link in
  if negb (truthy trimmedLink) then fail (js "Empty link")
  else if negb (startsWith (js "vless://") trimmedLink)
  then fail (js "Link must start with vless://")
  else
    (* try { ... } catch (error): the only thing that throws is
       decodeURIComponent *)
    let caught := fail (js "Parse error: " ++ URIError_message) in
    let withoutProtocol := sliceFrom 8 trimmedLink in
    let '(mainPart, fragment) := destructure2 (split (ch "#") withoutProtocol) in
    match (if truthyOpt fragment then decodeURIComponent (default [] fragment)
           else Some (orElse defaultTag (js "proxy-p" ++ ofNat lineNumber))) with
    | None => caught
    | Some tag =>
    match lastIndexOf (ch "@") mainPart with
    | None => fail (js "Invalid format: missing @ separator")
    | Some atIndex =>
    let uuid := slice 0 atIndex mainPart in
    let hostPortParams := sliceFrom (atIndex + 1) mainPart in
    if negb (truthy uuid) || (length uuid <? 32)%nat
    then fail (js "Invalid UUID format")
    else
    let '(hostPort, queryString) := destructure2 (split (ch "?") hostPortParams) in
    match hostAndPort hostPort with
    | inl msg => fail msg
    | inr (server, serverPort) =>
    if negb (truthy server) then fail (js "Missing server address")
    else
    match serverPort with
    | None => fail (js "Invalid port number")
    | Some port =>
    if ((port <? 1) || (port >? 65535))%Z then fail (js "Invalid port number")
    else
    let params := URLSearchParams (orElse queryString []) in
    let outbound :=
      {| type := js "vless"; tag := tag; server := server;
         server_port := port; uuid := uuid;
         flow := None; tls := None; transport := None |} in
    let flow := get params (js "flow") in
    let outbound :=
      if truthyOpt flow then setFlow outbound (default [] flow) else outbound in
    let security := orElse (get params (js "security")) (js "none") in
    if negb (arrayIncludes VALID_SECURITY security)
    then fail (js "Invalid security type: " ++ security)
    else
    match (if jsstring_eqb security (js "tls")
              || jsstring_eqb security (js "reality")
           then match tlsFromParams security server params with
                | inl msg => inl msg
                | inr tlsConfig => inr (setTls outbound tlsConfig)
                end
           else inr outbound) with
    | inl msg => fail msg
    | inr outbound =>
    let transportType := orElse (get params (js "type")) (js "tcp") in
    if negb (arrayIncludes VALID_TRANSPORTS transportType)
    then fail (js "Invalid transport type: " ++ transportType)
    else
    match (if negb (jsstring_eqb transportType (js "tcp"))
           then buildTransport transportType params
           else Some None) with
    | None => caught
    | Some transport =>
    let outbound :=
      match transport with
      | Some t => setTransport outbound t
      | None => outbound
      end in
    {| success := true; outbound := Some outbound; error := None;
       originalLink := link; lineNumber := lineNumber |}
    end end end end end end.

(** The intermediate values of [parseVlessLink], as functions of the link:
    [mainPart] and [fragment] (line 73), [hostPort] and [queryString]
    (line 101) of the text [hostPortParams] after the separator. *)
Definition mainPart (link : jsstring) : jsstring :=
  fst (destructure2 (split (ch "#") (sliceFrom 8 (trim link)))).

Definition fragment (link : jsstring) : option jsstring :=
  snd (destructure2 (split (ch "#") (sliceFrom 8 (trim link)))).

Definition hostPortOf (hostPortParams : jsstring) : jsstring :=
  fst (destructure2 (split (ch "?") hostPortParams)).

Definition queryStringOf (hostPortParams : jsstring) : option jsstring :=
  snd (destructure2 (split (ch "?") hostPortParams)).

(** Line 74 does not throw: there is no fragment, or it decodes. *)
Definition tagDecodes (link : jsstring) : bool :=
  if truthyOpt (fragment link)
  then bool_decide (is_Some (decodeURIComponent (default [] (fragment link))))
  else true.


(** The diagnostics of [parseVlessLink] that are fixed texts. *)
Definition fixedDiagnostics : list jsstring :=
  [js "Empty link"; js "Link must start with vless://";
   js "Parse error: " ++ URIError_message;
   js "Invalid format: missing @ separator"; js "Invalid UUID format";
   js "Invalid IPv6 address format"; js "Missing port after IPv6 address";
   js "Missing port"; js "Missing server address"; js "Invalid port number";
   js "Reality requires public key (pbk)"].

(** The diagnostics about the port. *)
Definition portDiagnostics : list jsstring :=
  [js "Missing port"; js "Missing port after IPv6 address";
   js "Invalid port number"].

End Vless.

Import Vless.


(** [parseVlessLinks(input)]: the batch parser of [vless.ts].  It numbers
    the lines of the input as they stand and counts what it pushed. *)
Module VlessBatch.

Fixpoint loop (lines : list jsstring) (lineNumber : nat)
    (outbounds : list VlessOutbound) (errors : list ParseError)
  : list VlessOutbound * list ParseError :=
  match lines with
  | [] => (outbounds, errors)
  | line :: rest =>
      let lineNumber := S lineNumber in
      let trimmed := trim line in
      if negb (truthy trimmed) || startsWith (js "#") trimmed
         || startsWith (js "//") trimmed
      then loop rest lineNumber outbounds errors
      else if negb (startsWith (js "vless://") trimmed)
      then loop rest lineNumber outbounds errors
      else
        let result := parseVlessLink trimmed lineNumber None in
        match success result, outbound result, error result with
        | true, Some o, _ => loop rest lineNumber (outbounds ++ [o]) errors
        | _, _, Some (c :: r) =>
            loop rest lineNumber outbounds
              (errors ++ [{| pe_lineNumber := lineNumber; pe_link := trimmed;
                             pe_error := c :: r |}])
        | _, _, _ => loop rest lineNumber outbounds errors
        end
  end.

Definition parseVlessLinks (input : jsstring) : BatchParseResult :=
  let lines := split (ch "010") input in
  let '(outbounds, errors) := loop lines 0 [] [] in
  {| outbounds := outbounds; errors := errors;
     totalLinks := length outbounds + length errors;
     successCount := length outbounds;
     errorCount := length errors |}.

End VlessBatch.

(** ** [lib/parsers/index.ts] *)

Module Parsers.

Inductive Protocol := vless | vmess | trojan | ss | hy2 | tuic.

(** The string that a value of [Protocol] is. *)
Definition protocolName (p : Protocol) : jsstring :=
  match p with
  | vless => js "vless" | vmess => js "vmess" | trojan => js "trojan"
  | ss => js "ss" | hy2 => js "hy2" | tuic => js "tuic"
  end.

Definition detectProtocol (link : jsstring) : option Protocol :=
  let trimmed := toLowerCase (trim link) in
  if startsWith (js "vless://") trimmed then Some vless
  else if startsWith (js "vmess://") trimmed then Some vmess
  else if startsWith (js "trojan://") trimmed then Some trojan
  else if startsWith (js "ss://") trimmed then Some ss
  else if startsWith (js "hy2://") trimmed
          || startsWith (js "hysteria2://") trimmed then Some hy2
  else if startsWith (js "tuic://") trimmed then Some tuic
  else None.

(** [parseProxyLink(link, lineNumber)].  The [default] branch of the
    [switch] ("Unknown protocol") has no value of [Protocol] to reach it. *)
Definition parseProxyLink (link : jsstring) (lineNumber : nat) : ParseResult :=
  match detectProtocol link with
  | None => failure link lineNumber (js "Unsupported or invalid protocol")
  | Some vless => parseVlessLink link lineNumber None
  | Some protocol =>
      failure link lineNumber
        (js "Protocol " ++ dquote ++ protocolName protocol ++ dquote
           ++ js " is not yet supported")
  end.

(** The state of the [for] loop of [parseProxyLinks]. *)
Record LoopState := {
  ls_outbounds : list VlessOutbound;
  ls_errors : list ParseError;
  proxyCounter : nat
}.

(** One iteration: the body of the loop at index [i] on [lines[i]]. *)
Definition loopBody (i : nat) (raw : jsstring) (st : LoopState) : LoopState :=
  let line := trim raw in
  if negb (truthy line) || startsWith (js "#") line || startsWith (js "//") line
  then st
  else
    let lineNumber := (i + 1)%nat in
    let result := parseProxyLink line lineNumber in
    match success result, outbound result with
    | true, Some o =>
        let o :=
          if startsWith (js "proxy-p") (tag o)
          then setTag o (js "proxy-p" ++ ofNat (proxyCounter st))
          else o in
        {| ls_outbounds := ls_outbounds st ++ [o];
           ls_errors := ls_errors st;
           proxyCounter := S (proxyCounter st) |}
    | _, _ =>
        {| ls_outbounds := ls_outbounds st;
           ls_errors := ls_errors st ++
             [{| pe_lineNumber := lineNumber;
                 pe_link := if (50 <? length line)%nat
                            then slice 0 50 line ++ js "..."
                            else line;
                 pe_error := orElse (error result) (js "Unknown error") |}];
           proxyCounter := proxyCounter st |}
    end.

(** [for (let i = 0; i < lines.length; i++)], started at index [i]. *)
Fixpoint loop (i : nat) (lines : list jsstring) (st : LoopState) : LoopState :=
  match lines with
  | [] => st
  | raw :: rest => loop (S i) rest (loopBody i raw st)
  end.

(** [(line) => line.trim()], read as a condition: the trimmed line is not
    empty. *)
Definition nonBlank (line : jsstring) : Prop := truthy (trim line) = true.

#[export] Instance nonBlank_dec (line : jsstring) : Decision (nonBlank line).
Proof. unfold nonBlank. apply _. Defined.

(** [text.split("\n").filter((line) => line.trim())] *)
Definition nonBlankLines (text : jsstring) : list jsstring :=
  filter nonBlank (split (ch "010") text).

Definition parseProxyLinks (text : jsstring) : BatchParseResult :=
  let lines := nonBlankLines text in
  let st := loop 0 lines
              {| ls_outbounds := []; ls_errors := []; proxyCounter := 1 |} in
  {| outbounds := ls_outbounds st; errors := ls_errors st;
     totalLinks := length lines;
     successCount := length (ls_outbounds st);
     errorCount := length (ls_errors st) |}.

(** The schemes that [detectProtocol] recognises and [parseProxyLink]
    rejects, with the protocol each one stands for. *)
Definition unimplementedSchemes : list (jsstring * Protocol) :=
  [(js "vmess://", vmess); (js "trojan://", trojan); (js "ss://", ss);
   (js "hy2://", hy2); (js "hysteria2://", hy2); (js "tuic://", tuic)].

(** The lines that the loop skips, and the comment lines among them. *)
Definition isComment (raw : jsstring) : bool :=
  startsWith (js "#") (trim raw) || startsWith (js "//") (trim raw).

Definition isSkipped (raw : jsstring) : bool :=
  negb (truthy (trim raw)) || startsWith (js "#") (trim raw)
  || startsWith (js "//") (trim raw).

(** [line.length > 50 ? line.slice(0, 50) + "..." : line] *)
Definition truncated (line : jsstring) : jsstring :=
  if (50 <? length line)%nat then slice 0 50 line ++ js "..." else line.

End Parsers.

Import Parsers.

(** ** [lib/parsers/amnezia.ts] *)

Module Amnezia.

Record XRayUser := {
  id : jsstring;
  encryption : option jsstring;
  user_flow : option jsstring
}.

Record XRayVnext := {
  address : jsstring;
  port : Z;
  users : list XRayUser
}.

Record XRayRealitySettings := {
  rs_fingerprint : option jsstring;
  publicKey : option jsstring;
  rs_serverName : option jsstring;
  shortId : option jsstring;
  spiderX : option jsstring
}.

Record XRayTlsSettings := {
  ts_serverName : option jsstring;
  ts_fingerprint : option jsstring;
  ts_alpn : option (list jsstring);
  allowInsecure : option bool
}.

Record XRayWsSettings := {
  xws_path : option jsstring;
  xws_headers : option (list (jsstring * jsstring))
}.

Record XRayGrpcSettings := {
  serviceName : option jsstring;
  multiMode : option bool
}.

Record XRayHttpSettings := {
  xh_path : option jsstring;
  xh_host : option (list jsstring)
}.

Record XRayStreamSettings := {
  network : option jsstring;
  security : option jsstring;
  realitySettings : option XRayRealitySettings;
  tlsSettings : option XRayTlsSettings;
  wsSettings : option XRayWsSettings;
  grpcSettings : option XRayGrpcSettings;
  httpSettings : option XRayHttpSettings
}.

Record XRaySettings := { vnext : option (list XRayVnext) }.

Record XRayOutbound := {
  protocol : jsstring;
  xray_tag : option jsstring;
  settings : option XRaySettings;
  streamSettings : option XRayStreamSettings
}.

Record XRayConfig := { xray_outbounds : option (list XRayOutbound) }.

Record AmneziaParseResult := {
  a_success : bool;
  a_outbounds : list VlessOutbound;
  a_errors : list jsstring
}.

Definition emptyTls : TlsConfig :=
  {| enabled := true; server_name := None; insecure := None;
     alpn := None; utls := None; reality := None |}.

(** [buildTlsConfig(stream)] *)
Definition buildTlsConfig (stream : XRayStreamSettings) : TlsConfig :=
  let tlsConfig := emptyTls in
  if bool_decide (security stream = Some (js "reality")) then
    match realitySettings stream with
    | Some reality =>
        let tlsConfig :=
          if truthyOpt (rs_serverName reality)
          then setServerName tlsConfig (default [] (rs_serverName reality))
          else tlsConfig in
        let tlsConfig :=
          if truthyOpt (rs_fingerprint reality)
          then setUtls tlsConfig
                 {| utls_enabled := true;
                    fingerprint := default [] (rs_fingerprint reality) |}
          else tlsConfig in
        if truthyOpt (publicKey reality)
        then setReality tlsConfig
               {| reality_enabled := true;
                  public_key := default [] (publicKey reality);
                  short_id := Some (orElse (shortId reality) []) |}
        else tlsConfig
    | None => tlsConfig
    end
  else if bool_decide (security stream = Some (js "tls")) then
    match tlsSettings stream with
    | Some tls =>
        let tlsConfig :=
          if truthyOpt (ts_serverName tls)
          then setServerName tlsConfig (default [] (ts_serverName tls))
          else tlsConfig in
        let tlsConfig :=
          if truthyOpt (ts_fingerprint tls)
          then setUtls tlsConfig
                 {| utls_enabled := true;
                    fingerprint := default [] (ts_fingerprint tls) |}
          else tlsConfig in
        let tlsConfig :=
          match ts_alpn tls with
          | Some (a :: r) => setAlpn tlsConfig (a :: r)
          | _ => tlsConfig
          end in
        if default false (allowInsecure tls)
        then setInsecure tlsConfig true
        else tlsConfig
    | None => tlsConfig
    end
  else tlsConfig.

(** [buildTransport(network, stream)]; [None] is [undefined]. *)
Definition buildTransport (network : jsstring) (stream : XRayStreamSettings)
  : option Transport :=
  if jsstring_eqb network (js "ws") then
    let ws := wsSettings stream in
    Some (WsT {|
      ws_path :=
        let p := ws ≫= xws_path in if truthyOpt p then p else None;
      ws_headers := ws ≫= xws_headers;
      max_early_data := None;
      early_data_header_name := None |})
  else if jsstring_eqb network (js "grpc") then
    let grpc := grpcSettings stream in
    Some (GrpcT {|
      service_name :=
        let n := grpc ≫= serviceName in if truthyOpt n then n else None |})
  else if jsstring_eqb network (js "http") || jsstring_eqb network (js "h2") then
    let http := httpSettings stream in
    Some (HttpT {|
      http_host :=
        match http ≫= xh_host with
        | Some (h :: r) => Some (h :: r)
        | _ => None
        end;
      http_path :=
        let p := http ≫= xh_path in if truthyOpt p then p else None |})
  else if jsstring_eqb network (js "quic") then Some QuicT
  else None.

(** [convertXRayToSingbox(xray, index)]; [inl] is the message of the
    [Error] that is thrown. *)
Definition convertXRayToSingbox (xray : XRayOutbound) (index : nat)
  : jsstring + VlessOutbound :=
  match (s ← settings xray; v ← vnext s; head v) with
  | None => inl (js "No vnext configuration found")
  | Some vnext =>
      match head (users vnext) with
      | None => inl (js "No user configuration found")
      | Some user =>
          let stream := streamSettings xray in
          let tag := orElse (xray_tag xray) (js "proxy-p" ++ ofNat index) in
          let outbound :=
            {| type := js "vless"; tag := tag; server := address vnext;
               server_port := port vnext; uuid := id user;
               flow := None; tls := None; transport := None |} in
          let outbound :=
            if truthyOpt (user_flow user)
            then setFlow outbound (default [] (user_flow user))
            else outbound in
          inr match stream with
              | Some stream =>
                  let outbound :=
                    if bool_decide (security stream = Some (js "tls"))
                       || bool_decide (security stream = Some (js "reality"))
                    then setTls outbound (buildTlsConfig stream)
                    else outbound in
                  let network := orElse (network stream) (js "tcp") in
                  if negb (jsstring_eqb network (js "tcp")) then
                    match buildTransport network stream with
                    | Some transport => setTransport outbound transport
                    | None => outbound
                    end
                  else outbound
              | None => outbound
              end
      end
  end.

(** The [for] loop of [parseAmneziaConfig] over [config.outbounds]. *)
Fixpoint loop (i : nat) (xs : list XRayOutbound) (proxyCounter : nat)
    (outbounds : list VlessOutbound) (errors : list jsstring)
  : list VlessOutbound * list jsstring :=
  match xs with
  | [] => (outbounds, errors)
  | xrayOutbound :: rest =>
      if negb (jsstring_eqb (protocol xrayOutbound) (js "vless")) then
        loop (S i) rest proxyCounter outbounds
          (errors ++ [js "Outbound " ++ ofNat (i + 1) ++ js ": protocol "
                      ++ dquote ++ protocol xrayOutbound ++ dquote
                      ++ js " not supported, skipping"])
      else
        match convertXRayToSingbox xrayOutbound proxyCounter with
        | inr singboxOutbound =>
            loop (S i) rest (S proxyCounter) (outbounds ++ [singboxOutbound])
              errors
        | inl message =>
            loop (S i) rest proxyCounter outbounds
              (errors ++ [js "Outbound " ++ ofNat (i + 1) ++ js ": " ++ message])
        end
  end.

Section WithJSON.

(** [JSON.parse], read at the type [XRayConfig] that the source gives its
    result; [inl] is the message of the [SyntaxError]. *)
Variable JSON_parse : jsstring -> jsstring + XRayConfig.

Definition parseAmneziaConfig (jsonText : jsstring) : AmneziaParseResult :=
  match JSON_parse jsonText with
  | inl message =>
      {| a_success := false; a_outbounds := [];
         a_errors := [js "Invalid JSON: " ++ message] |}
  | inr config =>
      match xray_outbounds config with
      | None =>
          {| a_success := false; a_outbounds := [];
             a_errors := [js "No outbounds array found in config"] |}
      | Some xs =>
          let '(outbounds, errors) := loop 0 xs 1 [] [] in
          {| a_success := (0 <? length outbounds)%nat;
             a_outbounds := outbounds; a_errors := errors |}
      end
  end.

End WithJSON.

End Amnezia.

(** ** [lib/parsers/awg.ts] *)

Module Awg.

Record AwgPeer := {
  peer_address : jsstring;
  peer_port : Z;
  peer_public_key : jsstring;
  preshared_key : option jsstring;
  allowed_ips : list jsstring;
  persistent_keepalive_interval : option Z
}.

Record AwgEndpoint := {
  ep_type : jsstring;
  ep_tag : jsstring;
  useIntegratedTun : option bool;
  private_key : jsstring;
  ep_address : list jsstring;
  mtu : option Z;
  listen_port : option Z;
  jc : option Z; jmin : option Z; jmax : option Z;
  s1 : option Z; s2 : option Z; s3 : option Z; s4 : option Z;
  h1 : option jsstring; h2 : option jsstring;
  h3 : option jsstring; h4 : option jsstring;
  i1 : option jsstring; i2 : option jsstring; i3 : option jsstring;
  i4 : option jsstring; i5 : option jsstring;
  peers : list AwgPeer
}.

Record AwgParseResult := {
  success : bool;
  endpoint : option AwgEndpoint;
  errors : list jsstring
}.

(** [ParsedSection]: an object used as a map from keys to values. *)
Abbreviation ParsedSection := (gmap jsstring jsstring).

(** [section[key] = value] on an object literal.  Assigning a string to
    [__proto__] runs the setter of [Object.prototype], which ignores it:
    no property is created. *)
Definition setProp (key value : jsstring) (section : ParsedSection)
  : ParsedSection :=
  if jsstring_eqb key (js "__proto__") then section
  else <[key := value]> section.

(** [Object.keys(section).length] *)
Definition keysLength (section : ParsedSection) : nat := size section.

(** [value.match(/<([^>]+)>/)]: the capture of the first match. *)
Fixpoint matchAngle (s : jsstring) : option jsstring :=
  match s with
  | [] => None
  | c :: s' =>
      if c =? ch "<" then
        let run := takeWhile (fun x => negb (x =? ch ">")) s' in
        if truthy run && truthy (drop (length run) s') then Some run
        else matchAngle s'
      else matchAngle s'
  end.

(** [parseLine(line)] *)
Definition parseLine (line : jsstring) : option (jsstring * jsstring) :=
  let trimmed := trim line in
  if negb (truthy trimmed) || startsWith (js "#") trimmed
     || startsWith (js "//") trimmed
  then None
  else
    match indexOf (ch "=") trimmed with
    | None => None
    | Some eqIndex =>
        let key := trim (slice 0 eqIndex trimmed) in
        let value := trim (sliceFrom (eqIndex + 1) trimmed) in
        let value :=
          if startsWith (js "<") value && includes (ch ">") value then
            match matchAngle value with
            | Some m => trim m
            | None => value
            end
          else value in
        Some (key, value)
    end.

(** The values of [currentSection]: "none", "interface", "peer". *)
Inductive Section_ := InNone | InInterface | InPeer.

Definition Section_eqb (a b : Section_) : bool :=
  match a, b with
  | InNone, InNone | InInterface, InInterface | InPeer, InPeer => true
  | _, _ => false
  end.

Record Sections := {
  sec_interface : ParsedSection;
  sec_peers : list ParsedSection
}.

(** The state of the loop of [parseSections]. *)
Record SectionsState := {
  result : Sections;
  currentSection : Section_;
  currentPeer : ParsedSection
}.

(** One iteration of [for (const line of lines)]. *)
Definition sectionsStep (st : SectionsState) (line : jsstring) : SectionsState :=
  let trimmed := trim line in
  if jsstring_eqb (toLowerCase trimmed) (js "[interface]") then
    {| result := result st; currentSection := InInterface;
       currentPeer := currentPeer st |}
  else if jsstring_eqb (toLowerCase trimmed) (js "[peer]") then
    {| result :=
         if Section_eqb (currentSection st) InPeer
            && (0 <? keysLength (currentPeer st))%nat
         then {| sec_interface := sec_interface (result st);
                 sec_peers := sec_peers (result st) ++ [currentPeer st] |}
         else result st;
       currentSection := InPeer;
       currentPeer := ∅ |}
  else
    match parseLine trimmed with
    | None => st
    | Some (key, value) =>
        let keyLower := toLowerCase key in
        match currentSection st with
        | InInterface =>
            {| result :=
                 {| sec_interface :=
                      setProp keyLower value (sec_interface (result st));
                    sec_peers := sec_peers (result st) |};
               currentSection := currentSection st;
               currentPeer := currentPeer st |}
        | InPeer =>
            {| result := result st;
               currentSection := currentSection st;
               currentPeer := setProp keyLower value (currentPeer st) |}
        | InNone => st
        end
    end.

(** [content.replace(/^\ufeff/, '')]: a leading byte-order mark is dropped. *)
Definition stripBOM (s : jsstring) : jsstring :=
  match s with
  | c :: s' => if c =? 65279 then s' else s
  | [] => []
  end.

(** [.replace(/\r\n/g, '\n')] *)
Fixpoint replaceCRLF (s : jsstring) : jsstring :=
  match s with
  | [] => []
  | c :: s' =>
      match s' with
      | d :: s'' =>
          if (c =? 13) && (d =? 10) then 10 :: replaceCRLF s''
          else c :: replaceCRLF s'
      | [] => [c]
      end
  end.

(** [.replace(/\r/g, '\n')] *)
Definition replaceCR (s : jsstring) : jsstring :=
  map (fun c => if c =? 13 then 10 else c) s.

(** The lines that [parseSections] reads. *)
Definition cleanLines (content : jsstring) : list jsstring :=
  split (ch "010") (replaceCR (replaceCRLF (stripBOM content))).

(** [parseSections(content)] *)
Definition parseSections (content : jsstring) : Sections :=
  let st :=
    fold_left sectionsStep (cleanLines content)
      {| result := {| sec_interface := ∅; sec_peers := [] |};
         currentSection := InNone; currentPeer := ∅ |} in
  if Section_eqb (currentSection st) InPeer
     && (0 <? keysLength (currentPeer st))%nat
  then {| sec_interface := sec_interface (result st);
          sec_peers := sec_peers (result st) ++ [currentPeer st] |}
  else result st.

(** The match of [/^\[([^\]]+)\]:(\d+)$/]: the two captures. *)
Definition matchBracketed (s : jsstring) : option (jsstring * jsstring) :=
  match s with
  | c :: r =>
      if c =? ch "[" then
        let host := takeWhile (fun x => negb (x =? ch "]")) r in
        match drop (length host) r with
        | b :: k :: digits =>
            if truthy host && (b =? ch "]") && (k =? ch ":")
               && truthy digits && forallb isDigit digits
            then Some (host, digits)
            else None
        | _ => None
        end
      else None
  | [] => None
  end.

(** [parseEndpoint(endpoint)] *)
Definition parseEndpoint (endpoint : jsstring) : option (jsstring * Z) :=
  match matchBracketed endpoint with
  | Some (host, digits) =>
      (* the digits always parse; [NaN] would be kept as the port *)
      Some (host, default 0%Z (parseInt digits))
  | None =>
      match lastIndexOf (ch ":") endpoint with
      | None => None
      | Some lastColon =>
          let address := slice 0 lastColon endpoint in
          match parseInt (sliceFrom (lastColon + 1) endpoint) with
          | None => None
          | Some port => Some (address, port)
          end
      end
  end.

(** [normalizeAddress(addr)] *)
Definition normalizeAddress (addr : jsstring) : jsstring :=
  let trimmed := trim addr in
  if includes (ch "/") trimmed then trimmed
  else if includes (ch ":") trimmed then trimmed ++ js "/128"
  else trimmed ++ js "/32".

(** [parseCommaSeparated(value)] *)
Definition parseCommaSeparated (value : jsstring) : list jsstring :=
  filter (fun s => (0 < length s)%nat) (map trim (split (ch ",") value)).

(** [if (section.key)]: the value of a key when it is set and not empty. *)
Definition prop (section : ParsedSection) (key : string) : option jsstring :=
  match section !! js key with
  | Some (c :: r) => Some (c :: r)
  | _ => None
  end.

(** [if (section.key) { const n = parseInt(section.key, 10);
    if (!isNaN(n)) ... = n }] *)
Definition intProp (section : ParsedSection) (key : string) : option Z :=
  prop section key ≫= parseInt.

(** One iteration of the loop over [sections.peers]: the peer that is
    pushed, or the diagnostic. *)
Definition parsePeer (i : nat) (peerData : ParsedSection) : jsstring + AwgPeer :=
  match prop peerData "publickey" with
  | None => inl (js "Peer " ++ ofNat (i + 1) ++ js ": PublicKey is required")
  | Some publickey =>
      match prop peerData "endpoint" with
      | None => inl (js "Peer " ++ ofNat (i + 1) ++ js ": Endpoint is required")
      | Some endpoint =>
          match parseEndpoint endpoint with
          | None =>
              inl (js "Peer " ++ ofNat (i + 1) ++ js ": Invalid Endpoint format")
          | Some (address, port) =>
              inr {| peer_address := address;
                     peer_port := port;
                     peer_public_key := publickey;
                     preshared_key := prop peerData "presharedkey";
                     allowed_ips :=
                       match prop peerData "allowedips" with
                       | Some ips => parseCommaSeparated ips
                       | None => []
                       end;
                     persistent_keepalive_interval :=
                       intProp peerData "persistentkeepalive" |}
          end
      end
  end.

Fixpoint peersLoop (i : nat) (ps : list ParsedSection)
    (peers : list AwgPeer) (errors : list jsstring)
  : list AwgPeer * list jsstring :=
  match ps with
  | [] => (peers, errors)
  | peerData :: rest =>
      match parsePeer i peerData with
      | inl message => peersLoop (S i) rest peers (errors ++ [message])
      | inr peer => peersLoop (S i) rest (peers ++ [peer]) errors
      end
  end.

(** [parseAwgConfig(confContent)] *)
Definition parseAwgConfig (confContent : jsstring) : AwgParseResult :=
  let sections := parseSections confContent in
  if (keysLength (sec_interface sections) =? 0)%nat then
    {| success := false; endpoint := None;
       errors := [js "No [Interface] section found"] |}
  else
    let iface := sec_interface sections in
    match prop iface "privatekey" with
    | None =>
        {| success := false; endpoint := None;
           errors := [js "PrivateKey is required in [Interface] section"] |}
    | Some privatekey =>
        if (length (sec_peers sections) =? 0)%nat then
          {| success := false; endpoint := None;
             errors := [js "No [Peer] section found"] |}
        else
          let '(peers, errors) := peersLoop 0 (sec_peers sections) [] [] in
          let endpoint :=
            {| ep_type := js "awg";
               ep_tag := js "awg-endpoint";
               useIntegratedTun := Some false;
               private_key := privatekey;
               ep_address :=
                 match prop iface "address" with
                 | Some a => map normalizeAddress (parseCommaSeparated a)
                 | None => []
                 end;
               mtu := intProp iface "mtu";
               listen_port := intProp iface "listenport";
               jc := intProp iface "jc";
               jmin := intProp iface "jmin";
               jmax := intProp iface "jmax";
               s1 := intProp iface "s1"; s2 := intProp iface "s2";
               s3 := intProp iface "s3"; s4 := intProp iface "s4";
               h1 := prop iface "h1"; h2 := prop iface "h2";
               h3 := prop iface "h3"; h4 := prop iface "h4";
               i1 := prop iface "i1"; i2 := prop iface "i2";
               i3 := prop iface "i3"; i4 := prop iface "i4";
               i5 := prop iface "i5";
               peers := peers |} in
          if (length peers =? 0)%nat then
            {| success := false; endpoint := None;
               errors := match errors with
                         | [] => [js "No valid peers found"]
                         | _ => errors
                         end |}
          else {| success := true; endpoint := Some endpoint; errors := errors |}
    end.

(** The document has a line that is the section header [header]
    (["[interface]"] or ["[peer]"]), as [parseSections] tests it. *)
Definition hasHeader (header : string) (content : jsstring) : bool :=
  existsb (fun line => jsstring_eqb (toLowerCase (trim line)) (js header))
          (cleanLines content).

(** The document has a [key = value] line whose key, in lower case, is
    [key]. *)
Definition hasKey (key : string) (content : jsstring) : bool :=
  existsb (fun line =>
             match parseLine (trim line) with
             | Some (k, _) => jsstring_eqb (toLowerCase k) (js key)
             | None => false
             end)
          (cleanLines content).

End Awg.

(** ** [lib/builder.ts] *)

Module Builder.

(** The values of the extra keys of an [Outbound] ([unknown]). *)
#[warnings="-register-all"]
Inductive json :=
| JNull
| JBool (b : bool)
| JNum (n : Z)
| JStr (s : jsstring)
| JArr (xs : list json)
| JObj (kvs : list (jsstring * json)).

(** [Outbound]: [type], [tag] and any further keys, in the order in which
    they are written. *)
Record Outbound := {
  type : jsstring;
  tag : jsstring;
  extra : list (jsstring * json)
}.

(** [AwgEndpointConfig] has the fields of [AwgEndpoint]. *)
Abbreviation AwgEndpointConfig := Awg.AwgEndpoint.

Inductive DnsPreset := google | cloudflare | adguard.
Inductive InboundPreset := tun | mixed | full.

(** An entry of a preset table. *)
Record Preset (C : Type) := {
  label : jsstring;
  desc : jsstring;
  config : C
}.
Arguments label {C} _.
Arguments desc {C} _.
Arguments config {C} _.

Record Log := { level : jsstring; timestamp : bool }.
Record CacheFile := { cf_enabled : bool; path : jsstring }.
Record ClashApi := {
  external_controller : jsstring;
  external_ui : jsstring;
  secret : jsstring
}.
Record Experimental := { cache_file : CacheFile; clash_api : ClashApi }.
Record Rule := { ip_is_private : option bool; rule_outbound : jsstring }.
Record Route := {
  default_domain_resolver : jsstring;
  auto_detect_interface : bool;
  final : jsstring;
  rules : list Rule
}.

Section WithPresets.

(** The preset tables of [templates/dns.ts] and [templates/inbounds.ts],
    with the types of their fragments. *)
Variables DnsConfig InboundConfig : Type.
Variable dnsPresets : DnsPreset -> Preset DnsConfig.
Variable inboundPresets : InboundPreset -> Preset (list InboundConfig).

(** [SingBoxConfig]; the key [endpoints] is optional. *)
Record SingBoxConfig := {
  log : Log;
  experimental : Experimental;
  dns : DnsConfig;
  inbounds : list InboundConfig;
  endpoints : option (list AwgEndpointConfig);
  outbounds : list Outbound;
  route : Route
}.

Record BuildOptions := {
  opt_outbounds : list Outbound;
  opt_endpoints : option (list AwgEndpointConfig);
  dnsPreset : DnsPreset;
  inboundPreset : InboundPreset
}.

(** [config.endpoints = eps] *)
Definition setEndpoints (config : SingBoxConfig) (eps : list AwgEndpointConfig)
  : SingBoxConfig :=
  {| log := log config; experimental := experimental config;
     dns := dns config; inbounds := inbounds config;
     endpoints := Some eps;
     outbounds := outbounds config; route := route config |}.

Definition buildConfig (options : BuildOptions) : SingBoxConfig :=
  let outbounds := opt_outbounds options in
  let endpoints := default [] (opt_endpoints options) in
  let allTags := map tag outbounds ++ map Awg.ep_tag endpoints in
  let systemOutbounds :=
    [ {| type := js "selector"; tag := js "proxy";
         extra :=
           [ (js "outbounds",
              JArr (map JStr (if (0 <? length allTags)%nat
                              then js "auto" :: allTags
                              else [js "direct"])));
             (js "default",
              JStr (if (0 <? length allTags)%nat
                    then js "auto" else js "direct")) ] |} ]
    ++ (if (0 <? length allTags)%nat
        then [ {| type := js "urltest"; tag := js "auto";
                  extra :=
                    [ (js "outbounds", JArr (map JStr allTags));
                      (js "url", JStr (js "https://www.gstatic.com/generate_204"));
                      (js "interval", JStr (js "5m"));
                      (js "tolerance", JNum 50) ] |} ]
        else [])
    ++ [ {| type := js "direct"; tag := js "direct"; extra := [] |} ] in
  let config :=
    {| log := {| level := js "info"; timestamp := true |};
       experimental :=
         {| cache_file := {| cf_enabled := true; path := js "cache.db" |};
            clash_api :=
              {| external_controller := js "127.0.0.1:9090";
                 external_ui := js "ui";
                 secret := [] |} |};
       dns := config (dnsPresets (dnsPreset options));
       inbounds := config (inboundPresets (inboundPreset options));
       endpoints := None;
       outbounds := outbounds ++ systemOutbounds;
       route :=
         {| default_domain_resolver := js "local";
            auto_detect_interface := true;
            final := js "proxy";
            rules := [ {| ip_is_private := Some true;
                          rule_outbound := js "direct" |} ] |} |} in
  if (0 <? length endpoints)%nat then setEndpoints config endpoints
  else config.

End WithPresets.

Arguments buildConfig {DnsConfig InboundConfig} _ _ _.
Arguments endpoints {DnsConfig InboundConfig} _.
Arguments outbounds {DnsConfig InboundConfig} _.

End Builder.

(** ** [stores/config.ts] *)

Module Store.

(** The data of [ConfigState]; its functions are the definitions below,
    each one the update that the function hands to [set]. *)
Record ConfigState := {
  outbounds : list Builder.Outbound;
  endpoints : list Builder.AwgEndpointConfig;
  dnsPreset : Builder.DnsPreset;
  inboundPreset : Builder.InboundPreset;
  step : Z
}.

(** The state that [create] starts from. *)
Definition initial : ConfigState :=
  {| outbounds := []; endpoints := [];
     dnsPreset := Builder.google; inboundPreset := Builder.tun; step := 1 |}.

Definition setOutbounds (os : list Builder.Outbound) (s : ConfigState)
  : ConfigState :=
  {| outbounds := os; endpoints := endpoints s; dnsPreset := dnsPreset s;
     inboundPreset := inboundPreset s; step := step s |}.

Definition clearOutbounds (s : ConfigState) : ConfigState := setOutbounds [] s.

Definition setEndpoints (eps : list Builder.AwgEndpointConfig) (s : ConfigState)
  : ConfigState :=
  {| outbounds := outbounds s; endpoints := eps; dnsPreset := dnsPreset s;
     inboundPreset := inboundPreset s; step := step s |}.

Definition clearEndpoints (s : ConfigState) : ConfigState := setEndpoints [] s.

Definition setDnsPreset (d : Builder.DnsPreset) (s : ConfigState) : ConfigState :=
  {| outbounds := outbounds s; endpoints := endpoints s; dnsPreset := d;
     inboundPreset := inboundPreset s; step := step s |}.

Definition setInboundPreset (i : Builder.InboundPreset) (s : ConfigState)
  : ConfigState :=
  {| outbounds := outbounds s; endpoints := endpoints s;
     dnsPreset := dnsPreset s; inboundPreset := i; step := step s |}.

Definition setStep (n : Z) (s : ConfigState) : ConfigState :=
  {| outbounds := outbounds s; endpoints := endpoints s;
     dnsPreset := dnsPreset s; inboundPreset := inboundPreset s; step := n |}.

(** [Math.min(state.step + 1, 3)] *)
Definition nextStep (s : ConfigState) : ConfigState :=
  setStep (Z.min (step s + 1) 3) s.

(** [Math.max(state.step - 1, 1)] *)
Definition prevStep (s : ConfigState) : ConfigState :=
  setStep (Z.max (step s - 1) 1) s.


(** A call of one of the functions of the store, and a sequence of calls. *)
Inductive Call :=
| SetOutbounds (os : list Builder.Outbound)
| ClearOutbounds
| SetEndpoints (eps : list Builder.AwgEndpointConfig)
| ClearEndpoints
| SetDnsPreset (d : Builder.DnsPreset)
| SetInboundPreset (i : Builder.InboundPreset)
| SetStep (n : Z)
| NextStep
| PrevStep.

Definition call (s : ConfigState) (c : Call) : ConfigState :=
  match c with
  | SetOutbounds os => setOutbounds os s
  | ClearOutbounds => clearOutbounds s
  | SetEndpoints eps => setEndpoints eps s
  | ClearEndpoints => clearEndpoints s
  | SetDnsPreset d => setDnsPreset d s
  | SetInboundPreset i => setInboundPreset i s
  | SetStep n => setStep n s
  | NextStep => nextStep s
  | PrevStep => prevStep s
  end.

Definition calls (s : ConfigState) (cs : list Call) : ConfigState :=
  fold_left call cs s.

(** The calls of the components set the step to 1 only ([handleReset]). *)
Definition stepInRange (c : Call) : Prop :=
  match c with
  | SetStep n => (1 <= n <= 3)%Z
  | _ => True
  end.

End Store.

(** ** The parts of a link *)

Module LinkParts.

(** The values that [parseVlessLink] computes after the separator, as
    functions of the link: [hostPortParams] (line 88), [params] (line 163),
    [security] (line 181) and [transportType] (line 263). *)
Definition hostPortParamsOf (link : jsstring) : jsstring :=
  match lastIndexOf (ch "@") (mainPart link) with
  | Some atIndex => sliceFrom (atIndex + 1) (mainPart link)
  | None => []
  end.

Definition paramsOf (link : jsstring) : list (jsstring * jsstring) :=
  URLSearchParams (orElse (queryStringOf (hostPortParamsOf link)) []).

Definition securityOf (link : jsstring) : jsstring :=
  orElse (get (paramsOf link) (js "security")) (js "none").

Definition transportTypeOf (link : jsstring) : jsstring :=
  orElse (get (paramsOf link) (js "type")) (js "tcp").

(** The tag of line 74. *)
Definition tagOf (link : jsstring) (lineNumber : nat)
    (defaultTag : option jsstring) : option jsstring :=
  if truthyOpt (fragment link)
  then decodeURIComponent (default [] (fragment link))
  else Some (orElse defaultTag (js "proxy-p" ++ ofNat lineNumber)).

(** The [type] of a transport object. *)
Definition transportKind (t : Transport) : jsstring :=
  match t with
  | TcpT => js "tcp" | WsT _ => js "ws" | GrpcT _ => js "grpc"
  | HttpT _ => js "http" | QuicT => js "quic"
  end.

End LinkParts.

Import LinkParts.

(** ** The loop of [parseProxyLinks] *)

Module BatchFacts.

(** The outbound that one iteration pushes. *)
Definition retagged (counter : nat) (o : VlessOutbound) : VlessOutbound :=
  if startsWith (js "proxy-p") (tag o)
  then setTag o (js "proxy-p" ++ ofNat counter) else o.

(** What the loop keeps true of its state. *)
Definition loopInv (i : nat) (st : LoopState) : Prop :=
  proxyCounter st = S (length (ls_outbounds st)) /\
  (forall k o, ls_outbounds st !! k = Some o ->
     (startsWith (js "proxy-p") (tag o) = true ->
      tag o = js "proxy-p" ++ ofNat (S k)) /\
     type o = js "vless" /\ (32 <= length (uuid o))%nat /\
     server o <> [] /\ (1 <= server_port o <= 65535)%Z) /\
  (forall e, e ∈ ls_errors st -> (1 <= pe_lineNumber e <= i)%nat) /\
  (forall a b ea eb,
     ls_errors st !! a = Some ea -> ls_errors st !! b = Some eb ->
     (a < b)%nat -> (pe_lineNumber ea < pe_lineNumber eb)%nat).

End BatchFacts.

Import BatchFacts.

(** ** What the outbounds of the builder refer to *)

Module BuilderRefs.
Import Builder.

(** The tags that a selector or urltest lists under [outbounds]. *)
Definition offered (o : Outbound) : list jsstring :=
  match o with
  | {| extra := (k, JArr xs) :: _ |} =>
      if jsstring_eqb k (js "outbounds")
      then omap (fun x => match x with JStr s => Some s | _ => None end) xs
      else []
  | _ => []
  end.

(** The tag under [default] of a selector. *)
Definition defaultOf (o : Outbound) : option jsstring :=
  match o with
  | {| extra := [_; (k, JStr d)] |} =>
      if jsstring_eqb k (js "default") then Some d else None
  | _ => None
  end.

(** The tags that the builder gives to its own outbounds. *)
Definition reserved (anyTag : bool) : list jsstring :=
  js "proxy" :: (if anyTag then [js "auto"] else []) ++ [js "direct"].

End BuilderRefs.

(** ** Sample inputs *)

Module Samples.

Definition uuid1 : jsstring := js "11111111-1111-1111-1111-111111111111".

(** A well-formed link. *)
Definition link_plain : jsstring :=
  js "vless://" ++ uuid1 ++ js "@example.com:443".


(** No [@] at all. *)
Definition link_without_at : jsstring :=
  js "vless://" ++ uuid1 ++ js "example.com:443".

(** A reality link without [pbk]. *)
Definition link_reality_no_pbk : jsstring :=
  js "vless://" ++ uuid1 ++ js "@example.com:443?security=reality&sni=example.com".

(** The XRay document
    [{"outbounds": [{"protocol": "vless",
        "settings": {"vnext": [{"address": "example.com", "port": 443,
                                "users": [{"id": uuid1}]}]},
        "streamSettings": {"network": "tcp", "security": "reality",
           "realitySettings": {"serverName": "example.com"}}}]}],
    as [JSON.parse] returns it: reality security, no [publicKey]. *)
Definition config_reality_no_key : Amnezia.XRayConfig :=
  {| Amnezia.xray_outbounds := Some
       [ {| Amnezia.protocol := js "vless";
            Amnezia.xray_tag := None;
            Amnezia.settings := Some
              {| Amnezia.vnext := Some
                   [ {| Amnezia.address := js "example.com";
                        Amnezia.port := 443;
                        Amnezia.users :=
                          [ {| Amnezia.id := uuid1;
                               Amnezia.encryption := None;
                               Amnezia.user_flow := None |} ] |} ] |};
            Amnezia.streamSettings := Some
              {| Amnezia.network := Some (js "tcp");
                 Amnezia.security := Some (js "reality");
                 Amnezia.realitySettings := Some
                   {| Amnezia.rs_fingerprint := None;
                      Amnezia.publicKey := None;
                      Amnezia.rs_serverName := Some (js "example.com");
                      Amnezia.shortId := None;
                      Amnezia.spiderX := None |};
                 Amnezia.tlsSettings := None;
                 Amnezia.wsSettings := None;
                 Amnezia.grpcSettings := None;
                 Amnezia.httpSettings := None |} |} ] |}.


(** A blank line, then a link of a protocol that is not implemented. *)
Definition text_blank_then_trojan : jsstring :=
  unlines [js ""; js "trojan://x"].

(** An [[Interface]] section with a private key and nothing else. *)
Definition conf_interface_only : jsstring :=
  unlines [js "[Interface]"; js "PrivateKey = X"].

(** Two outbounds tagged [a] and [b], no endpoint, and preset tables with
    one fragment each. *)
Definition outbound_a : Builder.Outbound :=
  {| Builder.type := js "vless"; Builder.tag := js "a"; Builder.extra := [] |}.
Definition outbound_b : Builder.Outbound :=
  {| Builder.type := js "vless"; Builder.tag := js "b"; Builder.extra := [] |}.
Definition options_a_b : Builder.BuildOptions :=
  {| Builder.opt_outbounds := [outbound_a; outbound_b];
     Builder.opt_endpoints := None;
     Builder.dnsPreset := Builder.google;
     Builder.inboundPreset := Builder.tun |}.
Definition dnsPresets1 (_ : Builder.DnsPreset) : Builder.Preset jsstring :=
  {| Builder.label := js "Google DNS"; Builder.desc := [];
     Builder.config := js "google" |}.
Definition inboundPresets1 (_ : Builder.InboundPreset)
  : Builder.Preset (list jsstring) :=
  {| Builder.label := js "TUN"; Builder.desc := [];
     Builder.config := [js "tun-in"] |}.

(** A text that is one comment line. *)
Definition text_comment_only : jsstring := js "# servers".

(** A port above 65535 after a host, and after no host. *)
Definition link_port_70000 : jsstring :=
  js "vless://" ++ uuid1 ++ js "@example.com:70000".
Definition link_port_70000_no_host : jsstring :=
  js "vless://" ++ uuid1 ++ js "@:70000".

End Samples.

(** ** Further sample inputs *)

Module MoreSamples.
Import Samples.

(** A TLS link over WebSocket with early data and a tag. *)
Definition link_tls_ws : jsstring :=
  js "vless://" ++ uuid1
  ++ js "@example.com:443?security=tls&sni=example.com&type=ws&path=%2Fws&ed=2048#my%20tag".

(** The scheme in upper case. *)
Definition link_upper_scheme : jsstring :=
  js "VLESS://" ++ uuid1 ++ js "@example.com:443".

(** Two links, with a line that is no link, a comment and a line of
    another protocol in between. *)
Definition text_mixed : jsstring :=
  unlines [link_tls_ws; js "junk"; js "# servers"; link_plain; js "trojan://x"].

(** A link, a line that is no link, and a link without [@]. *)
Definition text_vless_lines : jsstring :=
  unlines [link_plain; js "junk"; link_without_at].

(** Blank lines and comments only. *)
Definition text_comments : jsstring :=
  unlines [js "# servers"; js ""; js "// none yet"].

(** An AmneziaWG document with two peers, the second without endpoint. *)
Definition conf_two_peers : jsstring :=
  unlines [ js "[Interface]"; js "PrivateKey = X"; js "Address = 10.0.0.2, fd00::2";
            js "[Peer]"; js "PublicKey = Y"; js "Endpoint = vpn.example.com:51820";
            js "[Peer]"; js "PublicKey = Z" ].


(** Reality settings with a public key. *)
Definition stream_reality : Amnezia.XRayStreamSettings :=
  {| Amnezia.network := Some (js "tcp");
     Amnezia.security := Some (js "reality");
     Amnezia.realitySettings := Some
       {| Amnezia.rs_fingerprint := Some (js "chrome");
          Amnezia.publicKey := Some (js "K");
          Amnezia.rs_serverName := Some (js "example.com");
          Amnezia.shortId := None;
          Amnezia.spiderX := None |};
     Amnezia.tlsSettings := None;
     Amnezia.wsSettings := None;
     Amnezia.grpcSettings := None;
     Amnezia.httpSettings := None |}.

(** Calls of the store: forward three times, back once, an import. *)
Definition calls1 : list Store.Call :=
  [ Store.NextStep; Store.NextStep; Store.NextStep; Store.PrevStep;
    Store.SetOutbounds [outbound_a]; Store.SetStep 3 ].

End MoreSamples.

(** * Properties *)

(** ** The run time and the parsers on examples *)

Section Examples.

Import Samples.

Example trim_keeps_inner_space : trim (js "  a b  ") = js "a b".
Proof. reflexivity. Qed.

Example split_keeps_empty_pieces :
  split (ch "#") (js "a#b#") = [js "a"; js "b"; []].
Proof. reflexivity. Qed.

Example parseInt_reads_a_prefix : parseInt (js " -443x") = Some (-443)%Z.
Proof. reflexivity. Qed.

Example ofNat_decimal : ofNat 120 = js "120".
Proof. by vm_compute. Qed.

Example decodeURIComponent_utf8 :
  decodeURIComponent (js "a%20b%C3%A9") = Some (js "a b" ++ [233]).
Proof. reflexivity. Qed.

Example decodeURIComponent_surrogates :
  decodeURIComponent (js "%F0%9F%98%80") = Some [55357; 56832].
Proof. reflexivity. Qed.

Example decodeURIComponent_throws : decodeURIComponent (js "a%2") = None.
Proof. reflexivity. Qed.

Example URLSearchParams_pairs :
  URLSearchParams (js "security=reality&pbk=P+Q&x&sid=%61") =
  [(js "security", js "reality"); (js "pbk", js "P Q"); (js "x", []);
   (js "sid", js "a")].
Proof. by vm_compute. Qed.

(** The link of the specification, section 8. *)
Example parseVlessLink_reality_link :
  outbound (parseVlessLink
    (js "vless://11111111-1111-1111-1111-111111111111@example.com:443?security=reality&pbk=PBKVALUE&sid=abc&type=tcp#myserver")
    1 None)
  = Some {| type := js "vless"; tag := js "myserver";
            server := js "example.com"; server_port := 443;
            uuid := uuid1; flow := None;
            tls := Some {| enabled := true; server_name := None;
                           insecure := None; alpn := None; utls := None;
                           reality := Some {| reality_enabled := true;
                                              public_key := js "PBKVALUE";
                                              short_id := Some (js "abc") |} |};
            transport := None |}.
Proof. by vm_compute. Qed.

(** Five lines, the third one malformed: four outbounds tagged in
    sequence and one error, numbered 3. *)
Example parseProxyLinks_five_lines :
  let r := parseProxyLinks
             (unlines [link_plain; link_plain; js "vless://oops"; link_plain;
                       link_plain]) in
  map tag (outbounds r)
    = [js "proxy-p1"; js "proxy-p2"; js "proxy-p3"; js "proxy-p4"] /\
  map pe_lineNumber (errors r) = [3%nat] /\
  (totalLinks r, successCount r, errorCount r) = (5, 4, 1)%nat.
Proof. by vm_compute. Qed.

Example parseAwgConfig_full :
  Awg.parseAwgConfig
    (unlines [js "[Interface]"; js "PrivateKey = X";
              js "Address = 10.0.0.2, fd00::2"; js "MTU = 1280";
              js "I1 = <b 0xabc>"; js "[Peer]"; js "PublicKey = Y";
              js "Endpoint = [::1]:51820"; js "AllowedIPs = 0.0.0.0/0, ::/0"])
  = {| Awg.success := true; Awg.errors := [];
       Awg.endpoint := Some
         {| Awg.ep_type := js "awg"; Awg.ep_tag := js "awg-endpoint";
            Awg.useIntegratedTun := Some false;
            Awg.private_key := js "X";
            Awg.ep_address := [js "10.0.0.2/32"; js "fd00::2/128"];
            Awg.mtu := Some 1280%Z; Awg.listen_port := None;
            Awg.jc := None; Awg.jmin := None; Awg.jmax := None;
            Awg.s1 := None; Awg.s2 := None; Awg.s3 := None; Awg.s4 := None;
            Awg.h1 := None; Awg.h2 := None; Awg.h3 := None; Awg.h4 := None;
            Awg.i1 := Some (js "b 0xabc"); Awg.i2 := None; Awg.i3 := None;
            Awg.i4 := None; Awg.i5 := None;
            Awg.peers :=
              [ {| Awg.peer_address := js "::1"; Awg.peer_port := 51820%Z;
                   Awg.peer_public_key := js "Y";
                   Awg.preshared_key := None;
                   Awg.allowed_ips := [js "0.0.0.0/0"; js "::/0"];
                   Awg.persistent_keepalive_interval := None |} ] |} |}.
Proof. by vm_compute. Qed.

End Examples.

(** ** Facts about the run time *)

Section RunTime.

Lemma dropWhile_idem {A} (p : A -> bool) (l : list A) :
  dropWhile p (dropWhile p l) = dropWhile p l.
Proof.
  induction l as [|x l IH]; simpl; [done|].
  destruct (p x) eqn:Hx; [done|]. simpl. by rewrite Hx.
Qed.

Lemma dropWhile_app_keep {A} (p : A -> bool) (l r : list A) (x : A) :
  p x = false -> dropWhile p (l ++ x :: r) = dropWhile p l ++ x :: r.
Proof.
  intros Hx. induction l as [|y l IH]; simpl.
  - by rewrite Hx.
  - destruct (p y); [exact IH | done].
Qed.

Lemma trimEnd_cons (c : N) (s : jsstring) :
  isWhiteSpace c = false -> trimEnd (c :: s) = c :: trimEnd s.
Proof.
  intros Hc. unfold trimEnd. simpl.
  rewrite dropWhile_app_keep by done.
  by rewrite rev_app_distr.
Qed.

Lemma trimEnd_idem (s : jsstring) : trimEnd (trimEnd s) = trimEnd s.
Proof.
  unfold trimEnd. by rewrite rev_involutive, dropWhile_idem.
Qed.

(** The shape of a trimmed string: empty, or a first character that is not
    white space followed by a text without trailing white space. *)
Lemma trim_shape (s : jsstring) :
  trim s = [] \/
  exists c r, trim s = c :: trimEnd r /\ isWhiteSpace c = false.
Proof.
  unfold trim, trimStart.
  induction s as [|x s IH]; simpl; [by left|].
  destruct (isWhiteSpace x) eqn:Hx; [exact IH|].
  right. exists x, s. by rewrite trimEnd_cons.
Qed.

Lemma trim_idem (s : jsstring) : trim (trim s) = trim s.
Proof.
  destruct (trim_shape s) as [->|(c & r & -> & Hc)]; [done|].
  unfold trim, trimStart. simpl. rewrite Hc.
  by rewrite trimEnd_cons, trimEnd_idem.
Qed.

(** Appending a text that neither starts nor ends with white space to a
    trimmed text gives a trimmed text. *)
Lemma trim_app_suffix (s suffix : jsstring) (a b : N) :
  isWhiteSpace a = false -> isWhiteSpace b = false ->
  trim (trim s ++ a :: suffix ++ [b]) = trim s ++ a :: suffix ++ [b].
Proof.
  intros Ha Hb.
  assert (Hend : forall t : jsstring, trimEnd (t ++ [b]) = t ++ [b]).
  { intros t. unfold trimEnd. rewrite rev_app_distr. simpl. rewrite Hb.
    simpl. by rewrite rev_involutive. }
  destruct (trim_shape s) as [->|(c & r & -> & Hc)].
  - unfold trim, trimStart. simpl. rewrite Ha.
    exact (Hend (a :: suffix)).
  - unfold trim, trimStart. simpl. rewrite Hc.
    replace (c :: trimEnd r ++ a :: suffix ++ [b])
      with ((c :: trimEnd r ++ a :: suffix) ++ [b])
      by (simpl; by rewrite <- app_assoc).
    apply Hend.
Qed.

Lemma includes_app (c : N) (s t : jsstring) :
  includes c (s ++ t) = includes c s || includes c t.
Proof. unfold includes. apply existsb_app. Qed.




End RunTime.

(** ** The AmneziaWG parser: address normalisation *)

Section NormalizeAddress.

Import Awg.

(** What [parseCommaSeparated] returns is trimmed and not empty. *)
Lemma parseCommaSeparated_trimmed (value addr : jsstring) :
  addr ∈ parseCommaSeparated value -> trim addr = addr /\ addr <> [].
Proof.
  unfold parseCommaSeparated. intros H.
  apply list_elem_of_filter in H as [Hlen H].
  apply list_elem_of_fmap in H as (x & -> & _).
  split; [apply trim_idem|].
  intros E. rewrite E in Hlen. simpl in Hlen. lia.
Qed.

(** On any string, [normalizeAddress] works on the trimmed text. *)
Lemma normalizeAddress_spec (addr : jsstring) :
  normalizeAddress addr =
    if includes (ch "/") (trim addr) then trim addr
    else if includes (ch ":") (trim addr) then trim addr ++ js "/128"
    else trim addr ++ js "/32".
Proof. reflexivity. Qed.

Lemma normalizeAddress_idempotent (addr : jsstring) :
  normalizeAddress (normalizeAddress addr) = normalizeAddress addr.
Proof.
  rewrite (normalizeAddress_spec addr).
  destruct (includes (ch "/") (trim addr)) eqn:Hs.
  - unfold normalizeAddress. by rewrite trim_idem, Hs.
  - destruct (includes (ch ":") (trim addr)).
    + unfold normalizeAddress.
      change (js "/128") with (ch "/" :: [ch "1"; ch "2"] ++ [ch "8"]).
      rewrite trim_app_suffix by done.
      by rewrite includes_app, orb_true_r.
    + unfold normalizeAddress.
      change (js "/32") with (ch "/" :: [ch "3"] ++ [ch "2"]).
      rewrite trim_app_suffix by done.
      by rewrite includes_app, orb_true_r.
Qed.

(** C6.  On every interface address (an element of what
    [parseCommaSeparated] returns for the [Address] value),
    [normalizeAddress] returns the address itself when it contains a
    slash, appends [/128] when it contains a colon and no slash, and
    appends [/32] when it contains neither; ["10.0.0.2"], ["fd00::2"] and
    ["10.0.0.2/24"] are mapped as the examples say, and normalising twice
    is normalising once. *)
Theorem C6_normalizeAddress_on_interface_addresses (value addr : jsstring) :
  addr ∈ parseCommaSeparated value ->
  (includes (ch "/") addr = true -> normalizeAddress addr = addr) /\
  (includes (ch "/") addr = false -> includes (ch ":") addr = true ->
     normalizeAddress addr = addr ++ js "/128") /\
  (includes (ch "/") addr = false -> includes (ch ":") addr = false ->
     normalizeAddress addr = addr ++ js "/32") /\
  normalizeAddress (js "10.0.0.2") = js "10.0.0.2/32" /\
  normalizeAddress (js "fd00::2") = js "fd00::2/128" /\
  normalizeAddress (js "10.0.0.2/24") = js "10.0.0.2/24" /\
  normalizeAddress (normalizeAddress addr) = normalizeAddress addr.
Proof.
  intros Hin. apply parseCommaSeparated_trimmed in Hin as [Ht _].
  repeat split; try reflexivity.
  - intros Hs. rewrite normalizeAddress_spec, Ht. by rewrite Hs.
  - intros Hs Hc. rewrite normalizeAddress_spec, Ht. by rewrite Hs, Hc.
  - intros Hs Hc. rewrite normalizeAddress_spec, Ht. by rewrite Hs, Hc.
  - apply normalizeAddress_idempotent.
Qed.

Lemma C6_witness :
  js "fd00::2" ∈ parseCommaSeparated (js "10.0.0.2, fd00::2") /\
  normalizeAddress (js "fd00::2") = js "fd00::2" ++ js "/128".
Proof.
  assert (Hin : js "fd00::2" ∈ parseCommaSeparated (js "10.0.0.2, fd00::2")).
  { vm_compute. apply list_elem_of_further, list_elem_of_here. }
  split; [exact Hin|].
  apply (C6_normalizeAddress_on_interface_addresses _ _ Hin); reflexivity.
Defined.

End NormalizeAddress.

(** ** The config builder *)

Section BuildConfig.

Import Builder.

Context {DnsConfig InboundConfig : Type}.
Variable dnsPresets : DnsPreset -> Preset DnsConfig.
Variable inboundPresets : InboundPreset -> Preset (list InboundConfig).

(** The outbounds of the result: those of the caller, then the selector,
    the urltest when there is a tag, and [direct]. *)
Lemma buildConfig_outbounds (options : BuildOptions) :
  let allTags :=
    map tag (opt_outbounds options)
    ++ map Awg.ep_tag (default [] (opt_endpoints options)) in
  outbounds (buildConfig dnsPresets inboundPresets options) =
    opt_outbounds options ++
    [ {| type := js "selector"; tag := js "proxy";
         extra :=
           [ (js "outbounds",
              JArr (map JStr (match allTags with
                              | [] => [js "direct"]
                              | _ => js "auto" :: allTags
                              end)));
             (js "default",
              JStr (match allTags with [] => js "direct" | _ => js "auto" end)) ] |} ]
    ++ match allTags with
       | [] => []
       | _ => [ {| type := js "urltest"; tag := js "auto";
                   extra :=
                     [ (js "outbounds", JArr (map JStr allTags));
                       (js "url", JStr (js "https://www.gstatic.com/generate_204"));
                       (js "interval", JStr (js "5m"));
                       (js "tolerance", JNum 50) ] |} ]
       end
    ++ [ {| type := js "direct"; tag := js "direct"; extra := [] |} ].
Proof.
  intros allTags. unfold buildConfig. fold allTags.
  destruct (0 <? length (default [] (opt_endpoints options)))%nat;
    destruct allTags; reflexivity.
Qed.

Lemma buildConfig_endpoints (options : BuildOptions) :
  endpoints (buildConfig dnsPresets inboundPresets options) =
    match default [] (opt_endpoints options) with
    | [] => None
    | ep :: eps => Some (ep :: eps)
    end.
Proof.
  unfold buildConfig.
  destruct (default [] (opt_endpoints options)); reflexivity.
Qed.

(** C8.  Without outbounds and endpoints the selector offers ["direct"]
    and defaults to it, and the result has no [endpoints]; with two
    outbounds tagged [a] and [b] and no endpoint the selector offers
    ["auto"; a; b] and defaults to ["auto"], the urltest ["auto"] races
    exactly [a; b], and the result has no [endpoints]; the key [endpoints]
    is set exactly when at least one endpoint was supplied. *)
Theorem C8_buildConfig_selector_urltest_endpoints (options : BuildOptions) :
  let config := buildConfig dnsPresets inboundPresets options in
  let supplied := default [] (opt_endpoints options) in
  (opt_outbounds options = [] -> supplied = [] ->
     outbounds config =
       [ {| type := js "selector"; tag := js "proxy";
            extra := [ (js "outbounds", JArr [JStr (js "direct")]);
                       (js "default", JStr (js "direct")) ] |};
         {| type := js "direct"; tag := js "direct"; extra := [] |} ]
     /\ endpoints config = None) /\
  (forall o1 o2 : Outbound,
     opt_outbounds options = [o1; o2] -> supplied = [] ->
     outbounds config =
       [ o1; o2;
         {| type := js "selector"; tag := js "proxy";
            extra := [ (js "outbounds",
                        JArr [JStr (js "auto"); JStr (tag o1); JStr (tag o2)]);
                       (js "default", JStr (js "auto")) ] |};
         {| type := js "urltest"; tag := js "auto";
            extra := [ (js "outbounds", JArr [JStr (tag o1); JStr (tag o2)]);
                       (js "url", JStr (js "https://www.gstatic.com/generate_204"));
                       (js "interval", JStr (js "5m"));
                       (js "tolerance", JNum 50) ] |};
         {| type := js "direct"; tag := js "direct"; extra := [] |} ]
     /\ endpoints config = None) /\
  (is_Some (endpoints config) <-> supplied <> []) /\
  (supplied <> [] -> endpoints config = Some supplied).
Proof.
  intros config supplied. subst config.
  rewrite buildConfig_outbounds, buildConfig_endpoints. fold supplied.
  split; [|split; [|split]].
  - intros Ho Hs. by rewrite Ho, Hs.
  - intros o1 o2 Ho Hs. by rewrite Ho, Hs.
  - destruct supplied; split; [by intros [? ?]|done|done|by eexists].
  - destruct supplied; done.
Qed.

End BuildConfig.

(** Two outbounds tagged [a] and [b], no endpoint. *)
Lemma C8_witness :
  Builder.opt_outbounds Samples.options_a_b
    = [Samples.outbound_a; Samples.outbound_b] /\
  default [] (Builder.opt_endpoints Samples.options_a_b) = [] /\
  Builder.endpoints
    (Builder.buildConfig Samples.dnsPresets1 Samples.inboundPresets1
       Samples.options_a_b) = None.
Proof.
  split; [reflexivity|]. split; [reflexivity|].
  apply (proj1 (proj2 (C8_buildConfig_selector_urltest_endpoints
                         Samples.dnsPresets1 Samples.inboundPresets1
                         Samples.options_a_b))
           Samples.outbound_a Samples.outbound_b); reflexivity.
Defined.

(** ** The link parser *)

Section VlessLink.

(** One step along the conditionals of a definition that was unfolded in
    [H]. *)
Ltac step_in H :=
  match type of H with
  | context [if ?b then _ else _] => destruct b eqn:?
  | context [match ?x with _ => _ end] => destruct x eqn:?
  end.

(** Boolean tests of the hypotheses, as propositions. *)
Ltac bool_hyps :=
  repeat match goal with
  | H : negb _ = false |- _ => apply negb_false_iff in H
  | H : negb _ = true |- _ => apply negb_true_iff in H
  | H : _ || _ = false |- _ => apply orb_false_iff in H as [? ?]
  | H : (_ <? _)%nat = false |- _ => apply Nat.ltb_ge in H
  | H : (_ <? _)%Z = false |- _ => apply Z.ltb_ge in H
  | H : (_ >? _)%Z = false |- _ => rewrite Z.gtb_ltb in H
  end.

Lemma truthy_nonempty (s : jsstring) : truthy s = true -> s <> [].
Proof. by destruct s. Qed.

(** What a successful parse says about the link. *)
Lemma parseVlessLink_success (link : jsstring) (ln : nat)
    (dt : option jsstring) (o : VlessOutbound) :
  outbound (parseVlessLink link ln dt) = Some o ->
  startsWith (js "vless://") (trim link) = true /\
  tagDecodes link = true /\
  exists atIndex,
    lastIndexOf (ch "@") (mainPart link) = Some atIndex /\
    uuid o = slice 0 atIndex (mainPart link) /\
    (32 <= length (uuid o))%nat /\
    hostAndPort (hostPortOf (sliceFrom (atIndex + 1) (mainPart link)))
      = inr (server o, Some (server_port o)) /\
    server o <> [] /\
    (1 <= server_port o <= 65535)%Z.
Proof.
  unfold parseVlessLink, tagDecodes, mainPart, fragment, hostPortOf.
  cbv zeta. intros H.
  repeat (step_in H; try discriminate H).
  all: repeat match goal with
       | E : match ?x with _ => _ end = inr _ |- _ =>
           destruct x eqn:?; [discriminate E|]
       end.
  all: cbn [outbound] in H; simplify_eq; bool_hyps.
  all: cbn [uuid server server_port setTransport setTls setFlow fst snd].
  all: split; [assumption|].
  all: split;
    [match goal with E : truthyOpt _ = _ |- _ => rewrite E end;
     try match goal with E : decodeURIComponent _ = _ |- _ => rewrite E end;
     done|].
  all: eexists; split; [eassumption|].
  all: match goal with E : destructure2 (split (ch "?") _) = _ |- _ =>
         rewrite E end; cbn [fst].
  all: repeat split; try assumption; try lia; by apply truthy_nonempty.
Qed.

Lemma startsWith_truthy (c : N) (p s : jsstring) :
  startsWith (c :: p) s = true -> truthy s = true.
Proof. by destruct s. Qed.


(** A link that gets as far as line 101: what the host and the port
    decide. *)
Lemma parseVlessLink_hostPort_stage (link : jsstring) (ln : nat)
    (dt : option jsstring) (atIndex : nat) :
  startsWith (js "vless://") (trim link) = true ->
  tagDecodes link = true ->
  lastIndexOf (ch "@") (mainPart link) = Some atIndex ->
  (32 <= length (slice 0 atIndex (mainPart link)))%nat ->
  let hostPort := hostPortOf (sliceFrom (atIndex + 1) (mainPart link)) in
  let result := parseVlessLink link ln dt in
  (forall msg, hostAndPort hostPort = inl msg -> result = failure link ln msg) /\
  (forall server port, hostAndPort hostPort = inr (server, port) ->
     (server = [] -> result = failure link ln (js "Missing server address")) /\
     (server <> [] -> port = None ->
        result = failure link ln (js "Invalid port number")) /\
     (server <> [] -> forall p, port = Some p -> (p < 1 \/ 65535 < p)%Z ->
        result = failure link ln (js "Invalid port number"))).
Proof.
  intros Hp Ht Hat Hlen hostPort result. subst hostPort result.
  unfold parseVlessLink. cbv zeta.
  rewrite (startsWith_truthy _ _ _ Hp), Hp. cbn [negb].
  unfold tagDecodes, mainPart, fragment, hostPortOf in *.
  destruct (destructure2 (split (ch "#") (sliceFrom 8 (trim link))))
    as [mp fr].
  cbn [fst snd] in *.
  assert (Htag : exists tag,
    (if truthyOpt fr then decodeURIComponent (default [] fr)
     else Some (orElse dt (js "proxy-p" ++ ofNat ln))) = Some tag).
  { destruct (truthyOpt fr); [|by eexists].
    destruct (decodeURIComponent (default [] fr)); [by eexists|done]. }
  destruct Htag as [tag ->]. rewrite Hat.
  assert (Hu : negb (truthy (slice 0 atIndex mp))
               || (length (slice 0 atIndex mp) <? 32)%nat = false).
  { apply orb_false_iff. split.
    - destruct (slice 0 atIndex mp); [simpl in Hlen; lia|done].
    - by apply Nat.ltb_ge. }
  rewrite Hu.
  destruct (destructure2 (split (ch "?") (sliceFrom (atIndex + 1) mp)))
    as [hp qs].
  cbn [fst].
  split.
  - intros msg ->. done.
  - intros server port ->. split; [|split].
    + intros ->. done.
    + intros Hs ->. destruct server; done.
    + intros Hs p -> Hr. destruct server; [done|]. cbn [truthy negb].
      assert ((p <? 1)%Z || (p >? 65535)%Z = true) as ->; [|done].
      apply orb_true_iff. rewrite Z.gtb_ltb.
      destruct Hr; [left|right]; by apply Z.ltb_lt.
Qed.

Lemma hostAndPort_missing_port (hostPort : jsstring) :
  startsWith (js "[") hostPort = false ->
  lastIndexOf (ch ":") hostPort = None ->
  hostAndPort hostPort = inl (js "Missing port").
Proof. unfold hostAndPort. by intros -> ->. Qed.

Lemma hostAndPort_missing_port_ipv6 (hostPort : jsstring) (bracketEnd : nat) :
  startsWith (js "[") hostPort = true ->
  indexOf (ch "]") hostPort = Some bracketEnd ->
  startsWith (js ":") (sliceFrom (bracketEnd + 1) hostPort) = false ->
  hostAndPort hostPort = inl (js "Missing port after IPv6 address").
Proof. unfold hostAndPort. by intros -> -> ->. Qed.

End VlessLink.

(** ** The link parser: credential and port *)

Section CredentialAndPort.

Import Samples.




(** C5, on the code.  The checks come in a fixed order and the first one
    that fails gives the diagnostic: in [link_port_70000_no_host] the port
    is read as 70000, outside the range, and the link is rejected for its
    missing server, not with a diagnostic about the port. *)
Lemma C5_counterexample :
  hostAndPort (hostPortOf (js ":70000")) = inr ([], Some 70000%Z) /\
  parseVlessLink link_port_70000_no_host 1 None
    = failure link_port_70000_no_host 1 (js "Missing server address") /\
  js "Missing server address" ∉ portDiagnostics.
Proof.
  split; [vm_compute; reflexivity|].
  split; [vm_compute; reflexivity|].
  unfold portDiagnostics. intros H.
  repeat (apply elem_of_cons in H as [H|H]; [vm_compute in H; discriminate H|]).
  by apply elem_of_nil in H.
Qed.

(** C5, as amended.  When the parse succeeds the port of the outbound is
    in [1, 65535].  A link that gets as far as the host and the port (it
    starts with [vless://], its fragment decodes, its main part has an [@]
    with at least 32 characters before it) is rejected with "Missing port"
    when its host does not start with a bracket and has no colon, with
    "Missing port after IPv6 address" when no colon follows the closing
    bracket, and with "Invalid port number" when the host is not empty and
    the text of the port does not parse or parses to a number outside
    [1, 65535]. *)
Theorem C5_port_in_range_and_port_diagnostics
    (link : jsstring) (ln : nat) (dt : option jsstring) :
  (forall o, outbound (parseVlessLink link ln dt) = Some o ->
     (1 <= server_port o <= 65535)%Z) /\
  (forall atIndex,
     startsWith (js "vless://") (trim link) = true ->
     tagDecodes link = true ->
     lastIndexOf (ch "@") (mainPart link) = Some atIndex ->
     (32 <= length (slice 0 atIndex (mainPart link)))%nat ->
     let hostPort := hostPortOf (sliceFrom (atIndex + 1) (mainPart link)) in
     let result := parseVlessLink link ln dt in
     (startsWith (js "[") hostPort = false ->
      lastIndexOf (ch ":") hostPort = None ->
      result = failure link ln (js "Missing port")) /\
     (forall bracketEnd,
        startsWith (js "[") hostPort = true ->
        indexOf (ch "]") hostPort = Some bracketEnd ->
        startsWith (js ":") (sliceFrom (bracketEnd + 1) hostPort) = false ->
        result = failure link ln (js "Missing port after IPv6 address")) /\
     (forall server port,
        hostAndPort hostPort = inr (server, port) ->
        server <> [] ->
        port = None \/ (exists p, port = Some p /\ (p < 1 \/ 65535 < p)%Z) ->
        result = failure link ln (js "Invalid port number"))).
Proof.
  split.
  - intros o H.
    by apply parseVlessLink_success in H as (_ & _ & ? & _ & _ & _ & _ & _ & ?).
  - intros atIndex Hp Ht Hat Hlen hostPort result.
    destruct (parseVlessLink_hostPort_stage link ln dt atIndex Hp Ht Hat Hlen)
      as [Hinl Hinr].
    fold hostPort in Hinl, Hinr. fold result in Hinl, Hinr.
    split; [|split].
    + intros Hb Hc. apply Hinl. by apply hostAndPort_missing_port.
    + intros e Hb He Hc. apply Hinl.
      by apply (hostAndPort_missing_port_ipv6 _ e).
    + intros server port Hhp Hs Hbad.
      destruct (Hinr server port Hhp) as (_ & Hnan & Hout).
      destruct Hbad as [->|(p & -> & Hr)]; [by apply Hnan|].
      by apply (Hout Hs p).
Qed.

Lemma C5_witness :
  outbound (parseVlessLink link_plain 1 None) <> None /\
  (443 <= 65535)%Z /\
  startsWith (js "vless://") (trim link_port_70000) = true /\
  tagDecodes link_port_70000 = true /\
  lastIndexOf (ch "@") (mainPart link_port_70000) = Some 36%nat /\
  hostAndPort (hostPortOf (sliceFrom (36 + 1) (mainPart link_port_70000)))
    = inr (js "example.com", Some 70000%Z) /\
  parseVlessLink link_port_70000 1 None
    = failure link_port_70000 1 (js "Invalid port number").
Proof.
  assert (H : outbound (parseVlessLink link_plain 1 None) =
              Some {| type := js "vless"; tag := js "proxy-p1";
                      server := js "example.com"; server_port := 443;
                      uuid := uuid1;
                      flow := None; tls := None; transport := None |})
    by (vm_compute; reflexivity).
  split; [by rewrite H|].
  split; [exact (proj2 (proj1 (C5_port_in_range_and_port_diagnostics
                                 link_plain 1 None) _ H))|].
  assert (H1 : startsWith (js "vless://") (trim link_port_70000) = true)
    by (vm_compute; reflexivity).
  assert (H2 : tagDecodes link_port_70000 = true) by (vm_compute; reflexivity).
  assert (H3 : lastIndexOf (ch "@") (mainPart link_port_70000) = Some 36%nat)
    by (vm_compute; reflexivity).
  assert (H4 : (32 <= length (slice 0 36 (mainPart link_port_70000)))%nat)
    by (vm_compute; lia).
  assert (H5 : hostAndPort
                 (hostPortOf (sliceFrom (36 + 1) (mainPart link_port_70000)))
               = inr (js "example.com", Some 70000%Z))
    by (vm_compute; reflexivity).
  split; [exact H1|]. split; [exact H2|]. split; [exact H3|].
  split; [exact H5|].
  refine (proj2 (proj2 (proj2 (C5_port_in_range_and_port_diagnostics
                                 link_port_70000 1 None) 36%nat H1 H2 H3 H4))
            (js "example.com") (Some 70000%Z) H5 _ _).
  - vm_compute. discriminate.
  - right. exists 70000%Z. split; [reflexivity|right; lia].
Defined.

End CredentialAndPort.

(** ** The batch parser *)

Section ParseProxyLinks.

Import Samples.

(** One iteration skips the line, or pushes one outbound, or pushes one
    error that carries the number [i + 1] and the truncated line. *)
Lemma loopBody_cases (i : nat) (raw : jsstring) (st : LoopState) :
  (isSkipped raw = true /\ loopBody i raw st = st) \/
  (isSkipped raw = false /\
   ((exists o, ls_outbounds (loopBody i raw st) = ls_outbounds st ++ [o] /\
               ls_errors (loopBody i raw st) = ls_errors st) \/
    (exists msg,
       ls_outbounds (loopBody i raw st) = ls_outbounds st /\
       ls_errors (loopBody i raw st) =
         ls_errors st ++ [{| pe_lineNumber := i + 1;
                             pe_link := truncated (trim raw);
                             pe_error := msg |}]))).
Proof.
  unfold loopBody, isSkipped. cbv zeta.
  destruct (negb (truthy (trim raw)) || startsWith (js "#") (trim raw)
            || startsWith (js "//") (trim raw)); [by left|].
  right. split; [done|].
  destruct (success (parseProxyLink (trim raw) (i + 1)));
    destruct (outbound (parseProxyLink (trim raw) (i + 1)));
    [left; eexists; split; reflexivity
    | right; eexists; split; reflexivity ..].
Qed.

Lemma loop_counts (lines : list jsstring) (i : nat) (st : LoopState) :
  (length (ls_outbounds (loop i lines st))
   + length (ls_errors (loop i lines st))
   + length (filter (fun l => isSkipped l = true) lines)
   = length (ls_outbounds st) + length (ls_errors st) + length lines)%nat.
Proof.
  revert i st. induction lines as [|raw lines IH]; intros i st; simpl; [lia|].
  rewrite filter_cons.
  specialize (IH (S i) (loopBody i raw st)).
  destruct (loopBody_cases i raw st)
    as [[Hs E]|[Hs [(o & Ho & He)|(m & Ho & He)]]].
  - rewrite E in *. case_decide; [|congruence]. simpl. lia.
  - case_decide; [congruence|].
    rewrite Ho, He, length_app in IH. simpl in IH. lia.
  - case_decide; [congruence|].
    rewrite Ho, He, length_app in IH. simpl in IH. lia.
Qed.

Lemma loop_errors (lines : list jsstring) (i : nat) (st : LoopState)
    (e : ParseError) :
  e ∈ ls_errors (loop i lines st) ->
  e ∈ ls_errors st \/
  exists k raw,
    lines !! k = Some raw /\ isSkipped raw = false /\
    pe_lineNumber e = (i + k + 1)%nat /\
    pe_link e = truncated (trim raw).
Proof.
  revert i st. induction lines as [|raw lines IH]; intros i st; simpl.
  - by left.
  - intros H. apply IH in H as [H|(k & r & Hk & Hs & Hn & Hl)].
    + destruct (loopBody_cases i raw st)
        as [[Hs E]|[Hs [(o & Ho & He)|(m & Ho & He)]]].
      * rewrite E in H. by left.
      * rewrite He in H. by left.
      * rewrite He in H. apply elem_of_app in H as [H|H]; [by left|].
        apply list_elem_of_singleton in H as ->.
        right. exists 0%nat, raw. simpl. repeat split; [done|lia].
    + right. exists (S k), r. simpl. repeat split; [done|done|lia|done].
Qed.

Lemma nonBlankLines_nonBlank (text line : jsstring) :
  line ∈ nonBlankLines text -> nonBlank line.
Proof.
  unfold nonBlankLines. intros H. by apply list_elem_of_filter in H as [? _].
Qed.

Lemma skipped_nonBlank (lines : list jsstring) :
  Forall nonBlank lines ->
  filter (fun l => isSkipped l = true) lines
  = filter (fun l => isComment l = true) lines.
Proof.
  induction 1 as [|l lines Hl _ IH]; [done|].
  rewrite !filter_cons, IH.
  unfold isSkipped, isComment, nonBlank in *. rewrite Hl. simpl.
  repeat case_decide; done.
Qed.

(** The total of [parseProxyLinks]: the outbounds, the errors and the
    comment lines. *)
Lemma parseProxyLinks_total (text : jsstring) :
  totalLinks (parseProxyLinks text)
  = (successCount (parseProxyLinks text) + errorCount (parseProxyLinks text)
     + length (filter (fun l => isComment l = true) (nonBlankLines text)))%nat.
Proof.
  unfold parseProxyLinks. cbv zeta. cbn [totalLinks successCount errorCount].
  pose proof (loop_counts (nonBlankLines text) 0
                {| ls_outbounds := []; ls_errors := []; proxyCounter := 1 |})
    as H.
  rewrite skipped_nonBlank in H.
  - simpl in H. lia.
  - apply Forall_forall. intros l. apply nonBlankLines_nonBlank.
Qed.

(** The total of the sibling [parseVlessLinks] is what it pushed. *)
Lemma parseVlessLinks_total (input : jsstring) :
  totalLinks (VlessBatch.parseVlessLinks input)
  = (successCount (VlessBatch.parseVlessLinks input)
     + errorCount (VlessBatch.parseVlessLinks input))%nat.
Proof.
  unfold VlessBatch.parseVlessLinks.
  by destruct (VlessBatch.loop _ _ _ _).
Qed.

(** C3, on the code.  A comment line passes the filter of blank lines and
    is counted in [totalLinks], although the loop skips it: on a text that
    is one comment line the total is 1 and both counts are 0.  In general
    the total exceeds the sum of the counts by the number of comment
    lines. *)
Theorem C3_totalLinks_counts_comment_lines :
  (totalLinks (parseProxyLinks text_comment_only) = 1%nat /\
   successCount (parseProxyLinks text_comment_only) = 0%nat /\
   errorCount (parseProxyLinks text_comment_only) = 0%nat) /\
  (forall text,
     totalLinks (parseProxyLinks text)
     = (successCount (parseProxyLinks text)
        + errorCount (parseProxyLinks text)
        + length (filter (fun l => isComment l = true) (nonBlankLines text)))%nat).
Proof.
  split; [by vm_compute|]. apply parseProxyLinks_total.
Qed.


(** Every error of the batch comes from a line that is not blank. *)
Lemma parseProxyLinks_errors (text : jsstring) (e : ParseError) :
  e ∈ errors (parseProxyLinks text) ->
  exists k raw,
    nonBlankLines text !! k = Some raw /\
    pe_lineNumber e = S k /\
    pe_link e = truncated (trim raw).
Proof.
  unfold parseProxyLinks. cbv zeta. cbn [errors]. intros H.
  apply loop_errors in H as [H|(k & raw & Hk & _ & Hn & Hl)].
  - by apply elem_of_nil in H.
  - exists k, raw. repeat split; [done|simpl in Hn; lia|done].
Qed.




(** An element of a filtered list, found again in the list: its index in
    the filtered list is the number of elements kept before it. *)
Lemma filter_lookup_inv {A} (P : A -> Prop) `{Hdec : !forall x, Decision (P x)}
    (l : list A) (k : nat) (x : A) :
  filter P l !! k = Some x ->
  exists j, l !! j = Some x /\ P x /\ k = length (filter P (take j l)).
Proof.
  revert k. induction l as [|a l IH]; intros k; [done|].
  rewrite filter_cons. case_decide as Ha.
  - destruct k as [|k]; simpl.
    + intros [= <-]. by exists 0%nat.
    + intros H. apply IH in H as (j & Hj & Hx & ->).
      exists (S j). simpl. rewrite filter_cons, decide_True by done. done.
  - intros H. apply IH in H as (j & Hj & Hx & ->).
    exists (S j). simpl. rewrite filter_cons, decide_False by done. done.
Qed.

Lemma filter_length_all {A} (P : A -> Prop) `{Hdec : !forall x, Decision (P x)}
    (l : list A) :
  length (filter P l) = length l <-> Forall P l.
Proof.
  induction l as [|a l IH]; [by split|].
  rewrite filter_cons. pose proof (length_filter P l) as Hle.
  case_decide as Ha; simpl.
  - rewrite Forall_cons. split.
    + intros [= H]. split; [done|by apply IH].
    + intros [_ H]. f_equal. by apply IH.
  - split; [lia|]. intros H. by apply Forall_cons in H as [? _].
Qed.

(** C10.  The line number of an error diagnostic is the 1-based position
    of its line among the lines that are not blank: one more than the number
    of non-blank lines before it in the text.  It is the position of the
    line in the text itself exactly when no line before it is blank. *)
Theorem C10_lineNumber_counts_non_blank_lines
    (text : jsstring) (e : ParseError) :
  e ∈ errors (parseProxyLinks text) ->
  exists (k j : nat) (raw : jsstring),
    nonBlankLines text !! k = Some raw /\
    split (ch "010") text !! j = Some raw /\
    nonBlank raw /\
    pe_link e = truncated (trim raw) /\
    pe_lineNumber e = S k /\
    k = length (filter nonBlank (take j (split (ch "010") text))) /\
    (pe_lineNumber e = S j <-> Forall nonBlank (take j (split (ch "010") text))).
Proof.
  intros H. apply parseProxyLinks_errors in H as (k & raw & Hk & Hn & Hl).
  pose proof Hk as Hk'. unfold nonBlankLines in Hk'.
  apply filter_lookup_inv in Hk' as (j & Hj & Hnb & Hcount).
  exists k, j, raw. repeat split; try done.
  - intros E. apply (proj1 (filter_length_all nonBlank _)).
    rewrite <- Hcount, length_take_le; [lia|].
    apply lookup_lt_Some in Hj. lia.
  - intros Hall. apply (proj2 (filter_length_all nonBlank _)) in Hall.
    rewrite length_take_le in Hall; [lia|].
    apply lookup_lt_Some in Hj. lia.
Qed.

(** A blank first line: the error of the second line carries the number
    1. *)
Lemma C10_witness :
  {| pe_lineNumber := 1; pe_link := js "trojan://x";
     pe_error := js "Protocol " ++ dquote ++ js "trojan" ++ dquote
                 ++ js " is not yet supported" |}
    ∈ errors (parseProxyLinks text_blank_then_trojan) /\
  exists (k j : nat) (raw : jsstring),
    nonBlankLines text_blank_then_trojan !! k = Some raw /\
    split (ch "010") text_blank_then_trojan !! j = Some raw /\
    nonBlank raw /\
    js "trojan://x" = truncated (trim raw) /\
    1%nat = S k /\
    k = length (filter nonBlank
                  (take j (split (ch "010") text_blank_then_trojan))) /\
    (1%nat = S j <->
     Forall nonBlank (take j (split (ch "010") text_blank_then_trojan))).
Proof.
  assert (H : {| pe_lineNumber := 1; pe_link := js "trojan://x";
                 pe_error := js "Protocol " ++ dquote ++ js "trojan" ++ dquote
                             ++ js " is not yet supported" |}
              ∈ errors (parseProxyLinks text_blank_then_trojan)).
  { vm_compute. apply list_elem_of_here. }
  split; [exact H|].
  exact (C10_lineNumber_counts_non_blank_lines _ _ H).
Defined.

End ParseProxyLinks.

(** ** The AmneziaWG parser: the fatal errors *)

Section ParseAwgConfig.

Import Awg Samples.

(** A line that is not the [[interface]] header does not enter the
    interface section, and writes to it only from inside it. *)
Lemma sectionsStep_interface (st : SectionsState) (line : jsstring) :
  jsstring_eqb (toLowerCase (trim line)) (js "[interface]") = false ->
  currentSection st <> InInterface ->
  currentSection (sectionsStep st line) <> InInterface /\
  sec_interface (result (sectionsStep st line)) = sec_interface (result st).
Proof.
  intros Hh Hs. unfold sectionsStep. cbv zeta. rewrite Hh.
  destruct (jsstring_eqb (toLowerCase (trim line)) (js "[peer]")).
  - cbn [currentSection result]. split; [done|]. by destruct (_ && _).
  - destruct (parseLine (trim line)) as [[key value]|]; [|done].
    destruct (currentSection st) eqn:E;
      cbn [currentSection result sec_interface]; rewrite ?E; done.
Qed.

Lemma sectionsStep_peer (st : SectionsState) (line : jsstring) :
  jsstring_eqb (toLowerCase (trim line)) (js "[peer]") = false ->
  currentSection st <> InPeer ->
  currentSection (sectionsStep st line) <> InPeer /\
  sec_peers (result (sectionsStep st line)) = sec_peers (result st).
Proof.
  intros Hh Hs. unfold sectionsStep. cbv zeta. rewrite Hh.
  destruct (jsstring_eqb (toLowerCase (trim line)) (js "[interface]")).
  - done.
  - destruct (parseLine (trim line)) as [[key value]|]; [|done].
    destruct (currentSection st) eqn:E;
      cbn [currentSection result sec_peers]; rewrite ?E; done.
Qed.

Lemma fold_sectionsStep_interface (lines : list jsstring) (st : SectionsState) :
  existsb (fun line => jsstring_eqb (toLowerCase (trim line)) (js "[interface]"))
          lines = false ->
  currentSection st <> InInterface ->
  sec_interface (result (fold_left sectionsStep lines st))
  = sec_interface (result st).
Proof.
  revert st. induction lines as [|line lines IH]; intros st; simpl; [done|].
  intros H Hs. apply orb_false_iff in H as [Hh Hrest].
  destruct (sectionsStep_interface st line Hh Hs) as [Hs' <-].
  by apply IH.
Qed.

Lemma fold_sectionsStep_peer (lines : list jsstring) (st : SectionsState) :
  existsb (fun line => jsstring_eqb (toLowerCase (trim line)) (js "[peer]"))
          lines = false ->
  currentSection st <> InPeer ->
  currentSection (fold_left sectionsStep lines st) <> InPeer /\
  sec_peers (result (fold_left sectionsStep lines st)) = sec_peers (result st).
Proof.
  revert st. induction lines as [|line lines IH]; intros st; simpl; [done|].
  intros H Hs. apply orb_false_iff in H as [Hh Hrest].
  destruct (sectionsStep_peer st line Hh Hs) as [Hs' <-].
  by apply IH.
Qed.

(** A line whose key is not [key] leaves the value of [key] in the
    interface section as it was. *)
Lemma sectionsStep_key (key : string) (st : SectionsState) (line : jsstring) :
  match parseLine (trim line) with
  | Some (k, _) => jsstring_eqb (toLowerCase k) (js key)
  | None => false
  end = false ->
  sec_interface (result (sectionsStep st line)) !! js key
  = sec_interface (result st) !! js key.
Proof.
  intros Hk. unfold sectionsStep. cbv zeta.
  destruct (jsstring_eqb (toLowerCase (trim line)) (js "[interface]")); [done|].
  destruct (jsstring_eqb (toLowerCase (trim line)) (js "[peer]")).
  { cbn [result]. by destruct (_ && _). }
  destruct (parseLine (trim line)) as [[k v]|]; [|done].
  destruct (currentSection st); [done| |done].
  cbn [result sec_interface]. unfold setProp.
  destruct (jsstring_eqb (toLowerCase k) (js "__proto__")); [done|].
  apply lookup_insert_ne. intros E.
  unfold jsstring_eqb in Hk. by rewrite bool_decide_eq_true_2 in Hk.
Qed.

Lemma fold_sectionsStep_key (key : string) (lines : list jsstring)
    (st : SectionsState) :
  existsb (fun line =>
             match parseLine (trim line) with
             | Some (k, _) => jsstring_eqb (toLowerCase k) (js key)
             | None => false
             end) lines = false ->
  sec_interface (result (fold_left sectionsStep lines st)) !! js key
  = sec_interface (result st) !! js key.
Proof.
  revert st. induction lines as [|line lines IH]; intros st; simpl; [done|].
  intros H. apply orb_false_iff in H as [Hh Hrest].
  rewrite IH by done. by apply sectionsStep_key.
Qed.

(** Without a line that sets the key, the interface section has no value
    for it. *)
Lemma parseSections_no_key (key : string) (content : jsstring) :
  hasKey key content = false ->
  prop (sec_interface (parseSections content)) key = None.
Proof.
  intros H. unfold parseSections, prop. cbv zeta.
  match goal with
  | |- context [fold_left sectionsStep ?l ?s] =>
      pose proof (fold_sectionsStep_key key l s H) as E
  end.
  cbn [result sec_interface] in E. rewrite lookup_empty in E.
  destruct (_ && _); cbn [sec_interface];
    match goal with
    | |- match ?x with _ => _ end = _ =>
        replace x with (@None jsstring) by (symmetry; exact E)
    end; done.
Qed.

(** Without an [[Interface]] header the interface section stays empty. *)
Lemma parseSections_no_interface (content : jsstring) :
  hasHeader "[interface]" content = false ->
  sec_interface (parseSections content) = ∅.
Proof.
  intros H. unfold parseSections. cbv zeta.
  match goal with
  | |- context [fold_left sectionsStep ?l ?s] =>
      pose proof (fold_sectionsStep_interface l s H) as E
  end.
  destruct (_ && _); cbn [sec_interface]; by rewrite E.
Qed.

(** Without a [[Peer]] header there is no peer. *)
Lemma parseSections_no_peer (content : jsstring) :
  hasHeader "[peer]" content = false ->
  sec_peers (parseSections content) = [].
Proof.
  intros H. unfold parseSections. cbv zeta.
  match goal with
  | |- context [fold_left sectionsStep ?l ?s] =>
      destruct (fold_sectionsStep_peer l s H) as [Hs E]; [done|]
  end.
  destruct (currentSection (fold_left sectionsStep _ _)); [| |done];
    cbn [Section_eqb andb]; by rewrite E.
Qed.

(** The three early returns of [parseAwgConfig]. *)
Lemma parseAwgConfig_no_interface (content : jsstring) :
  sec_interface (parseSections content) = ∅ ->
  parseAwgConfig content
  = {| success := false; endpoint := None;
       errors := [js "No [Interface] section found"] |}.
Proof. intros H. unfold parseAwgConfig. cbv zeta. by rewrite H. Qed.

Lemma parseAwgConfig_no_privatekey (content : jsstring) :
  prop (sec_interface (parseSections content)) "privatekey" = None ->
  success (parseAwgConfig content) = false /\
  endpoint (parseAwgConfig content) = None.
Proof.
  intros H. unfold parseAwgConfig. cbv zeta. rewrite H.
  by destruct (_ =? _)%nat.
Qed.

Lemma parseAwgConfig_no_peers (content : jsstring) :
  sec_peers (parseSections content) = [] ->
  success (parseAwgConfig content) = false /\
  endpoint (parseAwgConfig content) = None.
Proof.
  intros H. unfold parseAwgConfig. cbv zeta. rewrite H.
  destruct (_ =? _)%nat; [done|].
  by destruct (prop _ _).
Qed.

(** C7.  [parseAwgConfig] fails, with no endpoint, when the document has
    no [[Interface]] section, when no line of it sets a private key or,
    more generally, the interface section that was read has no private
    key (none, or an empty one), and when the document has no [[Peer]]
    section; a document that is an [[Interface]] section with
    [PrivateKey = X] fails with exactly "No [Peer] section found" and no
    endpoint. *)
Theorem C7_parseAwgConfig_fatal_errors (confContent : jsstring) :
  (hasHeader "[interface]" confContent = false \/
   hasKey "privatekey" confContent = false \/
   prop (sec_interface (parseSections confContent)) "privatekey" = None \/
   hasHeader "[peer]" confContent = false ->
   success (parseAwgConfig confContent) = false /\
   endpoint (parseAwgConfig confContent) = None) /\
  parseAwgConfig conf_interface_only
  = {| success := false; endpoint := None;
       errors := [js "No [Peer] section found"] |}.
Proof.
  split; [|by vm_compute].
  intros [H|[H|[H|H]]].
  - apply parseSections_no_interface, parseAwgConfig_no_interface in H.
    by rewrite H.
  - by apply parseAwgConfig_no_privatekey, parseSections_no_key.
  - by apply parseAwgConfig_no_privatekey.
  - by apply parseAwgConfig_no_peers, parseSections_no_peer.
Qed.

Lemma C7_witness :
  hasHeader "[peer]" conf_interface_only = false /\
  success (parseAwgConfig conf_interface_only) = false /\
  endpoint (parseAwgConfig conf_interface_only) = None.
Proof.
  assert (H : hasHeader "[peer]" conf_interface_only = false)
    by (vm_compute; reflexivity).
  split; [exact H|].
  exact (proj1 (C7_parseAwgConfig_fatal_errors conf_interface_only)
           (or_intror (or_intror (or_intror H)))).
Defined.

End ParseAwgConfig.

(** ** Reality without a public key *)

Section RealityPublicKey.

Import Samples.

(** The TLS block of the link parser returns early for one reason only. *)
Lemma tlsFromParams_error (security server msg : jsstring)
    (params : list (jsstring * jsstring)) :
  tlsFromParams security server params = inl msg ->
  msg = js "Reality requires public key (pbk)" /\
  jsstring_eqb security (js "reality") = true /\
  truthyOpt (get params (js "pbk")) = false.
Proof.
  unfold tlsFromParams. cbv zeta.
  destruct (jsstring_eqb security (js "reality")); [|done].
  destruct (truthyOpt (get params (js "pbk"))); [done|].
  cbn [negb]. by intros [= <-].
Qed.

Lemma tlsFromParams_reality_without_pbk (security server : jsstring)
    (params : list (jsstring * jsstring)) :
  jsstring_eqb security (js "reality") = true ->
  truthyOpt (get params (js "pbk")) = false ->
  tlsFromParams security server params
  = inl (js "Reality requires public key (pbk)").
Proof. unfold tlsFromParams. cbv zeta. by intros -> ->. Qed.

(** The link parser: a link that passes the checks up to the port, asks
    for reality security and has no [pbk] is rejected with the diagnostic
    of line 231. *)
Lemma parseVlessLink_reality_without_pbk (link : jsstring) (ln : nat)
    (dt : option jsstring) (atIndex : nat) (server : jsstring) (port : Z) :
  startsWith (js "vless://") (trim link) = true ->
  tagDecodes link = true ->
  lastIndexOf (ch "@") (mainPart link) = Some atIndex ->
  (32 <= length (slice 0 atIndex (mainPart link)))%nat ->
  let hostPortParams := sliceFrom (atIndex + 1) (mainPart link) in
  let params := URLSearchParams (orElse (queryStringOf hostPortParams) []) in
  hostAndPort (hostPortOf hostPortParams) = inr (server, Some port) ->
  server <> [] -> (1 <= port <= 65535)%Z ->
  orElse (get params (js "security")) (js "none") = js "reality" ->
  truthyOpt (get params (js "pbk")) = false ->
  parseVlessLink link ln dt
  = failure link ln (js "Reality requires public key (pbk)").
Proof.
  intros Hp Ht Hat Hlen hostPortParams params Hhp Hs Hport Hsec Hpbk.
  subst hostPortParams params.
  unfold parseVlessLink. cbv zeta.
  rewrite (startsWith_truthy _ _ _ Hp), Hp. cbn [negb].
  unfold tagDecodes, mainPart, fragment, hostPortOf, queryStringOf in *.
  destruct (destructure2 (split (ch "#") (sliceFrom 8 (trim link))))
    as [mp fr].
  cbn [fst snd] in *.
  assert (Htag : exists tag,
    (if truthyOpt fr then decodeURIComponent (default [] fr)
     else Some (orElse dt (js "proxy-p" ++ ofNat ln))) = Some tag).
  { destruct (truthyOpt fr); [|by eexists].
    destruct (decodeURIComponent (default [] fr)); [by eexists|done]. }
  destruct Htag as [tag ->]. rewrite Hat.
  assert (Hu : negb (truthy (slice 0 atIndex mp))
               || (length (slice 0 atIndex mp) <? 32)%nat = false).
  { apply orb_false_iff. split.
    - destruct (slice 0 atIndex mp); [simpl in Hlen; lia|done].
    - by apply Nat.ltb_ge. }
  rewrite Hu.
  destruct (destructure2 (split (ch "?") (sliceFrom (atIndex + 1) mp)))
    as [hp qs].
  cbn [fst snd] in *. rewrite Hhp.
  destruct server as [|c r]; [done|]. cbn [truthy negb].
  assert ((port <? 1)%Z || (port >? 65535)%Z = false) as ->.
  { apply orb_false_iff. rewrite Z.gtb_ltb.
    split; apply Z.ltb_ge; lia. }
  rewrite Hsec.
  rewrite tlsFromParams_reality_without_pbk by done.
  reflexivity.
Qed.

Import Amnezia.

(** The JSON converter: with reality security and no public key the TLS
    block is built without its [reality] part, and nothing is thrown. *)
Lemma buildTlsConfig_reality_without_publicKey (stream : XRayStreamSettings) :
  security stream = Some (js "reality") ->
  (forall r, realitySettings stream = Some r -> truthyOpt (publicKey r) = false) ->
  enabled (buildTlsConfig stream) = true /\
  reality (buildTlsConfig stream) = None.
Proof.
  intros Hs Hk. unfold buildTlsConfig. cbv zeta. rewrite Hs.
  rewrite bool_decide_eq_true_2 by done.
  destruct (realitySettings stream) as [r|]; [|done].
  rewrite (Hk r eq_refl).
  by destruct (truthyOpt (rs_serverName r)), (truthyOpt (rs_fingerprint r)).
Qed.

(** C1, on the code.  The link parser rejects [link_reality_no_pbk] with
    "Reality requires public key (pbk)".  The JSON converter accepts the
    document [config_reality_no_key]: one outbound, TLS enabled, no
    [reality] part, and no diagnostic. *)
Theorem C1_reality_without_public_key (jsonText : jsstring) :
  parseVlessLink link_reality_no_pbk 1 None
    = failure link_reality_no_pbk 1 (js "Reality requires public key (pbk)") /\
  parseAmneziaConfig (fun _ => inr config_reality_no_key) jsonText
    = {| a_success := true;
         a_outbounds :=
           [ {| type := js "vless"; tag := js "proxy-p1";
                server := js "example.com"; server_port := 443;
                uuid := uuid1; flow := None;
                tls := Some {| enabled := true;
                               server_name := Some (js "example.com");
                               insecure := None; alpn := None; utls := None;
                               reality := None |};
                transport := None |} ];
         a_errors := [] |}.
Proof. split; by vm_compute. Qed.

End RealityPublicKey.

(** ** The protocol dispatcher *)

Section Dispatcher.

(** Two prefixes of one text: one is a prefix of the other. *)
Lemma startsWith_comparable (p q t : jsstring) :
  startsWith p t = true -> startsWith q t = true ->
  startsWith p q = true \/ startsWith q p = true.
Proof.
  revert q t. induction p as [|a p IH]; intros q t; [by left|].
  destruct q as [|b q]; [by right|].
  destruct t as [|c t]; [done|]. simpl.
  intros [Ha Hp]%andb_true_iff [Hb Hq]%andb_true_iff.
  apply N.eqb_eq in Ha, Hb. subst.
  rewrite N.eqb_refl. simpl. by apply (IH q t).
Qed.

(** No scheme of [detectProtocol] is a prefix of another one. *)
Ltac other_scheme H :=
  match goal with
  | |- context [startsWith ?q ?t] =>
      let E := fresh in
      destruct (startsWith q t) eqn:E;
      [exfalso; destruct (startsWith_comparable _ _ _ H E) as [X|X];
       vm_compute in X; discriminate X|]
  end.

Lemma detectProtocol_scheme (link : jsstring) (scheme : jsstring) (p : Protocol) :
  (scheme, p) ∈ (js "vless://", vless) :: unimplementedSchemes ->
  startsWith scheme (toLowerCase (trim link)) = true ->
  detectProtocol link = Some p.
Proof.
  intros Hin H. unfold detectProtocol. cbv zeta.
  unfold unimplementedSchemes in Hin.
  repeat (apply elem_of_cons in Hin as [[= -> ->]|Hin];
          [rewrite ?H; repeat other_scheme H; rewrite ?H, ?orb_true_r; done|]).
  by apply elem_of_nil in Hin.
Qed.


Lemma hostAndPort_error (hostPort msg : jsstring) :
  hostAndPort hostPort = inl msg ->
  msg ∈ [js "Invalid IPv6 address format";
         js "Missing port after IPv6 address"; js "Missing port"].
Proof.
  unfold hostAndPort. intros H.
  repeat match type of H with
         | context [if ?b then _ else _] => destruct b
         | context [match ?x with _ => _ end] => destruct x
         end;
    simplify_eq;
    repeat first [apply list_elem_of_here | apply list_elem_of_further].
Qed.

(** The diagnostics of the link parser: a fixed text, or one of the two
    texts that quote a parameter. *)
Lemma parseVlessLink_error_shape (link : jsstring) (ln : nat)
    (dt : option jsstring) (e : jsstring) :
  error (parseVlessLink link ln dt) = Some e ->
  e ∈ fixedDiagnostics \/
  (exists x, e = js "Invalid security type: " ++ x) \/
  (exists x, e = js "Invalid transport type: " ++ x).
Proof.
  unfold parseVlessLink. cbv zeta. intros H.
  repeat match type of H with
         | context [if ?b then _ else _] => destruct b eqn:?
         | context [match ?x with _ => _ end] => destruct x eqn:?
         end.
  all: cbn [error failure] in H; try discriminate H; injection H as <-.
  all: try (right; left; by eexists).
  all: try (right; right; by eexists).
  all: left; unfold fixedDiagnostics.
  all: try (repeat first [apply list_elem_of_here | apply list_elem_of_further]; fail).
  all: repeat match goal with
       | E : match ?x with _ => _ end = inl _ |- _ =>
           destruct x eqn:?; [|discriminate E]; injection E as <-
       end.
  all: try match goal with
       | E : tlsFromParams _ _ _ = inl _ |- _ =>
           apply tlsFromParams_error in E as (-> & _ & _)
       end.
  all: try match goal with
       | E : hostAndPort _ = inl _ |- _ =>
           apply hostAndPort_error in E;
           repeat (apply elem_of_cons in E as [->|E]);
           [| | |by apply elem_of_nil in E]
       end.
  all: repeat first [apply list_elem_of_here | apply list_elem_of_further].
Qed.



End Dispatcher.

(** * Further properties *)

(** ** The link parser: the result and its parts *)

Section LinkFacts.

Ltac step_in H :=
  match type of H with
  | context [if ?b then _ else _] => destruct b eqn:?
  | context [match ?x with _ => _ end] => destruct x eqn:?
  end.

Ltac bool_hyps :=
  repeat match goal with
  | H : negb _ = false |- _ => apply negb_false_iff in H
  | H : negb _ = true |- _ => apply negb_true_iff in H
  | H : _ || _ = false |- _ => apply orb_false_iff in H as [? ?]
  | H : (_ <? _)%nat = false |- _ => apply Nat.ltb_ge in H
  | H : (_ <? _)%Z = false |- _ => apply Z.ltb_ge in H
  | H : (_ >? _)%Z = false |- _ => rewrite Z.gtb_ltb in H
  end.

Lemma truthyOpt_default (x : option jsstring) :
  truthyOpt x = true -> Some (default [] x) = x.
Proof. by destruct x as [[|??]|]. Qed.

Lemma parseVlessLink_success_full (link : jsstring) (ln : nat)
    (dt : option jsstring) (o : VlessOutbound) :
  outbound (parseVlessLink link ln dt) = Some o ->
  type o = js "vless" /\
  tagOf link ln dt = Some (tag o) /\
  flow o = (if truthyOpt (get (paramsOf link) (js "flow"))
            then get (paramsOf link) (js "flow") else None) /\
  arrayIncludes VALID_SECURITY (securityOf link) = true /\
  (if jsstring_eqb (securityOf link) (js "tls")
      || jsstring_eqb (securityOf link) (js "reality")
   then exists t, tlsFromParams (securityOf link) (server o) (paramsOf link)
                  = inr t /\ tls o = Some t
   else tls o = None) /\
  arrayIncludes VALID_TRANSPORTS (transportTypeOf link) = true /\
  (if negb (jsstring_eqb (transportTypeOf link) (js "tcp"))
   then buildTransport (transportTypeOf link) (paramsOf link)
        = Some (transport o)
   else transport o = None).
Proof.
  unfold parseVlessLink, tagOf, securityOf, transportTypeOf, paramsOf,
    hostPortParamsOf, queryStringOf, mainPart, fragment.
  cbv zeta. intros H.
  repeat (step_in H; try discriminate H).
  all: repeat match goal with
       | E : match ?x with _ => _ end = inr _ |- _ =>
           destruct x eqn:?; [discriminate E|]
       end.
  all: cbn [outbound] in H; simplify_eq; bool_hyps.
  all: cbn [type tag flow tls transport uuid server server_port setTransport setTls setFlow fst snd].
  all: repeat match goal with
       | E : destructure2 _ = _ |- _ => rewrite E; cbn [fst snd]
       | E : lastIndexOf _ _ = _ |- _ => rewrite E; cbn [fst snd]
       end.
  all: repeat match goal with
       | E : ?x = _ |- context [?x] => rewrite E
       end.
  all: cbn [negb].
  all: repeat split; try done; try (by destruct (get _ _) as [[|??]|]); try by eexists.
  all: match goal with
       | E : truthyOpt ?x = true |- Some (default [] ?x) = ?x =>
           by destruct x as [[|??]|]
       end.
Qed.

Lemma tls_is_not_reality (security : jsstring) :
  jsstring_eqb security (js "tls") = true ->
  jsstring_eqb security (js "reality") = true -> False.
Proof.
  unfold jsstring_eqb. intros H1%bool_decide_eq_true H2%bool_decide_eq_true.
  subst. vm_compute in H2. discriminate H2.
Qed.

Lemma tlsFromParams_ok (security server : jsstring)
    (params : list (jsstring * jsstring)) (t : TlsConfig) :
  tlsFromParams security server params = inr t ->
  enabled t = true /\
  (jsstring_eqb security (js "tls") = true -> server <> [] ->
     truthyOpt (server_name t) = true) /\
  (jsstring_eqb security (js "reality") = false -> reality t = None) /\
  (jsstring_eqb security (js "reality") = true ->
     truthyOpt (get params (js "pbk")) = true /\
     reality t = Some {| reality_enabled := true;
                         public_key := default [] (get params (js "pbk"));
                         short_id := Some (orElse (get params (js "sid")) []) |}) /\
  (forall u, utls t = Some u ->
     utls_enabled u = true /\
     arrayIncludes VALID_FINGERPRINTS (fingerprint u) = true) /\
  (alpn t = if truthyOpt (get params (js "alpn"))
            then Some (split (ch ",") (default [] (get params (js "alpn"))))
            else None) /\
  (insecure t = if bool_decide (get params (js "allowInsecure") = Some (js "1"))
                   || bool_decide (get params (js "allowInsecure") = Some (js "true"))
                then Some true else None).
Proof.
  unfold tlsFromParams. cbv zeta. intros H.
  repeat (step_in H; try discriminate H).
  all: injection H as <-.
  all: cbn [enabled server_name reality utls alpn insecure setServerName
            setInsecure setAlpn setUtls setReality].
  all: bool_hyps.
  all: repeat match goal with
       | E : _ && _ = true |- _ => apply andb_true_iff in E as [? ?]
       end.
  all: split; [done|].
  all: split;
    [intros Htls Hs;
     first [ by destruct server
           | by (rewrite truthyOpt_default by assumption)
           | congruence
           | by (exfalso; eapply tls_is_not_reality) ]|].
  all: split; [intros ?; first [done|congruence]|].
  all: split; [intros ?; first [by split|congruence]|].
  all: split; [intros u Hu; first [discriminate Hu | by injection Hu as <-]|].
  all: split; done.
Qed.

Lemma arrayIncludes_elem (xs : list jsstring) (x : jsstring) :
  arrayIncludes xs x = true <-> x ∈ xs.
Proof.
  unfold arrayIncludes, jsstring_eqb. rewrite existsb_exists. split.
  - intros (y & Hy & E). apply bool_decide_eq_true in E as ->.
    by apply list_elem_of_In.
  - intros H. exists x. split; [by apply list_elem_of_In|].
    by apply bool_decide_eq_true.
Qed.

Lemma parseVlessLink_result_form (link : jsstring) (ln : nat)
    (dt : option jsstring) :
  (exists o, parseVlessLink link ln dt
             = {| success := true; outbound := Some o; error := None;
                  originalLink := link; lineNumber := ln |}) \/
  (exists msg, parseVlessLink link ln dt = failure link ln msg).
Proof.
  unfold parseVlessLink. cbv zeta.
  repeat match goal with
         | |- context [if ?b then _ else _] => destruct b
         | |- context [match ?x with _ => _ end] => destruct x
         end;
    first [left; by eexists | right; by eexists].
Qed.

(** X1.  The result of [parseVlessLink] echoes the link and the line number,
    and is either a success with an outbound and no error, or a failure
    with no outbound and an error text that is not empty. *)
Theorem parseVlessLink_result_well_formed (link : jsstring) (ln : nat)
    (dt : option jsstring) :
  let r := parseVlessLink link ln dt in
  originalLink r = link /\ lineNumber r = ln /\
  ((success r = true /\ is_Some (outbound r) /\ error r = None) \/
   (success r = false /\ outbound r = None /\
    exists e, error r = Some e /\ e <> [])).
Proof.
  intros r. subst r.
  destruct (parseVlessLink_result_form link ln dt) as [[o E]|[msg E]].
  - rewrite E. cbn. split; [done|]. split; [done|]. left. by eauto.
  - pose proof (parseVlessLink_error_shape link ln dt msg) as Hs.
    rewrite E in *. cbn [error failure originalLink lineNumber success outbound] in *.
    split; [done|]. split; [done|]. right. split; [done|]. split; [done|].
    exists msg. split; [done|].
    destruct (Hs eq_refl) as [Hin|[[x ->]|[x ->]]]; [|done..].
    unfold fixedDiagnostics in Hin.
    repeat (apply elem_of_cons in Hin as [->|Hin]; [done|]).
    by apply elem_of_nil in Hin.
Qed.

Lemma valid_security (s : jsstring) :
  arrayIncludes VALID_SECURITY s = true ->
  s = js "none" \/ s = js "tls" \/ s = js "reality".
Proof.
  intros H%arrayIncludes_elem. unfold VALID_SECURITY in H.
  repeat (apply elem_of_cons in H as [->|H]; [by eauto|]).
  by apply elem_of_nil in H.
Qed.

Lemma jsstring_eqb_eq (a b : jsstring) : jsstring_eqb a b = true <-> a = b.
Proof. unfold jsstring_eqb. apply bool_decide_eq_true. Qed.

(** X2.  The [tls] part of a decoded link: absent exactly for security
    [none]; otherwise enabled; for security [tls] with a server name and
    no [reality] part; for security [reality] with a [reality] part that
    carries a public key and a short id; a fingerprint is one of the valid
    ones, and [insecure] is never [false]. *)
Theorem parseVlessLink_tls_invariants (link : jsstring) (ln : nat)
    (dt : option jsstring) (o : VlessOutbound) :
  outbound (parseVlessLink link ln dt) = Some o ->
  (tls o = None <-> securityOf link = js "none") /\
  forall t, tls o = Some t ->
    enabled t = true /\
    (securityOf link = js "tls" ->
       truthyOpt (server_name t) = true /\ reality t = None) /\
    (securityOf link = js "reality" ->
       exists r, reality t = Some r /\ reality_enabled r = true /\
                 public_key r <> [] /\ is_Some (short_id r)) /\
    (forall u, utls t = Some u ->
       utls_enabled u = true /\ fingerprint u ∈ VALID_FINGERPRINTS) /\
    insecure t <> Some false.
Proof.
  intros H.
  pose proof (parseVlessLink_success _ _ _ _ H)
    as (_ & _ & _ & _ & _ & _ & _ & Hserver & _).
  apply parseVlessLink_success_full in H
    as (_ & _ & _ & Hvalid & Htls & _ & _).
  apply valid_security in Hvalid as [E|[E|E]]; rewrite E in *.
  - change (jsstring_eqb (js "none") (js "tls")
            || jsstring_eqb (js "none") (js "reality")) with false in Htls.
    split; [done|]. intros t Ht. congruence.
  - change (jsstring_eqb (js "tls") (js "tls")
            || jsstring_eqb (js "tls") (js "reality")) with true in Htls.
    destruct Htls as (t & Ht & ->). split; [done|].
    intros t' [= <-].
    apply tlsFromParams_ok in Ht as (He & Hsn & Hnr & _ & Hu & _ & Hi).
    split; [done|]. split; [|split; [|split]].
    + intros _. split; [by apply Hsn|by apply Hnr].
    + intros Hx. vm_compute in Hx. discriminate Hx.
    + intros u Hu'. destruct (Hu u Hu') as [? ?].
      split; [done|]. by apply arrayIncludes_elem.
    + rewrite Hi. by destruct (_ || _).
  - change (jsstring_eqb (js "reality") (js "tls")
            || jsstring_eqb (js "reality") (js "reality")) with true in Htls.
    destruct Htls as (t & Ht & ->). split; [done|].
    intros t' [= <-].
    apply tlsFromParams_ok in Ht as (He & _ & _ & Hr & Hu & _ & Hi).
    destruct (Hr eq_refl) as [Hpbk Hreal].
    split; [done|]. split; [|split; [|split]].
    + intros Hx. vm_compute in Hx. discriminate Hx.
    + intros _. eexists. split; [exact Hreal|]. cbn.
      split; [done|]. split; [|by eexists].
      by destruct (get _ _) as [[|??]|].
    + intros u Hu'. destruct (Hu u Hu') as [? ?].
      split; [done|]. by apply arrayIncludes_elem.
    + rewrite Hi. by destruct (_ || _).
Qed.

Lemma valid_transport (s : jsstring) :
  arrayIncludes VALID_TRANSPORTS s = true ->
  s = js "tcp" \/ s = js "ws" \/ s = js "grpc" \/ s = js "http" \/ s = js "quic".
Proof.
  intros H%arrayIncludes_elem. unfold VALID_TRANSPORTS in H.
  repeat (apply elem_of_cons in H as [->|H]; [by eauto 6|]).
  by apply elem_of_nil in H.
Qed.

(** What [buildTransport] returns for each valid type. *)
Lemma buildTransport_kind (type : jsstring) (params : list (jsstring * jsstring))
    (r : option Transport) :
  arrayIncludes VALID_TRANSPORTS type = true ->
  type <> js "tcp" ->
  buildTransport type params = Some r ->
  exists t, r = Some t /\ transportKind t = type /\
    forall w, t = WsT w ->
      (is_Some (max_early_data w) <-> truthyOpt (get params (js "ed")) = true) /\
      (early_data_header_name w
       = if truthyOpt (get params (js "ed"))
         then Some (js "Sec-WebSocket-Protocol") else None).
Proof.
  intros Hv Hn. apply valid_transport in Hv as [-> | [-> | [-> | [-> | ->]]]]; [done|..].
  - unfold buildTransport.
    change (jsstring_eqb (js "ws") (js "ws")) with true. cbv iota.
    destruct (match get params (js "path") with
              | Some (c :: r0) => Some <$> decodeURIComponent (c :: r0)
              | _ => Some None
              end) as [path|]; [|done].
    cbn [mbind option_bind]. intros [= <-]. eexists. split; [done|].
    split; [done|]. intros w [= <-]. cbn [max_early_data early_data_header_name].
    destruct (truthyOpt (get params (js "ed"))); split; try done;
      split; first [done | by eexists | by intros [? ?]].
  - unfold buildTransport.
    change (jsstring_eqb (js "grpc") (js "ws")) with false.
    change (jsstring_eqb (js "grpc") (js "grpc")) with true. cbv iota.
    intros [= <-]. eexists. split; [done|]. split; [done|]. by intros w.
  - unfold buildTransport.
    change (jsstring_eqb (js "http") (js "ws")) with false.
    change (jsstring_eqb (js "http") (js "grpc")) with false.
    change (jsstring_eqb (js "http") (js "http")) with true. cbv iota.
    destruct (match get params (js "path") with
              | Some (c :: r0) => Some <$> decodeURIComponent (c :: r0)
              | _ => Some None
              end) as [path|]; [|done].
    cbn [mbind option_bind]. intros [= <-]. eexists. split; [done|].
    split; [done|]. by intros w.
  - unfold buildTransport.
    change (jsstring_eqb (js "quic") (js "ws")) with false.
    change (jsstring_eqb (js "quic") (js "grpc")) with false.
    change (jsstring_eqb (js "quic") (js "http")) with false.
    change (jsstring_eqb (js "quic") (js "quic")) with true. cbv iota.
    intros [= <-]. eexists. split; [done|]. split; [done|]. by intros w.
Qed.

(** X3.  The [transport] part of a decoded link: absent exactly for type
    [tcp]; otherwise of the type that the link names, and for WebSocket the
    early-data size and its header name, [Sec-WebSocket-Protocol], come
    together. *)
Theorem parseVlessLink_transport_invariants (link : jsstring) (ln : nat)
    (dt : option jsstring) (o : VlessOutbound) :
  outbound (parseVlessLink link ln dt) = Some o ->
  (transport o = None <-> transportTypeOf link = js "tcp") /\
  forall t, transport o = Some t ->
    transportKind t = transportTypeOf link /\
    forall w, t = WsT w ->
      (is_Some (max_early_data w) <-> is_Some (early_data_header_name w)) /\
      (forall h, early_data_header_name w = Some h ->
         h = js "Sec-WebSocket-Protocol").
Proof.
  intros H.
  apply parseVlessLink_success_full in H
    as (_ & _ & _ & _ & _ & Hvalid & Htr).
  destruct (jsstring_eqb (transportTypeOf link) (js "tcp")) eqn:E.
  - apply jsstring_eqb_eq in E. cbn [negb] in Htr. rewrite Htr.
    split; [done|]. by intros t.
  - cbn [negb] in Htr.
    assert (Hne : transportTypeOf link <> js "tcp").
    { intros Hx. apply jsstring_eqb_eq in Hx. congruence. }
    destruct (buildTransport_kind _ _ _ Hvalid Hne Htr) as (t & Ht & Hk & Hw).
    rewrite Ht. split; [split; [done|by intros ?]|].
    intros t' [= <-]. split; [done|].
    intros w Hwt. destruct (Hw w Hwt) as [Hm Hh]. rewrite Hh. split.
    + rewrite Hm. destruct (truthyOpt _); split; try done; by intros [? ?].
    + destruct (truthyOpt _); [by intros h [= <-]|done].
Qed.

(** X4.  Only the trimmed link is read: leading and trailing white space
    changes nothing but the [originalLink] that is echoed. *)
Theorem parseVlessLink_ignores_outer_whitespace (link : jsstring) (ln : nat)
    (dt : option jsstring) :
  success (parseVlessLink (trim link) ln dt) = success (parseVlessLink link ln dt) /\
  outbound (parseVlessLink (trim link) ln dt) = outbound (parseVlessLink link ln dt) /\
  error (parseVlessLink (trim link) ln dt) = error (parseVlessLink link ln dt).
Proof.
  unfold parseVlessLink. cbv zeta. rewrite trim_idem.
  repeat match goal with
         | |- context [if ?b then _ else _] => destruct b
         | |- context [match ?x with _ => _ end] => destruct x
         end; done.
Qed.

(** X5.  The dispatcher reads the scheme in any case, the link parser in lower
    case only. *)
Theorem parseProxyLink_scheme_case (link : jsstring) (ln : nat) :
  startsWith (js "vless://") (toLowerCase (trim link)) = true ->
  startsWith (js "vless://") (trim link) = false ->
  parseProxyLink link ln
  = failure link ln (js "Link must start with vless://").
Proof.
  intros Hl Hu. unfold parseProxyLink.
  rewrite (detectProtocol_scheme link (js "vless://") vless);
    [|apply list_elem_of_here|done].
  unfold parseVlessLink. cbv zeta. rewrite Hu.
  destruct (trim link) eqn:E; [by vm_compute in Hl|done].
Qed.

Lemma split_without (c : N) (s : jsstring) :
  includes c s = false -> split c s = [s].
Proof.
  induction s as [|x s IH]; [done|]. simpl.
  intros [Hx Hs]%orb_false_iff. rewrite N.eqb_sym, Hx. by rewrite IH.
Qed.

Lemma lastIndexOf_from_without (c : N) (s : jsstring) (i : nat)
    (acc : option nat) :
  includes c s = false -> lastIndexOf_from c s i acc = acc.
Proof.
  revert i acc. induction s as [|x s IH]; intros i acc; [done|]. simpl.
  intros [Hx Hs]%orb_false_iff. rewrite N.eqb_sym, Hx. by apply IH.
Qed.

Lemma lastIndexOf_from_app_last (c : N) (a b : jsstring) (i : nat)
    (acc : option nat) :
  includes c b = false ->
  lastIndexOf_from c (a ++ c :: b) i acc = Some (i + length a)%nat.
Proof.
  intros Hb. revert i acc. induction a as [|x a IH]; intros i acc; simpl.
  - rewrite N.eqb_refl, lastIndexOf_from_without by done. f_equal. lia.
  - rewrite IH. f_equal. lia.
Qed.

Lemma lastIndexOf_app_last (c : N) (a b : jsstring) :
  includes c b = false -> lastIndexOf c (a ++ c :: b) = Some (length a).
Proof. intros Hb. unfold lastIndexOf. by rewrite lastIndexOf_from_app_last. Qed.

Lemma indexOf_from_app_first (c : N) (a b : jsstring) (i : nat) :
  includes c a = false ->
  indexOf_from c (a ++ c :: b) i = Some (i + length a)%nat.
Proof.
  revert i. induction a as [|x a IH]; intros i; simpl.
  - intros _. rewrite N.eqb_refl. f_equal. lia.
  - intros [Hx Ha]%orb_false_iff. rewrite N.eqb_sym, Hx, IH by done.
    f_equal. lia.
Qed.

Lemma startsWith_app (p r : jsstring) : startsWith p (p ++ r) = true.
Proof. induction p as [|a p IH]; [done|]. simpl. by rewrite N.eqb_refl. Qed.

Lemma trimEnd_app (a b : jsstring) :
  b <> [] -> trimEnd b = b -> trimEnd (a ++ b) = a ++ b.
Proof.
  unfold trimEnd. intros Hb Ht.
  assert (Hr : dropWhile isWhiteSpace (rev b) = rev b).
  { rewrite <- (rev_involutive (dropWhile _ _)), Ht. done. }
  rewrite rev_app_distr.
  destruct (rev b) as [|x rb] eqn:E.
  { apply (f_equal (@rev N)) in E. rewrite rev_involutive in E. done. }
  simpl in *. destruct (isWhiteSpace x) eqn:Hx.
  - exfalso. assert (Hl : (length (dropWhile isWhiteSpace rb) <= length rb)%nat).
    { clear. induction rb as [|y rb IH]; simpl; [lia|].
      destruct (isWhiteSpace y); simpl; lia. }
    rewrite Hr in Hl. simpl in Hl. lia.
  - simpl. rewrite rev_app_distr, rev_involutive.
    change (x :: rb) with ([x] ++ rb) in E.
    apply (f_equal (@rev N)) in E. rewrite rev_involutive, rev_app_distr in E.
    simpl in E. rewrite E. by rewrite <- app_assoc.
Qed.

(** X6.  The two forms of [hostPort] that carry a port. *)
Theorem hostAndPort_forms (host portText : jsstring) :
  (startsWith (js "[") host = false -> includes (ch ":") portText = false ->
     hostAndPort (host ++ ch ":" :: portText) = inr (host, parseInt portText)) /\
  (includes (ch "]") host = false ->
     hostAndPort (ch "[" :: host ++ ch "]" :: ch ":" :: portText)
     = inr (host, parseInt portText)).
Proof.
  split.
  - intros Hb Hc. unfold hostAndPort.
    assert (startsWith (js "[") (host ++ ch ":" :: portText) = false) as ->.
    { destruct host as [|x host]; [done|].
      change (js "[") with [ch "["] in *. by cbn [startsWith app] in *. }
    rewrite lastIndexOf_app_last by done.
    unfold slice, sliceFrom. rewrite drop_0, take_app_length.
    rewrite Nat.add_1_r.
    change (host ++ ch ":" :: portText) with (host ++ [ch ":"] ++ portText).
    rewrite app_assoc, drop_app_length'; [done|].
    rewrite length_app. simpl. lia.
  - intros Hb. unfold hostAndPort.
    change (startsWith (js "[") (ch "[" :: host ++ ch "]" :: ch ":" :: portText))
      with true. cbv iota.
    unfold indexOf.
    change (ch "[" :: host ++ ch "]" :: ch ":" :: portText)
      with ((ch "[" :: host) ++ ch "]" :: ch ":" :: portText).
    assert (Hb' : includes (ch "]") (ch "[" :: host) = false).
    { unfold includes in *. cbn [existsb]. by rewrite Hb. }
    rewrite indexOf_from_app_first by done.
    cbn [Nat.add length].
    unfold slice, sliceFrom.
    assert (E1 : drop (S (length host + 1))
                   ((ch "[" :: host) ++ ch "]" :: ch ":" :: portText)
                 = ch ":" :: portText).
    { replace ((ch "[" :: host) ++ ch "]" :: ch ":" :: portText)
        with (((ch "[" :: host) ++ [ch "]"]) ++ ch ":" :: portText)
        by (by rewrite <- app_assoc).
      apply drop_app_length'. rewrite length_app. simpl. lia. }
    assert (E2 : take (S (length host))
                   ((ch "[" :: host) ++ ch "]" :: ch ":" :: portText)
                 = ch "[" :: host).
    { by apply take_app_length'. }
    rewrite E1, E2.
    change (startsWith (js ":") (ch ":" :: portText)) with true.
    cbn [negb]. cbv iota. done.
Qed.

Lemma includes_cons (c x : N) (s : jsstring) :
  includes c (x :: s) = (c =? x) || includes c s.
Proof. reflexivity. Qed.

(** X7.  A link without query string and fragment decodes to its parts. *)
Theorem parseVlessLink_plain_link (uuid hostPort server : jsstring) (port : Z)
    (ln : nat) (dt : option jsstring) :
  (32 <= length uuid)%nat ->
  includes (ch "#") uuid = false ->
  includes (ch "@") hostPort = false ->
  includes (ch "#") hostPort = false ->
  includes (ch "?") hostPort = false ->
  trimEnd hostPort = hostPort ->
  hostAndPort hostPort = inr (server, Some port) ->
  server <> [] ->
  (1 <= port <= 65535)%Z ->
  parseVlessLink (js "vless://" ++ uuid ++ ch "@" :: hostPort) ln dt
  = {| success := true;
       outbound := Some {| type := js "vless";
                           tag := orElse dt (js "proxy-p" ++ ofNat ln);
                           server := server; server_port := port;
                           uuid := uuid;
                           flow := None; tls := None; transport := None |};
       error := None;
       originalLink := js "vless://" ++ uuid ++ ch "@" :: hostPort;
       lineNumber := ln |}.
Proof.
  intros Hlen Hu Hat Hhash Hq Hend Hhp Hs Hport.
  assert (Hne : hostPort <> []) by (by intros ->).
  set (link := js "vless://" ++ uuid ++ ch "@" :: hostPort).
  assert (Htrim : trim link = link).
  { unfold trim, trimStart. subst link.
    change (dropWhile isWhiteSpace (js "vless://" ++ uuid ++ ch "@" :: hostPort))
      with (js "vless://" ++ uuid ++ ch "@" :: hostPort).
    replace (js "vless://" ++ uuid ++ ch "@" :: hostPort)
      with ((js "vless://" ++ uuid ++ [ch "@"]) ++ hostPort)
      by (by rewrite <- !app_assoc).
    by apply trimEnd_app. }
  unfold parseVlessLink. cbv zeta. rewrite Htrim.
  assert (truthy link = true) as -> by done.
  assert (startsWith (js "vless://") link = true) as ->
    by apply startsWith_app.
  cbn [negb].
  assert (sliceFrom 8 link = uuid ++ ch "@" :: hostPort) as -> by done.
  rewrite split_without
    by (by rewrite includes_app, includes_cons, Hu, Hhash).
  cbn [destructure2 truthyOpt].
  rewrite lastIndexOf_app_last by done.
  unfold slice, sliceFrom at 1. rewrite drop_0, take_app_length.
  assert (negb (truthy uuid) || (length uuid <? 32)%nat = false) as ->.
  { apply orb_false_iff. split; [|by apply Nat.ltb_ge].
    destruct uuid; [simpl in Hlen; lia|done]. }
  unfold sliceFrom.
  replace (drop (length uuid + 1) (uuid ++ ch "@" :: hostPort)) with hostPort.
  2:{ replace (uuid ++ ch "@" :: hostPort) with ((uuid ++ [ch "@"]) ++ hostPort)
        by (by rewrite <- app_assoc).
      symmetry. apply drop_app_length'. rewrite length_app. simpl. lia. }
  rewrite split_without by done.
  cbn [destructure2]. rewrite Hhp.
  destruct server as [|c srv]; [done|]. cbn [truthy negb].
  assert ((port <? 1)%Z || (port >? 65535)%Z = false) as ->.
  { apply orb_false_iff. rewrite Z.gtb_ltb. split; apply Z.ltb_ge; lia. }
  reflexivity.
Qed.

End LinkFacts.

(** ** The batch parsers: tags, order and line numbers *)

Section BatchFacts.

Lemma parseProxyLink_outbound (link : jsstring) (ln : nat) (o : VlessOutbound) :
  outbound (parseProxyLink link ln) = Some o ->
  outbound (parseVlessLink link ln None) = Some o.
Proof.
  unfold parseProxyLink. by destruct (detectProtocol link) as [[]|].
Qed.

Lemma loopBody_spec (i : nat) (raw : jsstring) (st : LoopState) :
  loopBody i raw st = st \/
  (exists o,
     outbound (parseProxyLink (trim raw) (i + 1)) = Some o /\
     loopBody i raw st
     = {| ls_outbounds := ls_outbounds st ++ [retagged (proxyCounter st) o];
          ls_errors := ls_errors st;
          proxyCounter := S (proxyCounter st) |}) \/
  (exists e,
     pe_lineNumber e = (i + 1)%nat /\
     loopBody i raw st
     = {| ls_outbounds := ls_outbounds st;
          ls_errors := ls_errors st ++ [e];
          proxyCounter := proxyCounter st |}).
Proof.
  unfold loopBody, retagged. cbv zeta.
  destruct (negb (truthy (trim raw)) || startsWith (js "#") (trim raw)
            || startsWith (js "//") (trim raw)); [by left|].
  right.
  destruct (success (parseProxyLink (trim raw) (i + 1)));
    destruct (outbound (parseProxyLink (trim raw) (i + 1))) as [o|];
    [left; by exists o
    | right; eexists; split; [|reflexivity]; reflexivity ..].
Qed.


Lemma loopBody_inv (i : nat) (raw : jsstring) (st : LoopState) :
  loopInv i st -> loopInv (S i) (loopBody i raw st).
Proof.
  intros (Hc & Ho & He & Hs).
  destruct (loopBody_spec i raw st) as [->|[(o & Hp & ->)|(e & Hn & ->)]].
  - split; [done|]. split; [done|]. split; [|done].
    intros e Hin. specialize (He e Hin). lia.
  - split; [|split; [|split]]; cbn [ls_outbounds ls_errors proxyCounter].
    + rewrite length_app. simpl. lia.
    + intros k o' Hk. apply lookup_app_Some in Hk as [Hk|[Hge Hk]].
      { by apply Ho. }
      apply list_lookup_singleton_Some in Hk as [Hk <-].
      assert (k = length (ls_outbounds st)) as -> by lia.
      apply parseProxyLink_outbound in Hp.
      pose proof (parseVlessLink_success _ _ _ _ Hp)
        as (_ & _ & atIndex & _ & _ & Hlen & _ & Hsrv & Hport).
      pose proof (parseVlessLink_success_full _ _ _ _ Hp) as (Hty & _).
      unfold retagged.
      destruct (startsWith (js "proxy-p") (tag o)) eqn:E.
      * cbn [setTag tag type uuid server server_port]. rewrite Hc.
        repeat split; try done; apply Hport.
      * repeat split; try done; try apply Hport. congruence.
    + intros e Hin. specialize (He e Hin). lia.
    + done.
  - split; [|split; [|split]]; cbn [ls_outbounds ls_errors proxyCounter].
    + done.
    + done.
    + intros e' Hin. apply elem_of_app in Hin as [Hin|Hin].
      * specialize (He e' Hin). lia.
      * apply list_elem_of_singleton in Hin as ->. lia.
    + intros a b ea eb Ha Hb Hab.
      apply lookup_app_Some in Hb as [Hb|[Hge Hb]].
      * apply lookup_lt_Some in Hb as Hlt.
        rewrite lookup_app_l in Ha by lia. by apply (Hs a b).
      * apply list_lookup_singleton_Some in Hb as [Hb <-].
        rewrite lookup_app_l in Ha by lia.
        assert (ea ∈ ls_errors st) as Hin by (by eapply list_elem_of_lookup_2).
        specialize (He ea Hin). lia.
Qed.

Lemma loop_inv (lines : list jsstring) (i : nat) (st : LoopState) :
  loopInv i st -> loopInv (i + length lines) (loop i lines st).
Proof.
  revert i st. induction lines as [|raw lines IH]; intros i st H; simpl.
  - by rewrite Nat.add_0_r.
  - replace (i + S (length lines))%nat with (S i + length lines)%nat by lia.
    by apply IH, loopBody_inv.
Qed.

Lemma parseProxyLinks_inv (text : jsstring) :
  loopInv (length (nonBlankLines text))
    (loop 0 (nonBlankLines text)
       {| ls_outbounds := []; ls_errors := []; proxyCounter := 1 |}).
Proof.
  apply (loop_inv (nonBlankLines text) 0). repeat split; try done.
  all: intros; by (try apply elem_of_nil in H).
Qed.

(** X8.  Every outbound of the batch whose tag starts with [proxy-p] is
    numbered by its position among the outbounds. *)
Theorem parseProxyLinks_default_tags_sequential
    (text : jsstring) (k : nat) (o : VlessOutbound) :
  outbounds (parseProxyLinks text) !! k = Some o ->
  startsWith (js "proxy-p") (tag o) = true ->
  tag o = js "proxy-p" ++ ofNat (S k).
Proof.
  intros Hk Ht. destruct (parseProxyLinks_inv text) as (_ & Ho & _).
  by apply (Ho k o).
Qed.

(** X9.  The outbounds of the batch keep what the link parser guarantees. *)
Theorem parseProxyLinks_outbounds_valid (text : jsstring) (o : VlessOutbound) :
  o ∈ outbounds (parseProxyLinks text) ->
  type o = js "vless" /\ (32 <= length (uuid o))%nat /\
  server o <> [] /\ (1 <= server_port o <= 65535)%Z.
Proof.
  intros (k & Hk)%list_elem_of_lookup_1.
  destruct (parseProxyLinks_inv text) as (_ & Ho & _).
  by apply (Ho k o).
Qed.

(** X10.  The errors of the batch are listed by increasing line number, and
    every line number lies between 1 and the total. *)
Theorem parseProxyLinks_errors_ordered (text : jsstring) :
  (forall e, e ∈ errors (parseProxyLinks text) ->
     (1 <= pe_lineNumber e <= totalLinks (parseProxyLinks text))%nat) /\
  (forall a b ea eb,
     errors (parseProxyLinks text) !! a = Some ea ->
     errors (parseProxyLinks text) !! b = Some eb ->
     (a < b)%nat -> (pe_lineNumber ea < pe_lineNumber eb)%nat).
Proof.
  destruct (parseProxyLinks_inv text) as (_ & _ & He & Hs). by split.
Qed.

(** X11.  A text of blank lines and comments gives no outbound and no error. *)
Theorem parseProxyLinks_only_comments (text : jsstring) :
  Forall (fun line => isSkipped line = true) (split (ch "010") text) ->
  outbounds (parseProxyLinks text) = [] /\ errors (parseProxyLinks text) = [].
Proof.
  intros Hall.
  pose proof (loop_counts (nonBlankLines text) 0
                {| ls_outbounds := []; ls_errors := []; proxyCounter := 1 |})
    as Hc.
  assert (Hf : length (filter (fun l => isSkipped l = true) (nonBlankLines text))
               = length (nonBlankLines text)).
  { apply (proj2 (filter_length_all _ _)). unfold nonBlankLines.
    rewrite Forall_forall in Hall |- *. intros l Hl.
    apply Hall. by apply list_elem_of_filter in Hl as [_ ?]. }
  rewrite Hf in Hc. cbn [ls_outbounds ls_errors length] in Hc.
  unfold parseProxyLinks. cbv zeta. cbn [outbounds errors].
  split; apply length_zero_iff_nil; lia.
Qed.

Lemma VlessBatch_loop_spec (lines : list jsstring) (base : nat)
    (outs : list VlessOutbound) (errs : list ParseError) :
  (forall e, e ∈ snd (VlessBatch.loop lines base outs errs) ->
     e ∈ errs \/
     exists j line,
       lines !! j = Some line /\
       pe_lineNumber e = (base + j + 1)%nat /\
       pe_link e = trim line /\
       startsWith (js "vless://") (trim line) = true /\
       error (parseVlessLink (trim line) (base + j + 1) None)
         = Some (pe_error e)) /\
  (forall o, o ∈ fst (VlessBatch.loop lines base outs errs) ->
     o ∈ outs \/
     exists j line,
       lines !! j = Some line /\
       outbound (parseVlessLink (trim line) (base + j + 1) None) = Some o).
Proof.
  revert base outs errs.
  induction lines as [|line lines IH]; intros base outs errs.
  { split; intros ? ?; by left. }
  assert (Hshift : forall outs' errs',
    (forall e, e ∈ errs' -> e ∈ errs \/
       exists j l, (line :: lines) !! j = Some l /\
         pe_lineNumber e = (base + j + 1)%nat /\ pe_link e = trim l /\
         startsWith (js "vless://") (trim l) = true /\
         error (parseVlessLink (trim l) (base + j + 1) None) = Some (pe_error e)) ->
    (forall o, o ∈ outs' -> o ∈ outs \/
       exists j l, (line :: lines) !! j = Some l /\
         outbound (parseVlessLink (trim l) (base + j + 1) None) = Some o) ->
    (forall e, e ∈ snd (VlessBatch.loop lines (S base) outs' errs') ->
       e ∈ errs \/
       exists j l, (line :: lines) !! j = Some l /\
         pe_lineNumber e = (base + j + 1)%nat /\ pe_link e = trim l /\
         startsWith (js "vless://") (trim l) = true /\
         error (parseVlessLink (trim l) (base + j + 1) None) = Some (pe_error e)) /\
    (forall o, o ∈ fst (VlessBatch.loop lines (S base) outs' errs') ->
       o ∈ outs \/
       exists j l, (line :: lines) !! j = Some l /\
         outbound (parseVlessLink (trim l) (base + j + 1) None) = Some o)).
  { intros outs' errs' He Ho.
    destruct (IH (S base) outs' errs') as [IHe IHo]. split.
    - intros e Hin. apply IHe in Hin as [Hin|(j & l & Hj & Hn & Hl & Hp & Hr)].
      + by apply He.
      + right. exists (S j), l.
        replace (base + S j + 1)%nat with (S base + j + 1)%nat by lia. done.
    - intros o Hin. apply IHo in Hin as [Hin|(j & l & Hj & Hr)].
      + by apply Ho.
      + right. exists (S j), l.
        replace (base + S j + 1)%nat with (S base + j + 1)%nat by lia. done. }
  cbn [VlessBatch.loop]. cbv zeta.
  destruct (negb (truthy (trim line)) || startsWith (js "#") (trim line)
            || startsWith (js "//") (trim line)).
  { apply Hshift; intros ? ?; by left. }
  destruct (startsWith (js "vless://") (trim line)) eqn:Hv; cbn [negb].
  2:{ apply Hshift; intros ? ?; by left. }
  destruct (success (parseVlessLink (trim line) (S base) None)) eqn:Hsucc;
    destruct (outbound (parseVlessLink (trim line) (S base) None)) as [o|] eqn:Hout;
    destruct (error (parseVlessLink (trim line) (S base) None)) as [[|c r]|] eqn:Herr.
  all: apply Hshift.
  all: try (intros ? ?; by left).
  all: try (intros x Hin; apply elem_of_app in Hin as [Hin|Hin]; [by left|];
            apply list_elem_of_singleton in Hin as ->; right;
            exists 0%nat, line;
            replace (base + 0 + 1)%nat with (S base) by lia;
            by repeat split).
Qed.

(** X12.  [parseVlessLinks] numbers the lines of the text as they stand, reads
    the lines that start with [vless://] only, and records the whole
    trimmed line. *)
Theorem parseVlessLinks_original_line_numbers (input : jsstring) :
  (forall e, e ∈ errors (VlessBatch.parseVlessLinks input) ->
     exists j line,
       split (ch "010") input !! j = Some line /\
       pe_lineNumber e = S j /\
       pe_link e = trim line /\
       startsWith (js "vless://") (trim line) = true /\
       error (parseVlessLink (trim line) (S j) None) = Some (pe_error e)) /\
  (forall o, o ∈ outbounds (VlessBatch.parseVlessLinks input) ->
     exists j line,
       split (ch "010") input !! j = Some line /\
       outbound (parseVlessLink (trim line) (S j) None) = Some o /\
       tagOf (trim line) (S j) None = Some (tag o)).
Proof.
  unfold VlessBatch.parseVlessLinks. cbv zeta.
  pose proof (VlessBatch_loop_spec (split (ch "010") input) 0 [] []) as [He Ho].
  destruct (VlessBatch.loop (split (ch "010") input) 0 [] []) as [outs errs].
  cbn [fst snd outbounds errors] in *. split.
  - intros e Hin. apply He in Hin as [Hin|(j & l & Hj & Hn & Hl & Hp & Hr)].
    { by apply elem_of_nil in Hin. }
    exists j, l. replace (S j) with (0 + j + 1)%nat by lia. done.
  - intros o Hin. apply Ho in Hin as [Hin|(j & l & Hj & Hr)].
    { by apply elem_of_nil in Hin. }
    exists j, l. replace (S j) with (0 + j + 1)%nat by lia.
    split; [done|]. split; [done|].
    by apply parseVlessLink_success_full in Hr as (_ & ? & _).
Qed.

End BatchFacts.

(** ** The AmneziaWG parser: the endpoint that is built *)

Section AwgFacts.
Import Awg.

Lemma prop_nonempty (section : gmap jsstring jsstring) (key : string)
    (v : jsstring) :
  prop section key = Some v -> v <> [].
Proof. unfold prop. destruct (section !! js key) as [[|c r]|]; naive_solver. Qed.

Lemma parsePeer_public_key (i : nat) (peerData : gmap jsstring jsstring)
    (p : AwgPeer) :
  parsePeer i peerData = inr p ->
  peer_public_key p <> [] /\
  Forall (fun ip => trim ip = ip /\ ip <> []) (allowed_ips p).
Proof.
  unfold parsePeer.
  destruct (prop peerData "publickey") as [pk|] eqn:Hpk; [|done].
  destruct (prop peerData "endpoint") as [ep|]; [|done].
  destruct (parseEndpoint ep) as [[a n]|]; [|done].
  intros [= <-]. cbn [peer_public_key allowed_ips]. split.
  - by eapply prop_nonempty.
  - destruct (prop peerData "allowedips"); [|done].
    apply Forall_forall. intros ip. apply parseCommaSeparated_trimmed.
Qed.

Lemma peersLoop_spec (ps : list (gmap jsstring jsstring)) (i : nat)
    (peers0 : list AwgPeer) (errors0 : list jsstring) :
  let r := peersLoop i ps peers0 errors0 in
  (length (fst r) + length (snd r)
   = length peers0 + length errors0 + length ps)%nat /\
  (Forall (fun p => peer_public_key p <> []) peers0 ->
   Forall (fun p => peer_public_key p <> []) (fst r)).
Proof.
  revert i peers0 errors0.
  induction ps as [|pd ps IH]; intros i peers0 errors0; simpl.
  { split; [lia|done]. }
  destruct (parsePeer i pd) as [m|p] eqn:E.
  - destruct (IH (S i) peers0 (errors0 ++ [m])) as [Hl Hf].
    split; [|done]. rewrite length_app in Hl. simpl in Hl. lia.
  - destruct (IH (S i) (peers0 ++ [p]) errors0) as [Hl Hf].
    split.
    + rewrite length_app in Hl. simpl in Hl. lia.
    + intros H0. apply Hf. apply Forall_app. split; [done|].
      apply Forall_singleton. by apply parsePeer_public_key in E as [? _].
Qed.

Lemma normalizeAddress_has_prefix (addr : jsstring) :
  includes (ch "/") (normalizeAddress addr) = true.
Proof.
  rewrite normalizeAddress_spec.
  destruct (includes (ch "/") (trim addr)) eqn:E; [done|].
  destruct (includes (ch ":") (trim addr));
    by rewrite includes_app, orb_true_r.
Qed.

(** X13.  A returned endpoint: constants, a private key, at least one peer,
    every peer with a public key, every address with a prefix length, and
    one peer or one diagnostic for each [[Peer]] section. *)
Theorem parseAwgConfig_endpoint_invariants (confContent : jsstring)
    (ep : AwgEndpoint) :
  endpoint (parseAwgConfig confContent) = Some ep ->
  success (parseAwgConfig confContent) = true /\
  ep_type ep = js "awg" /\ ep_tag ep = js "awg-endpoint" /\
  useIntegratedTun ep = Some false /\
  private_key ep <> [] /\
  peers ep <> [] /\
  Forall (fun p => peer_public_key p <> []) (peers ep) /\
  Forall (fun a => includes (ch "/") a = true) (ep_address ep) /\
  (length (peers ep) + length (errors (parseAwgConfig confContent))
   = length (sec_peers (parseSections confContent)))%nat.
Proof.
  unfold parseAwgConfig. cbv zeta.
  destruct (keysLength _ =? 0)%nat; [done|].
  destruct (prop (sec_interface (parseSections confContent)) "privatekey")
    as [pk|] eqn:Hpk; [|done].
  destruct (length (sec_peers (parseSections confContent)) =? 0)%nat; [done|].
  pose proof (peersLoop_spec (sec_peers (parseSections confContent)) 0 [] [])
    as [Hl Hf].
  destruct (peersLoop 0 (sec_peers (parseSections confContent)) [] [])
    as [prs errs].
  cbn [fst snd length] in *.
  destruct (length prs =? 0)%nat eqn:Hn; [done|].
  apply Nat.eqb_neq in Hn.
  cbn [endpoint success errors]. intros [= <-].
  cbn [ep_type ep_tag useIntegratedTun private_key peers ep_address].
  repeat split.
  - by eapply prop_nonempty.
  - by destruct prs.
  - by apply Hf.
  - destruct (prop _ "address"); [|done].
    apply Forall_forall. intros a (x & -> & _)%list_elem_of_fmap.
    apply normalizeAddress_has_prefix.
  - lia.
Qed.

(** X14.  The result of [parseAwgConfig] is an endpoint, or at least one
    diagnostic and no endpoint. *)
Theorem parseAwgConfig_result_well_formed (confContent : jsstring) :
  (success (parseAwgConfig confContent) = true /\
   is_Some (endpoint (parseAwgConfig confContent))) \/
  (success (parseAwgConfig confContent) = false /\
   endpoint (parseAwgConfig confContent) = None /\
   errors (parseAwgConfig confContent) <> []).
Proof.
  unfold parseAwgConfig. cbv zeta.
  destruct (keysLength _ =? 0)%nat; [by right|].
  destruct (prop _ "privatekey"); [|by right].
  destruct (length (sec_peers _) =? 0)%nat; [by right|].
  destruct (peersLoop 0 _ [] []) as [prs errs].
  destruct (length prs =? 0)%nat.
  - right. cbn. repeat split. by destruct errs.
  - left. by cbn.
Qed.

End AwgFacts.

(** ** The AmneziaWG parser: endpoints and lines *)

Section AwgLines.
Import Awg.

Lemma takeWhile_until (c : N) (h r : jsstring) :
  includes c h = false ->
  takeWhile (fun x => negb (x =? c)) (h ++ c :: r) = h.
Proof.
  induction h as [|x h IH]; simpl.
  - by rewrite N.eqb_refl.
  - intros [Hx Hh]%orb_false_iff. rewrite N.eqb_sym, Hx. simpl.
    by rewrite IH.
Qed.

Lemma isDigit_not_space (c : N) : isDigit c = true -> isWhiteSpace c = false.
Proof.
  unfold isDigit, isWhiteSpace. intros [H1 H2]%andb_true_iff.
  apply N.leb_le in H1, H2.
  repeat (apply orb_false_intro);
    first [ apply N.eqb_neq; lia
          | apply andb_false_iff; left; apply N.leb_gt; lia
          | apply andb_false_iff; right; apply N.leb_gt; lia ].
Qed.

Lemma digitsValue_digits (d : jsstring) (acc : option Z) :
  forallb isDigit d = true ->
  (d <> [] \/ is_Some acc) ->
  (forall a, acc = Some a -> (0 <= a)%Z) ->
  exists n, digitsValue acc d = Some n /\ (0 <= n)%Z.
Proof.
  revert acc. induction d as [|c d IH]; intros acc Hd Hne Hacc; simpl.
  - destruct Hne as [?|[a ->]]; [done|]. exists a. split; [done|by apply Hacc].
  - simpl in Hd. apply andb_true_iff in Hd as [Hc Hd]. rewrite Hc.
    apply IH; [done|right; by eexists|].
    intros a [= <-]. destruct acc as [a0|]; simpl.
    + specialize (Hacc a0 eq_refl). lia.
    + lia.
Qed.

(** The digits of a port always parse. *)
Lemma parseInt_digits (d : jsstring) :
  forallb isDigit d = true -> d <> [] ->
  exists n, parseInt d = Some n /\ (0 <= n)%Z.
Proof.
  intros Hd Hne. destruct d as [|c d]; [done|].
  pose proof Hd as Hd'. simpl in Hd'. apply andb_true_iff in Hd' as [Hc _].
  unfold parseInt, trimStart. simpl dropWhile.
  rewrite (isDigit_not_space c Hc).
  assert ((c =? ch "-") = false) as ->.
  { unfold isDigit in Hc. apply andb_true_iff in Hc as [H1 H2].
    apply N.leb_le in H1, H2. apply N.eqb_neq. vm_compute (ch "-"). lia. }
  assert ((c =? ch "+") = false) as ->.
  { unfold isDigit in Hc. apply andb_true_iff in Hc as [H1 H2].
    apply N.leb_le in H1, H2. apply N.eqb_neq. vm_compute (ch "+"). lia. }
  apply digitsValue_digits; [done|by left|done].
Qed.




End AwgLines.

Section AwgParseLine.
Import Awg.

Lemma trimEnd_app_keep (a v : jsstring) (c : N) :
  isWhiteSpace c = false -> trimEnd (a ++ c :: v) = a ++ c :: trimEnd v.
Proof.
  intros Hc. unfold trimEnd.
  rewrite rev_app_distr. simpl. rewrite <- app_assoc. simpl.
  rewrite dropWhile_app_keep by done.
  rewrite rev_app_distr. simpl. rewrite rev_involutive.
  by rewrite <- app_assoc.
Qed.

Lemma trim_trimStart (s : jsstring) : trim (trimStart s) = trim s.
Proof. unfold trim, trimStart. by rewrite dropWhile_idem. Qed.

Lemma trimStart_trimEnd (s : jsstring) :
  trimStart (trimEnd s) = trimEnd (trimStart s).
Proof.
  unfold trimStart. induction s as [|x s IH]; [done|].
  simpl. destruct (isWhiteSpace x) eqn:Hx.
  - rewrite <- IH. clear IH.
    (* trimEnd (x :: s) is x :: trimEnd s, or empty when s is all spaces *)
    unfold trimEnd. simpl.
    destruct (dropWhile isWhiteSpace (rev s)) as [|y r] eqn:E.
    + assert (dropWhile isWhiteSpace (rev s ++ [x]) = []) as ->; [|done].
      clear -E Hx. induction (rev s) as [|z l IH]; simpl in *; [by rewrite Hx|].
      destruct (isWhiteSpace z); [by apply IH|done].
    + assert (dropWhile isWhiteSpace (rev s ++ [x]) = (y :: r) ++ [x]) as ->.
      { clear -E. induction (rev s) as [|z l IH]; simpl in *; [done|].
        destruct (isWhiteSpace z); [by apply IH|]. by injection E as -> ->. }
      rewrite rev_app_distr. simpl. by rewrite Hx.
  - rewrite trimEnd_cons by done. simpl. by rewrite Hx.
Qed.

Lemma trim_trimEnd (s : jsstring) : trim (trimEnd s) = trim s.
Proof. unfold trim. by rewrite trimStart_trimEnd, trimEnd_idem. Qed.

Lemma parseLine_cut (k v : jsstring) :
  includes (ch "=") k = false ->
  isComment (k ++ ch "=" :: v) = false ->
  parseLine (k ++ ch "=" :: v)
  = Some (trim k,
          if startsWith (js "<") (trim v) && includes (ch ">") (trim v)
          then match matchAngle (trim v) with
               | Some m => trim m
               | None => trim v
               end
          else trim v).
Proof.
  intros Hk Hc.
  assert (Ht : trim (k ++ ch "=" :: v) = trimStart k ++ ch "=" :: trimEnd v).
  { unfold trim. unfold trimStart at 1.
    rewrite dropWhile_app_keep by done. by apply trimEnd_app_keep. }
  unfold parseLine. cbv zeta.
  unfold isComment in Hc. apply orb_false_iff in Hc as [Hc1 Hc2].
  rewrite Hc1, Hc2, Ht.
  assert (truthy (trimStart k ++ ch "=" :: trimEnd v) = true) as ->
    by (by destruct (trimStart k)).
  cbn [negb orb].
  assert (Hk' : includes (ch "=") (trimStart k) = false).
  { clear -Hk. unfold trimStart. induction k as [|x k IH]; [done|].
    rewrite includes_cons in Hk. apply orb_false_iff in Hk as [Hx Hk].
    cbn [dropWhile]. destruct (isWhiteSpace x); [by apply IH|].
    by rewrite includes_cons, Hx. }
  unfold indexOf. rewrite indexOf_from_app_first by done. cbn [Nat.add].
  unfold slice, sliceFrom. rewrite drop_0, take_app_length.
  replace (drop (length (trimStart k) + 1)
             (trimStart k ++ ch "=" :: trimEnd v))
    with (trimEnd v).
  2:{ replace (trimStart k ++ ch "=" :: trimEnd v)
        with ((trimStart k ++ [ch "="]) ++ trimEnd v)
        by (by rewrite <- app_assoc).
      symmetry. apply drop_app_length'. rewrite length_app. simpl. lia. }
  by rewrite trim_trimStart, trim_trimEnd.
Qed.

(** X16.  A line that is not a comment is cut at its first [=]: the key is the
    trimmed text before it, the value the trimmed text after it, which may
    itself contain [=].  A value [<data>...] is replaced by the trimmed
    [data]. *)
Theorem parseLine_key_value (k v : jsstring) :
  includes (ch "=") k = false ->
  isComment (k ++ ch "=" :: v) = false ->
  (startsWith (js "<") (trim v) && includes (ch ">") (trim v) = false ->
   parseLine (k ++ ch "=" :: v) = Some (trim k, trim v)) /\
  (forall d rest,
     trim v = ch "<" :: d ++ ch ">" :: rest ->
     d <> [] -> includes (ch ">") d = false ->
     parseLine (k ++ ch "=" :: v) = Some (trim k, trim d)).
Proof.
  intros Hk Hc. rewrite (parseLine_cut k v Hk Hc). split.
  - by intros ->.
  - intros d rest -> Hd Hgt.
    assert (startsWith (js "<") (ch "<" :: d ++ ch ">" :: rest) = true) as ->
      by done.
    assert (includes (ch ">") (ch "<" :: d ++ ch ">" :: rest) = true) as ->.
    { rewrite includes_cons, includes_app, includes_cons, N.eqb_refl.
      by rewrite !orb_true_r. }
    cbn [andb matchAngle]. change (ch "<" =? ch "<") with true. cbv iota zeta.
    rewrite takeWhile_until by done.
    replace (drop (length d) (d ++ ch ">" :: rest)) with (ch ">" :: rest)
      by (by rewrite drop_app_length).
    by destruct d.
Qed.

Lemma indexOf_from_None (c : N) (s : jsstring) (n : nat) :
  indexOf_from c s n = None <-> includes c s = false.
Proof.
  revert n. induction s as [|x s IH]; intros n; [done|].
  rewrite includes_cons. cbn [indexOf_from].
  rewrite (N.eqb_sym c x).
  destruct (x =? c); [done|]. apply IH.
Qed.

(** X17.  What is not a [key = value] line: a blank line, a comment, or a line
    without [=]. *)
Theorem parseLine_none (line : jsstring) :
  parseLine line = None <->
  trim line = [] \/ isComment line = true \/ includes (ch "=") (trim line) = false.
Proof.
  unfold parseLine, isComment. cbv zeta.
  destruct (trim line) as [|c r] eqn:E.
  { split; [by left|done]. }
  cbn [truthy negb orb].
  destruct (startsWith (js "#") (c :: r) || startsWith (js "//") (c :: r))
    eqn:Hc.
  { split; [by (right; left)|done]. }
  unfold indexOf.
  destruct (indexOf_from (ch "=") (c :: r) 0) as [i|] eqn:Hi.
  - split; [done|]. intros [?|[?|Hn]]; [done..|].
    apply indexOf_from_None with (n := 0%nat) in Hn. congruence.
  - split; [|done]. intros _. right. right.
    by apply indexOf_from_None in Hi.
Qed.

End AwgParseLine.

(** ** The AmneziaWG parser: sections and line ends *)

Section AwgSections.
Import Awg.

Lemma sectionsStep_peers_nonempty (st : SectionsState) (line : jsstring) :
  Forall (fun p => p <> ∅) (sec_peers (result st)) ->
  Forall (fun p => p <> ∅) (sec_peers (result (sectionsStep st line))).
Proof.
  intros H. unfold sectionsStep. cbv zeta.
  destruct (jsstring_eqb (toLowerCase (trim line)) (js "[interface]"));
    [done|].
  destruct (jsstring_eqb (toLowerCase (trim line)) (js "[peer]")).
  - cbn [result].
    destruct (Section_eqb (currentSection st) InPeer); cbn [andb]; [|done].
    destruct (0 <? keysLength (currentPeer st))%nat eqn:Hk; [|done].
    cbn [sec_peers]. apply Forall_app. split; [done|].
    apply Forall_cons. split; [|apply Forall_nil_2].
    intros E. rewrite E in Hk. unfold keysLength in Hk.
    by rewrite map_size_empty in Hk.
  - destruct (parseLine (trim line)) as [[key value]|]; [|done].
    by destruct (currentSection st).
Qed.

(** X18.  Every peer that [parseSections] returns has a property, and there
    are at most as many peers as [[Peer]] header lines: a [[Peer]] header
    that no property follows gives no peer. *)
Theorem parseSections_peers_nonempty (content : jsstring) :
  Forall (fun p => p <> ∅) (sec_peers (parseSections content)) /\
  (length (sec_peers (parseSections content))
   <= length (List.filter
                (fun line =>
                   jsstring_eqb (toLowerCase (trim line)) (js "[peer]"))
                (cleanLines content)))%nat.
Proof.
  unfold parseSections. cbv zeta.
  set (st0 := {| result := {| sec_interface := ∅; sec_peers := [] |};
                 currentSection := InNone; currentPeer := ∅ |}).
  set (isPeer := fun line =>
         jsstring_eqb (toLowerCase (trim line)) (js "[peer]")).
  assert (Hinv : forall lines st,
    Forall (fun p => p <> ∅) (sec_peers (result st)) ->
    Forall (fun p => p <> ∅)
      (sec_peers (result (fold_left sectionsStep lines st)))).
  { induction lines as [|l lines IH]; intros st H; [done|].
    cbn [fold_left]. by apply IH, sectionsStep_peers_nonempty. }
  assert (Hcount : forall lines st,
    let open st := if Section_eqb (currentSection st) InPeer then 1%nat
                   else 0%nat in
    (length (sec_peers (result (fold_left sectionsStep lines st)))
     + open (fold_left sectionsStep lines st)
     <= length (sec_peers (result st)) + open st
        + length (List.filter isPeer lines))%nat).
  { induction lines as [|l lines IH]; intros st open; [cbn; lia|].
    cbn [fold_left]. specialize (IH (sectionsStep st l)). cbv zeta in IH.
    fold open in IH. etransitivity; [exact IH|]. clear IH.
    destruct (jsstring_eqb (toLowerCase (trim l)) (js "[peer]")) eqn:Ep.
    - cbn [List.filter]. unfold isPeer at 2. rewrite Ep. cbn [length].
      unfold open, sectionsStep. cbv beta zeta. rewrite Ep.
      destruct (jsstring_eqb (toLowerCase (trim l)) (js "[interface]")).
      { cbn [result currentSection Section_eqb].
        destruct (Section_eqb (currentSection st) InPeer); lia. }
      cbn [result currentSection Section_eqb].
      destruct (Section_eqb (currentSection st) InPeer); cbn [andb]; [|lia].
      destruct (0 <? keysLength (currentPeer st))%nat; cbn [sec_peers];
        rewrite ?length_app; cbn [length]; lia.
    - cbn [List.filter]. unfold isPeer at 2. rewrite Ep.
      unfold open, sectionsStep. cbv beta zeta. rewrite Ep.
      destruct (jsstring_eqb (toLowerCase (trim l)) (js "[interface]")).
      { cbn [result currentSection Section_eqb].
        destruct (Section_eqb (currentSection st) InPeer); lia. }
      destruct (parseLine (trim l)) as [[key value]|]; [|done].
      destruct (currentSection st) eqn:Ec;
        cbn [result currentSection sec_peers]; rewrite ?Ec;
        cbn [Section_eqb]; lia. }
  specialize (Hinv (cleanLines content) st0 (Forall_nil_2 _)).
  specialize (Hcount (cleanLines content) st0). cbv beta zeta in Hcount.
  change (sec_peers (result st0)) with (@nil ParsedSection) in Hcount.
  change (Section_eqb (currentSection st0) InPeer) with false in Hcount.
  cbn [length Nat.add] in Hcount.
  destruct (Section_eqb (currentSection (fold_left sectionsStep _ st0)) InPeer); cbn [andb]; [|split; [done|lia]].
  destruct (0 <? keysLength (currentPeer (fold_left sectionsStep _ st0)))%nat
    eqn:Hk; [|split; [done|lia]].
  cbn [sec_peers]. split.
  - apply Forall_app. split; [done|].
    apply Forall_cons. split; [|apply Forall_nil_2].
    intros E. rewrite E in Hk. unfold keysLength in Hk.
    by rewrite map_size_empty in Hk.
  - rewrite length_app. cbn [length]. lia.
Qed.

Lemma replaceCR_no_CR (s : jsstring) : includes 13 (replaceCR s) = false.
Proof.
  induction s as [|c s IH]; [done|].
  unfold replaceCR in *. cbn [map]. rewrite includes_cons, IH, orb_false_r.
  destruct (c =? 13) eqn:E; [done|]. by rewrite N.eqb_sym.
Qed.

Lemma split_pieces (c : N) (s : jsstring) :
  Forall (fun piece => includes c piece = false
                       /\ forall d, includes d s = false ->
                                    includes d piece = false)
         (split c s).
Proof.
  induction s as [|x s IH]; cbn [split].
  { apply Forall_cons. split; [done|apply Forall_nil_2]. }
  destruct (x =? c) eqn:Ex.
  - apply Forall_cons. split; [done|].
    eapply Forall_impl; [exact IH|]. intros p [H1 H2]. split; [done|].
    intros d Hd. rewrite includes_cons in Hd.
    apply orb_false_iff in Hd as [_ Hd]. by apply H2.
  - destruct (split c s) as [|h t] eqn:Es.
    + apply Forall_cons. split; [|apply Forall_nil_2]. split.
      * by rewrite includes_cons, N.eqb_sym, Ex.
      * intros d Hd. rewrite includes_cons in Hd.
        apply orb_false_iff in Hd as [Hd _]. by rewrite includes_cons, Hd.
    + apply Forall_cons in IH as [[H1 H2] IH].
      apply Forall_cons. split.
      * split.
        -- by rewrite includes_cons, N.eqb_sym, Ex, H1.
        -- intros d Hd. rewrite includes_cons in Hd.
           apply orb_false_iff in Hd as [Hd Hs].
           by rewrite includes_cons, Hd, H2.
      * eapply Forall_impl; [exact IH|]. intros p [G1 G2]. split; [done|].
        intros d Hd. rewrite includes_cons in Hd.
        apply orb_false_iff in Hd as [_ Hd]. by apply G2.
Qed.

(** X19.  [\r\n], [\r] and [\n] all end a line: no line that [parseSections]
    reads holds a carriage return or a line feed, and there is always at
    least one line. *)
Theorem cleanLines_no_line_break (content : jsstring) :
  cleanLines content <> [] /\
  Forall (fun line => includes 13 line = false /\ includes 10 line = false)
         (cleanLines content).
Proof.
  unfold cleanLines. split.
  - by destruct (replaceCR _) as [|x s]; cbn [split];
      [|destruct (x =? _); [|destruct (split _ s)]].
  - eapply Forall_impl; [apply split_pieces|].
    intros p [H1 H2]. split; [|exact H1].
    apply H2, replaceCR_no_CR.
Qed.

End AwgSections.

(** ** The client-config parser *)

Section AmneziaFacts.
Import Amnezia.

Lemma orElse_nonempty (x : option jsstring) (d : jsstring) :
  d <> [] -> orElse x d <> [].
Proof. intros Hd. unfold orElse. by destruct x as [[|c s]|]. Qed.

Lemma buildTransport_kinds (n : jsstring) (s : XRayStreamSettings)
    (t : Transport) :
  Amnezia.buildTransport n s = Some t ->
  n ∈ [js "ws"; js "grpc"; js "http"; js "h2"; js "quic"] /\
  transportKind t = (if jsstring_eqb n (js "h2") then js "http" else n).
Proof.
  unfold Amnezia.buildTransport. intros H.
  destruct (jsstring_eqb n (js "ws")) eqn:E1.
  { apply jsstring_eqb_eq in E1 as ->. injection H as <-.
    split; [rewrite !elem_of_cons; tauto|done]. }
  destruct (jsstring_eqb n (js "grpc")) eqn:E2.
  { apply jsstring_eqb_eq in E2 as ->. injection H as <-.
    split; [rewrite !elem_of_cons; tauto|done]. }
  destruct (jsstring_eqb n (js "http")) eqn:E3.
  { apply jsstring_eqb_eq in E3 as ->. injection H as <-.
    split; [rewrite !elem_of_cons; tauto|done]. }
  destruct (jsstring_eqb n (js "h2")) eqn:E4.
  { apply jsstring_eqb_eq in E4 as ->. injection H as <-.
    split; [rewrite !elem_of_cons; tauto|done]. }
  destruct (jsstring_eqb n (js "quic")) eqn:E5; [|done].
  apply jsstring_eqb_eq in E5 as ->. injection H as <-.
  split; [rewrite !elem_of_cons; tauto|done].
Qed.

Lemma convertXRayToSingbox_cases (x : XRayOutbound) (i : nat) :
  match convertXRayToSingbox x i with
  | inl m =>
      (m = js "No vnext configuration found" /\
       (s ← settings x; v ← vnext s; head v) = None) \/
      (m = js "No user configuration found" /\
       exists v, (s ← settings x; v ← vnext s; head v) = Some v /\
                 users v = [])
  | inr o =>
      exists v u rest,
        (s ← settings x; v ← vnext s; head v) = Some v /\
        users v = u :: rest /\
        type o = js "vless" /\
        server o = address v /\ server_port o = port v /\ uuid o = id u /\
        tag o = orElse (xray_tag x) (js "proxy-p" ++ ofNat i) /\
        tag o <> [] /\
        flow o = (if truthyOpt (user_flow u) then user_flow u else None) /\
        (is_Some (tls o) <->
         exists s, streamSettings x = Some s /\
                   (security s = Some (js "tls") \/
                    security s = Some (js "reality"))) /\
        (forall t, transport o = Some t ->
           transportKind t ∈ [js "ws"; js "grpc"; js "http"; js "quic"])
  end.
Proof.
  unfold convertXRayToSingbox.
  destruct (s ← settings x; v ← vnext s; head v) as [v|] eqn:Ev;
    [|by left].
  destruct (users v) as [|u rest] eqn:Eu; cbn [head].
  { right. split; [done|]. by exists v. }
  exists v, u, rest. split; [done|]. split; [done|].
  set (tag0 := orElse (xray_tag x) (js "proxy-p" ++ ofNat i)).
  assert (Htag : tag0 <> []) by (by apply orElse_nonempty).
  set (o0 := {| type := js "vless"; tag := tag0; server := address v;
                server_port := port v; uuid := id u; flow := None;
                tls := None; transport := None |}).
  set (o1 := if truthyOpt (user_flow u)
             then setFlow o0 (default [] (user_flow u)) else o0).
  assert (H1 : type o1 = js "vless" /\ server o1 = address v /\
               server_port o1 = port v /\ uuid o1 = id u /\ tag o1 = tag0 /\
               flow o1 = (if truthyOpt (user_flow u) then user_flow u
                          else None) /\
               tls o1 = None /\ transport o1 = None).
  { unfold o1. destruct (user_flow u) as [[|c f]|]; cbn; done. }
  clearbody o1. clear o0.
  destruct H1 as (T1 & T2 & T3 & T4 & T5 & T6 & T7 & T8).
  destruct (streamSettings x) as [s|] eqn:Es.
  2:{ cbv beta iota. repeat (split; [done|]). split; [by rewrite T5|].
      split; [done|]. split.
      - rewrite T7. split; [by intros [? ?]|]. by intros (? & ? & _).
      - by rewrite T8. }
  set (o2 := if bool_decide (security s = Some (js "tls"))
                || bool_decide (security s = Some (js "reality"))
             then setTls o1 (buildTlsConfig s) else o1).
  assert (H2 : type o2 = js "vless" /\ server o2 = address v /\
               server_port o2 = port v /\ uuid o2 = id u /\ tag o2 = tag0 /\
               flow o2 = (if truthyOpt (user_flow u) then user_flow u
                          else None) /\
               transport o2 = None /\
               (is_Some (tls o2) <->
                (security s = Some (js "tls") \/
                 security s = Some (js "reality")))).
  { unfold o2.
    destruct (bool_decide (security s = Some (js "tls"))) eqn:B1;
      [apply bool_decide_eq_true in B1|apply bool_decide_eq_false in B1];
    (destruct (bool_decide (security s = Some (js "reality"))) eqn:B2;
      [apply bool_decide_eq_true in B2|apply bool_decide_eq_false in B2]);
    cbn [orb setTls type server server_port uuid tag flow transport tls];
    repeat (split; [done|]); try rewrite T7;
    (split; [try (by intros [? ?]); try (by intros _; left);
             by intros _; right
            |try (by intros _; eexists); by intros [?|?]]). }
  clearbody o2.
  destruct H2 as (U1 & U2 & U3 & U4 & U5 & U6 & U7 & U8).
  assert (Hfin : forall o3,
    type o3 = js "vless" -> server o3 = address v ->
    server_port o3 = port v -> uuid o3 = id u -> tag o3 = tag0 ->
    flow o3 = (if truthyOpt (user_flow u) then user_flow u else None) ->
    tls o3 = tls o2 ->
    (forall t, transport o3 = Some t ->
       transportKind t ∈ [js "ws"; js "grpc"; js "http"; js "quic"]) ->
    type o3 = js "vless" /\ server o3 = address v /\
    server_port o3 = port v /\ uuid o3 = id u /\
    tag o3 = tag0 /\ tag o3 <> [] /\
    flow o3 = (if truthyOpt (user_flow u) then user_flow u else None) /\
    (is_Some (tls o3) <->
     exists s0, Some s = Some s0 /\
                (security s0 = Some (js "tls") \/
                 security s0 = Some (js "reality"))) /\
    (forall t, transport o3 = Some t ->
       transportKind t ∈ [js "ws"; js "grpc"; js "http"; js "quic"])).
  { intros o3 V1 V2 V3 V4 V5 V6 V7 V8.
    repeat (split; [done|]). split; [by rewrite V5|]. split; [done|].
    split; [|done]. rewrite V7, U8. split.
    - intros ?. by exists s.
    - by intros (s0 & [= <-] & ?). }
  cbv zeta.
  destruct (negb (jsstring_eqb (orElse (network s) (js "tcp")) (js "tcp")))
    eqn:En.
  2:{ apply Hfin; try done. by rewrite U7. }
  destruct (Amnezia.buildTransport (orElse (network s) (js "tcp")) s)
    as [t|] eqn:Et.
  2:{ apply Hfin; try done. by rewrite U7. }
  apply Hfin; try done.
  cbn [setTransport transport]. intros t' [= <-].
  destruct (buildTransport_kinds _ _ _ Et) as [Hin ->].
  destruct (jsstring_eqb (orElse (network s) (js "tcp")) (js "h2")) eqn:Eh;
    [rewrite !elem_of_cons; tauto|].
  clear -Hin Eh.
  rewrite !elem_of_cons in Hin. rewrite !elem_of_cons.
  destruct Hin as [->|[->|[->|[E|[->|E]]]]]; try tauto.
  apply jsstring_eqb_eq in E. congruence.
Qed.


(** X20.  What [convertXRayToSingbox] does with one entry: it throws one of two
    messages, or copies the first server and its first user into a [vless]
    outbound.  Neither the port nor the user id is checked. *)
Theorem convertXRayToSingbox_outcome (x : XRayOutbound) (i : nat) :
  match convertXRayToSingbox x i with
  | inl m =>
      (m = js "No vnext configuration found" /\
       (s ← settings x; v ← vnext s; head v) = None) \/
      (m = js "No user configuration found" /\
       exists v, (s ← settings x; v ← vnext s; head v) = Some v /\
                 users v = [])
  | inr o =>
      exists v u rest,
        (s ← settings x; v ← vnext s; head v) = Some v /\
        users v = u :: rest /\
        type o = js "vless" /\
        server o = address v /\ server_port o = port v /\ uuid o = id u /\
        tag o = orElse (xray_tag x) (js "proxy-p" ++ ofNat i) /\
        tag o <> [] /\
        flow o = (if truthyOpt (user_flow u) then user_flow u else None) /\
        (is_Some (tls o) <->
         exists s, streamSettings x = Some s /\
                   (security s = Some (js "tls") \/
                    security s = Some (js "reality"))) /\
        (forall t, transport o = Some t ->
           transportKind t ∈ [js "ws"; js "grpc"; js "http"; js "quic"])
  end.
Proof. apply convertXRayToSingbox_cases. Qed.



Section WithJSON.

Variable JSON_parse : jsstring -> jsstring + XRayConfig.



End WithJSON.

End AmneziaFacts.

Section AmneziaTls.
Import Amnezia.

Lemma truthyOpt_Some (x : option jsstring) :
  truthyOpt x = true -> exists c r, x = Some (c :: r).
Proof. destruct x as [[|c r]|]; [done| |done]. intros _. by exists c, r. Qed.

(** X23.  What [buildTlsConfig] writes: TLS is always enabled; a [reality]
    block only for security [reality] and with a public key; [insecure]
    and [alpn] only for security [tls]; no empty text anywhere. *)
Theorem buildTlsConfig_invariants (stream : XRayStreamSettings) :
  let t := buildTlsConfig stream in
  enabled t = true /\
  (forall r, reality t = Some r ->
     security stream = Some (js "reality") /\ reality_enabled r = true /\
     public_key r <> [] /\ is_Some (short_id r)) /\
  (forall u, utls t = Some u -> utls_enabled u = true /\ fingerprint u <> []) /\
  (forall n, server_name t = Some n -> n <> []) /\
  (forall b, insecure t = Some b ->
     b = true /\ security stream = Some (js "tls")) /\
  (forall a, alpn t = Some a ->
     a <> [] /\ security stream = Some (js "tls")) /\
  (security stream <> Some (js "reality") ->
   security stream <> Some (js "tls") -> t = emptyTls).
Proof.
  intros t. unfold t, buildTlsConfig. cbv zeta.
  destruct (bool_decide (security stream = Some (js "reality"))) eqn:B1;
    [apply bool_decide_eq_true in B1|apply bool_decide_eq_false in B1].
  - destruct (realitySettings stream) as [rs|];
      [|by repeat split; intros; try done].
    destruct (truthyOpt (rs_serverName rs)) eqn:E1;
      [apply truthyOpt_Some in E1 as (? & ? & ->)|];
    (destruct (truthyOpt (rs_fingerprint rs)) eqn:E2;
      [apply truthyOpt_Some in E2 as (? & ? & ->)|]);
    (destruct (truthyOpt (publicKey rs)) eqn:E3;
      [apply truthyOpt_Some in E3 as (? & ? & ->)|]);
    cbn; repeat split; intros; simplify_eq; try done; by eexists.
  - destruct (bool_decide (security stream = Some (js "tls"))) eqn:B2;
      [apply bool_decide_eq_true in B2|apply bool_decide_eq_false in B2];
      [|by repeat split; intros; try done].
    destruct (tlsSettings stream) as [ts|];
      [|by repeat split; intros; try done].
    destruct (truthyOpt (ts_serverName ts)) eqn:E1;
      [apply truthyOpt_Some in E1 as (? & ? & ->)|];
    (destruct (truthyOpt (ts_fingerprint ts)) eqn:E2;
      [apply truthyOpt_Some in E2 as (? & ? & ->)|]);
    (destruct (ts_alpn ts) as [[|a0 al]|]);
    (destruct (allowInsecure ts) as [[|]|]);
    cbn; repeat split; intros; simplify_eq; done.
Qed.

End AmneziaTls.

(** ** The config builder: tags and references *)

Section BuilderReferences.

Import Builder BuilderRefs.

Context {DnsConfig InboundConfig : Type}.
Variable dnsPresets : DnsPreset -> Preset DnsConfig.
Variable inboundPresets : InboundPreset -> Preset (list InboundConfig).

Lemma omap_JStr (l : list jsstring) :
  omap (fun x => match x with JStr s => Some s | _ => None end) (map JStr l)
  = l.
Proof. induction l as [|x l IH]; [done|]. cbn. by rewrite IH. Qed.

(** X24.  Every tag that the built configuration refers to exists in it: the
    route ends at the selector and at [direct], the selector offers tags
    of outbounds or endpoints of the configuration and defaults to one it
    offers, and the urltest tests the supplied tags. *)
Theorem buildConfig_references_resolve (options : BuildOptions) :
  let config := buildConfig dnsPresets inboundPresets options in
  let supplied := length (opt_outbounds options) in
  let system := drop supplied (outbounds config) in
  let known :=
    map tag (outbounds config)
    ++ map Awg.ep_tag (default [] (endpoints config)) in
  take supplied (outbounds config) = opt_outbounds options /\
  final (route _ _ config) ∈ map tag system /\
  Forall (fun r => rule_outbound r ∈ map tag system) (rules (route _ _ config)) /\
  Forall (fun o =>
            Forall (fun t => t ∈ known) (offered o) /\
            forall d, defaultOf o = Some d -> d ∈ offered o) system.
Proof.
  intros config supplied system known.
  assert (Hr : route _ _ config =
               {| default_domain_resolver := js "local";
                  auto_detect_interface := true; final := js "proxy";
                  rules := [ {| ip_is_private := Some true;
                                rule_outbound := js "direct" |} ] |}).
  { unfold config, buildConfig.
    by destruct (0 <? length (default [] (opt_endpoints options)))%nat. }
  assert (He : default [] (endpoints config)
               = default [] (opt_endpoints options)).
  { unfold config. rewrite buildConfig_endpoints.
    by destruct (default [] (opt_endpoints options)). }
  unfold known, system. rewrite He. clear He known system.
  unfold config. rewrite buildConfig_outbounds. cbv zeta.
  set (allTags := map tag (opt_outbounds options)
                  ++ map Awg.ep_tag (default [] (opt_endpoints options))).
  fold config. rewrite Hr. cbn [final rules].
  unfold supplied. rewrite take_app_length, drop_app_length.
  split; [done|].
  rewrite !map_app.
  assert (Hsel : forall l d,
            d ∈ l ->
            defaultOf {| type := js "selector"; tag := js "proxy";
                         extra := [ (js "outbounds", JArr (map JStr l));
                                    (js "default", JStr d) ] |} = Some d /\
            offered {| type := js "selector"; tag := js "proxy";
                       extra := [ (js "outbounds", JArr (map JStr l));
                                  (js "default", JStr d) ] |} = l).
  { intros l d _. split; [done|]. cbn [offered extra].
    change (jsstring_eqb (js "outbounds") (js "outbounds")) with true.
    cbv iota. apply omap_JStr. }
  destruct allTags as [|t ts] eqn:Et.
  - cbn [app map tag]. split; [apply list_elem_of_here|].
    split.
    { apply Forall_cons. split; [|apply Forall_nil_2].
      apply list_elem_of_further, list_elem_of_here. }
    apply Forall_cons. split; [|apply Forall_cons; split; [|apply Forall_nil_2]].
    + destruct (Hsel [js "direct"] (js "direct")) as [Hd Ho];
        [apply list_elem_of_here|].
      change (map JStr [js "direct"]) with [JStr (js "direct")] in Hd, Ho.
      rewrite Hd, Ho. split.
      * apply Forall_cons. split; [|apply Forall_nil_2].
        rewrite !elem_of_app. left. right.
        apply list_elem_of_further, list_elem_of_here.
      * intros d [= <-]. apply list_elem_of_here.
    + split; [apply Forall_nil_2|by intros d].
  - rewrite <- Et. cbn [app map tag]. split; [apply list_elem_of_here|].
    split.
    { apply Forall_cons. split; [|apply Forall_nil_2].
      do 2 apply list_elem_of_further. apply list_elem_of_here. }
    assert (Hall : Forall (fun t0 =>
              t0 ∈ (map tag (opt_outbounds options)
                    ++ [js "proxy"; js "auto"; js "direct"])
                   ++ map Awg.ep_tag (default [] (opt_endpoints options)))
              allTags).
    { apply Forall_forall. intros x Hx. unfold allTags in Hx.
      rewrite !elem_of_app in *. tauto. }
    apply Forall_cons. split;
      [|apply Forall_cons; split;
        [|apply Forall_cons; split; [|apply Forall_nil_2]]].
    + destruct (Hsel (js "auto" :: allTags) (js "auto")) as [Hd Ho];
        [apply list_elem_of_here|].
      change (map JStr (js "auto" :: allTags))
        with (JStr (js "auto") :: map JStr allTags) in Hd, Ho.
      rewrite Hd, Ho. split.
      * apply Forall_cons. split; [|done].
        rewrite !elem_of_app. left. right.
        apply list_elem_of_further, list_elem_of_here.
      * intros d [= <-]. apply list_elem_of_here.
    + split; [|by intros d]. cbn [offered extra].
      change (jsstring_eqb (js "outbounds") (js "outbounds")) with true.
      cbv iota. by rewrite omap_JStr.
    + split; [apply Forall_nil_2|by intros d].
Qed.

(** X25.  The builder neither renames nor drops a tag: the tags of the result
    are pairwise distinct exactly when those of the supplied outbounds are
    and none of them is a tag that the builder uses itself. *)
Theorem buildConfig_tags_distinct (options : BuildOptions) :
  let config := buildConfig dnsPresets inboundPresets options in
  let anyTag :=
    (0 <? length (opt_outbounds options)
          + length (default [] (opt_endpoints options)))%nat in
  map tag (outbounds config)
    = map tag (opt_outbounds options) ++ reserved anyTag /\
  (NoDup (map tag (outbounds config)) <->
   NoDup (map tag (opt_outbounds options)) /\
   forall o, o ∈ opt_outbounds options -> tag o ∉ reserved anyTag).
Proof.
  intros config anyTag.
  assert (Hm : map tag (outbounds config)
               = map tag (opt_outbounds options) ++ reserved anyTag).
  { unfold config. rewrite buildConfig_outbounds. cbv zeta.
    rewrite !map_app. f_equal. unfold anyTag.
    destruct (opt_outbounds options) as [|o os];
      destruct (default [] (opt_endpoints options)) as [|e es]; done. }
  split; [done|]. rewrite Hm, NoDup_app.
  assert (Hres : NoDup (reserved anyTag)).
  { unfold reserved. destruct anyTag; cbn [app];
      repeat (apply NoDup_cons; split;
              [rewrite ?elem_of_cons, elem_of_nil; intros H;
               repeat destruct H as [H|H]; done|]);
      apply NoDup_nil_2. }
  split.
  - intros (H1 & H2 & _). split; [done|].
    intros o Ho. apply H2, list_elem_of_fmap. by exists o.
  - intros (H1 & H2). split; [done|]. split; [|done].
    intros t (o & -> & Ho)%list_elem_of_fmap. by apply H2.
Qed.

End BuilderReferences.

(** ** The store *)

Section StoreFacts.
Import Store.

Lemma call_step_range (s : ConfigState) (c : Call) :
  stepInRange c -> (1 <= step s <= 3)%Z -> (1 <= step (call s c) <= 3)%Z.
Proof. destruct c; cbn; intros; lia. Qed.

(** X26.  The step stays between 1 and 3 whatever is called, as long as
    [setStep] is given a step between 1 and 3. *)
Theorem step_stays_in_range (cs : list Call) :
  Forall stepInRange cs -> (1 <= step (calls initial cs) <= 3)%Z.
Proof.
  unfold calls. assert (H0 : (1 <= step initial <= 3)%Z) by (cbn; lia).
  revert H0. generalize initial.
  induction cs as [|c cs IH]; intros s Hs Hcs; [done|].
  apply Forall_cons in Hcs as [Hc Hcs]. cbn [fold_left].
  apply IH; [|done]. by apply call_step_range.
Qed.



End StoreFacts.

(** ** The further properties on sample inputs *)

Section Witnesses.
Import Samples MoreSamples.

Lemma parseVlessLink_tls_invariants_witness :
  exists o,
    outbound (parseVlessLink link_tls_ws 1 None) = Some o /\
    (tls o = None <-> securityOf link_tls_ws = js "none").
Proof.
  eexists. split; [vm_compute; reflexivity|].
  apply (parseVlessLink_tls_invariants link_tls_ws 1 None).
  vm_compute; reflexivity.
Defined.

Lemma parseVlessLink_transport_invariants_witness :
  exists o,
    outbound (parseVlessLink link_tls_ws 1 None) = Some o /\
    (transport o = None <-> transportTypeOf link_tls_ws = js "tcp").
Proof.
  eexists. split; [vm_compute; reflexivity|].
  apply (parseVlessLink_transport_invariants link_tls_ws 1 None).
  vm_compute; reflexivity.
Defined.

Lemma parseProxyLink_scheme_case_witness :
  startsWith (js "vless://") (toLowerCase (trim link_upper_scheme)) = true /\
  startsWith (js "vless://") (trim link_upper_scheme) = false /\
  parseProxyLink link_upper_scheme 1
  = failure link_upper_scheme 1 (js "Link must start with vless://").
Proof.
  split; [vm_compute; reflexivity|]. split; [vm_compute; reflexivity|].
  apply parseProxyLink_scheme_case; vm_compute; reflexivity.
Defined.

Lemma hostAndPort_forms_witness :
  startsWith (js "[") (js "example.com") = false /\
  includes (ch ":") (js "443") = false /\
  hostAndPort (js "example.com" ++ ch ":" :: js "443")
  = inr (js "example.com", parseInt (js "443")).
Proof.
  split; [reflexivity|]. split; [reflexivity|].
  apply (proj1 (hostAndPort_forms (js "example.com") (js "443")));
    reflexivity.
Defined.


Lemma parseVlessLink_plain_link_witness :
  success (parseVlessLink (js "vless://" ++ uuid1 ++ ch "@" :: js "example.com:443")
             7 None) = true.
Proof.
  rewrite (parseVlessLink_plain_link uuid1 (js "example.com:443")
             (js "example.com") 443 7 None);
    [reflexivity | vm_compute; lia | reflexivity | reflexivity | reflexivity
    | reflexivity | reflexivity | reflexivity | done | lia].
Defined.

Lemma parseProxyLinks_default_tags_sequential_witness :
  exists o,
    outbounds (parseProxyLinks text_mixed) !! 1%nat = Some o /\
    startsWith (js "proxy-p") (tag o) = true /\
    tag o = js "proxy-p" ++ ofNat 2.
Proof.
  eexists. split; [vm_compute; reflexivity|].
  split; [vm_compute; reflexivity|].
  apply (parseProxyLinks_default_tags_sequential text_mixed 1);
    vm_compute; reflexivity.
Defined.

Lemma parseProxyLinks_outbounds_valid_witness :
  exists o,
    o ∈ outbounds (parseProxyLinks text_mixed) /\
    (1 <= server_port o <= 65535)%Z.
Proof.
  eexists. split.
  - vm_compute. apply list_elem_of_here.
  - apply (parseProxyLinks_outbounds_valid text_mixed).
    vm_compute. apply list_elem_of_here.
Defined.

Lemma parseProxyLinks_errors_ordered_witness :
  exists ea eb,
    errors (parseProxyLinks text_mixed) !! 0%nat = Some ea /\
    errors (parseProxyLinks text_mixed) !! 1%nat = Some eb /\
    (pe_lineNumber ea < pe_lineNumber eb)%nat.
Proof.
  eexists _, _. split; [vm_compute; reflexivity|].
  split; [vm_compute; reflexivity|].
  apply (proj2 (parseProxyLinks_errors_ordered text_mixed) 0%nat 1%nat);
    [vm_compute; reflexivity | vm_compute; reflexivity | lia].
Defined.

Lemma parseProxyLinks_only_comments_witness :
  Forall (fun line => isSkipped line = true) (split (ch "010") text_comments) /\
  outbounds (parseProxyLinks text_comments) = [].
Proof.
  assert (H : Forall (fun line => isSkipped line = true)
                (split (ch "010") text_comments)).
  { vm_compute. repeat (apply Forall_cons; split; [reflexivity|]).
    apply Forall_nil_2. }
  split; [exact H|].
  exact (proj1 (parseProxyLinks_only_comments text_comments H)).
Defined.

Lemma parseVlessLinks_original_line_numbers_witness :
  exists e,
    e ∈ errors (VlessBatch.parseVlessLinks text_vless_lines) /\
    exists j line,
      split (ch "010") text_vless_lines !! j = Some line /\
      pe_lineNumber e = S j /\
      pe_link e = trim line /\
      startsWith (js "vless://") (trim line) = true /\
      error (parseVlessLink (trim line) (S j) None) = Some (pe_error e).
Proof.
  eexists. split.
  - vm_compute. apply list_elem_of_here.
  - apply (proj1 (parseVlessLinks_original_line_numbers text_vless_lines)).
    vm_compute. apply list_elem_of_here.
Defined.

Lemma parseAwgConfig_endpoint_invariants_witness :
  exists ep,
    Awg.endpoint (Awg.parseAwgConfig conf_two_peers) = Some ep /\
    (length (Awg.peers ep)
     + length (Awg.errors (Awg.parseAwgConfig conf_two_peers))
     = length (Awg.sec_peers (Awg.parseSections conf_two_peers)))%nat.
Proof.
  eexists. split; [vm_compute; reflexivity|].
  apply (parseAwgConfig_endpoint_invariants conf_two_peers).
  vm_compute; reflexivity.
Defined.


Lemma parseLine_key_value_witness :
  includes (ch "=") (js "PublicKey ") = false /\
  isComment (js "PublicKey " ++ ch "=" :: js " abc=") = false /\
  Awg.parseLine (js "PublicKey " ++ ch "=" :: js " abc=")
  = Some (js "PublicKey", js "abc=").
Proof.
  split; [reflexivity|]. split; [reflexivity|].
  apply (proj1 (parseLine_key_value (js "PublicKey ") (js " abc=")
                  eq_refl eq_refl)).
  reflexivity.
Defined.


Lemma buildTlsConfig_invariants_witness :
  exists r,
    reality (Amnezia.buildTlsConfig stream_reality) = Some r /\
    public_key r <> [].
Proof.
  eexists. split; [vm_compute; reflexivity|].
  apply (proj1 (proj2 (buildTlsConfig_invariants stream_reality))).
  vm_compute; reflexivity.
Defined.

Lemma step_stays_in_range_witness :
  Forall Store.stepInRange calls1 /\
  (1 <= Store.step (Store.calls Store.initial calls1) <= 3)%Z.
Proof.
  assert (H : Forall Store.stepInRange calls1).
  { unfold calls1. repeat (apply Forall_cons; split; [cbn; try lia; done|]).
    apply Forall_nil_2. }
  split; [exact H|]. exact (step_stays_in_range calls1 H).
Defined.



End Witnesses.
